(** * Tastly Google Maps review scraper: a shallow embedding

    The development follows the TypeScript sources:
    - [utils.ts]: [parseRelativeDate], the relative-time normaliser;
    - [main.ts]: the request handler (scroll loop, per-card field
      extraction, accumulation into [collectedReviews] / [seenIds]);
    - the older request handler kept next to it (module [Legacy]).

    JavaScript strings are modelled by [string]; one [ascii] stands for one
    UTF-16 code unit, so the texts covered are those over code units 0..255.
    JavaScript numbers that hold counts, ratings and time values are
    integers far below 2^53 and are modelled by [Z]. *)

From Stdlib Require Import ZArith Lia Ascii String DecimalString.
From stdpp Require Import gmap strings list.

Local Open Scope Z_scope.

(* ===================================================================== *)
(** * Text primitives of the runtime *)
(* ===================================================================== *)

Module Js.

Definition code (c : ascii) : N := N_of_ascii c.

(** [\d] *)
Definition isDigit (c : ascii) : bool :=
  ((48 <=? code c) && (code c <=? 57))%N.

(** [\s], and the white space removed by [String.prototype.trim]:
    TAB, LF, VT, FF, CR, SP and NBSP (the members below code unit 256). *)
Definition isSpace (c : ascii) : bool :=
  (((9 <=? code c) && (code c <=? 13)) || (code c =? 32) || (code c =? 160))%N.

(** [String.prototype.toLowerCase] on one code unit: A-Z, and the
    Latin-1 capitals U+00C0..U+00DE except the multiplication sign. *)
Definition lowerChar (c : ascii) : ascii :=
  let n := code c in
  if (((65 <=? n) && (n <=? 90))
      || ((192 <=? n) && (n <=? 214))
      || ((216 <=? n) && (n <=? 222)))%N
  then ascii_of_N (n + 32) else c.

Fixpoint toLowerCase (s : string) : string :=
  match s with
  | EmptyString => EmptyString
  | String c r => String (lowerChar c) (toLowerCase r)
  end.

Fixpoint trimStart (s : string) : string :=
  match s with
  | EmptyString => EmptyString
  | String c r => if isSpace c then trimStart r else s
  end.

Definition trimEnd (s : string) : string :=
  String.rev (trimStart (String.rev s)).

Definition trim (s : string) : string := trimEnd (trimStart s).

(** [s.length], in code units *)
Definition length (s : string) : Z := Z.of_nat (String.length s).

(** Longest prefix of [s] whose characters satisfy [p], and the rest:
    what a greedy [p+] or [p*] consumes. *)
Fixpoint span (p : ascii -> bool) (s : string) : string * string :=
  match s with
  | EmptyString => (EmptyString, EmptyString)
  | String c r =>
      if p c then let '(a, b) := span p r in (String c a, b)
      else (EmptyString, s)
  end.

(** Every character of [s] satisfies [p]. *)
Fixpoint every (p : ascii -> bool) (s : string) : bool :=
  match s with
  | EmptyString => true
  | String c r => p c && every p r
  end.

(** The next character of [s], if any, is not of class [p]. *)
Definition stopsAt (p : ascii -> bool) (s : string) : Prop :=
  match s with
  | EmptyString => True
  | String c _ => p c = false
  end.

(** Remainder of [s] after the literal [lit], when [s] starts with it. *)
Fixpoint stripPrefix (lit s : string) : option string :=
  match lit, s with
  | EmptyString, _ => Some s
  | String a lit', String b s' =>
      if Ascii.eqb a b then stripPrefix lit' s' else None
  | String _ _, EmptyString => None
  end.

Definition digitValue (c : ascii) : Z := Z.of_N (code c) - 48.

Fixpoint parseDigits (acc : Z) (s : string) : Z :=
  match s with
  | EmptyString => acc
  | String c r => parseDigits (10 * acc + digitValue c) r
  end.

(** [parseInt(ds)] for a non-empty run of decimal digits [ds]. *)
Definition parseInt (ds : string) : Z := parseDigits 0 ds.

(** [text.match(/(\d+)/)]: capture of the leftmost, longest digit run. *)
Fixpoint matchDigits (s : string) : option string :=
  match s with
  | EmptyString => None
  | String c r =>
      if isDigit c then Some (fst (span isDigit s)) else matchDigits r
  end.

(** [`${n}`] for an integer-valued number of magnitude below 10^21. *)
Definition numberToString (n : Z) : string :=
  NilZero.string_of_int (Z.to_int n).

(** [text.includes(lit)] *)
Fixpoint includes (lit s : string) : bool :=
  match stripPrefix lit s with
  | Some _ => true
  | None => match s with
            | EmptyString => false
            | String _ r => includes lit r
            end
  end.

(** One or more [\s], greedy: the text after the run, if the run is
    not empty. *)
Definition spaces1 (s : string) : option string :=
  match span isSpace s with
  | (EmptyString, _) => None
  | (_, r) => Some r
  end.

(** An optional character such as [s?], greedy *)
Definition optChar (c : ascii) (s : string) : string :=
  match s with
  | String c' r => if Ascii.eqb c c' then r else s
  | EmptyString => s
  end.

(** The [i] flag: a pattern of lower-case ASCII letters is matched
    against the text with A-Z folded to a-z (a code unit above 127 never
    folds to an ASCII letter). *)
Definition foldChar (c : ascii) : ascii :=
  if ((65 <=? code c) && (code c <=? 90))%N then ascii_of_N (code c + 32) else c.

Fixpoint foldCase (s : string) : string :=
  match s with
  | EmptyString => EmptyString
  | String c r => String (foldChar c) (foldCase r)
  end.

(** [a || b] on two possibly-null references *)
Definition orElse {A : Type} (a b : option A) : option A :=
  match a with
  | Some _ => a
  | None => b
  end.

(** [s || null] on a string *)
Definition nonEmpty (s : string) : option string :=
  match s with
  | EmptyString => None
  | _ => Some s
  end.

End Js.

(* ===================================================================== *)
(** * The [Date] object of the runtime (ECMA-262, Date objects) *)
(* ===================================================================== *)

Module JsDate.

Definition msPerSecond : Z := 1000.
Definition msPerMinute : Z := 60000.
Definition msPerHour : Z := 3600000.
Definition msPerDay : Z := 86400000.

(** Largest magnitude of a time value; beyond it a Date is invalid. *)
Definition maxTime : Z := 8640000000000000.

Definition Day (t : Z) : Z := t / msPerDay.
Definition TimeWithinDay (t : Z) : Z := t mod msPerDay.

Definition isLeapYear (y : Z) : bool :=
  (y mod 4 =? 0) && (negb (y mod 100 =? 0) || (y mod 400 =? 0)).

Definition DaysInYear (y : Z) : Z := if isLeapYear y then 366 else 365.

(** Day number of 1 January of year [y] *)
Definition DayFromYear (y : Z) : Z :=
  365 * (y - 1970) + (y - 1969) / 4 - (y - 1901) / 100 + (y - 1601) / 400.

(** The year containing day number [d]: the largest [y] with
    [DayFromYear y <= d] (lemma [YearFromDay_spec]).  The quotient by the
    mean year length is off by at most one and is then adjusted. *)
Definition YearFromDay (d : Z) : Z :=
  let q := 1970 + (400 * d) / 146097 in
  if d <? DayFromYear q then q - 1
  else if DayFromYear (q + 1) <=? d then q + 1
  else q.

Definition YearFromTime (t : Z) : Z := YearFromDay (Day t).
Definition InLeapYear (t : Z) : Z :=
  if isLeapYear (YearFromTime t) then 1 else 0.
Definition DayWithinYear (t : Z) : Z := Day t - DayFromYear (YearFromTime t).

(** Day within the year on which month [m] (0 = January) starts;
    [leap] is 1 in a leap year and 0 otherwise. [monthStart leap 12] is
    the length of the year. *)
Definition monthStart (leap m : Z) : Z :=
  match m with
  | 0 => 0
  | 1 => 31
  | 2 => 59 + leap
  | 3 => 90 + leap
  | 4 => 120 + leap
  | 5 => 151 + leap
  | 6 => 181 + leap
  | 7 => 212 + leap
  | 8 => 243 + leap
  | 9 => 273 + leap
  | 10 => 304 + leap
  | 11 => 334 + leap
  | _ => 365 + leap
  end.

Definition monthOfYearDay (leap d : Z) : Z :=
  if d <? 31 then 0
  else if d <? 59 + leap then 1
  else if d <? 90 + leap then 2
  else if d <? 120 + leap then 3
  else if d <? 151 + leap then 4
  else if d <? 181 + leap then 5
  else if d <? 212 + leap then 6
  else if d <? 243 + leap then 7
  else if d <? 273 + leap then 8
  else if d <? 304 + leap then 9
  else if d <? 334 + leap then 10
  else 11.

Definition MonthFromTime (t : Z) : Z :=
  monthOfYearDay (InLeapYear t) (DayWithinYear t).

Definition DateFromTime (t : Z) : Z :=
  DayWithinYear t - monthStart (InLeapYear t) (MonthFromTime t) + 1.

Definition HourFromTime (t : Z) : Z := (t / msPerHour) mod 24.
Definition MinFromTime (t : Z) : Z := (t / msPerMinute) mod 60.
Definition SecFromTime (t : Z) : Z := (t / msPerSecond) mod 60.
Definition msFromTime (t : Z) : Z := t mod msPerSecond.

Definition MakeTime (hour min sec ms : Z) : Z :=
  hour * msPerHour + min * msPerMinute + sec * msPerSecond + ms.

(** Day number of day [date] of month [month] of year [year]; months
    outside 0..11 carry into the year, dates outside the month carry on
    by plain day arithmetic. *)
Definition MakeDay (year month date : Z) : Z :=
  let ym := year + month / 12 in
  let mn := month mod 12 in
  DayFromYear ym + monthStart (if isLeapYear ym then 1 else 0) mn + date - 1.

Definition MakeDate (day time : Z) : Z := day * msPerDay + time.

(** [None] is NaN, the time value of an invalid Date. *)
Definition TimeClip (t : Z) : option Z :=
  if Z.abs t <=? maxTime then Some t else None.

(** A time zone gives the offset of local time from UTC, in ms, at a UTC
    time value ([isUTC = true]) or at a local one ([isUTC = false]). *)
Definition TimeZone : Type := Z -> bool -> Z.

Definition utcZone : TimeZone := fun _ _ => 0.


(** Offsets of less than a day, as every time zone has. *)
Definition boundedZone (tza : TimeZone) : Prop :=
  forall (t : Z) (isUTC : bool), - msPerDay < tza t isUTC < msPerDay.

Section Methods.
Variable tza : TimeZone.

Definition LocalTime (t : Z) : Z := t + tza t true.
Definition UTC (t : Z) : Z := t - tza t false.

(** Getters, on a valid time value [tv] *)
Definition getSeconds (tv : Z) : Z := SecFromTime (LocalTime tv).
Definition getMinutes (tv : Z) : Z := MinFromTime (LocalTime tv).
Definition getHours (tv : Z) : Z := HourFromTime (LocalTime tv).
Definition getDate (tv : Z) : Z := DateFromTime (LocalTime tv).
Definition getMonth (tv : Z) : Z := MonthFromTime (LocalTime tv).
Definition getFullYear (tv : Z) : Z := YearFromTime (LocalTime tv).

(** Setters with one argument; the result is the new time value of
    the Date object. *)
Definition setSeconds (tv sec : Z) : option Z :=
  let t := LocalTime tv in
  TimeClip (UTC (MakeDate (Day t)
    (MakeTime (HourFromTime t) (MinFromTime t) sec (msFromTime t)))).

Definition setMinutes (tv min : Z) : option Z :=
  let t := LocalTime tv in
  TimeClip (UTC (MakeDate (Day t)
    (MakeTime (HourFromTime t) min (SecFromTime t) (msFromTime t)))).

Definition setHours (tv hour : Z) : option Z :=
  let t := LocalTime tv in
  TimeClip (UTC (MakeDate (Day t)
    (MakeTime hour (MinFromTime t) (SecFromTime t) (msFromTime t)))).

Definition setDate (tv dt : Z) : option Z :=
  let t := LocalTime tv in
  TimeClip (UTC (MakeDate
    (MakeDay (YearFromTime t) (MonthFromTime t) dt) (TimeWithinDay t))).

Definition setMonth (tv month : Z) : option Z :=
  let t := LocalTime tv in
  TimeClip (UTC (MakeDate
    (MakeDay (YearFromTime t) month (DateFromTime t)) (TimeWithinDay t))).

Definition setFullYear (tv year : Z) : option Z :=
  let t := LocalTime tv in
  TimeClip (UTC (MakeDate
    (MakeDay year (MonthFromTime t) (DateFromTime t)) (TimeWithinDay t))).
End Methods.

(** [width] decimal digits of [n], most significant first *)
Fixpoint pad (width : nat) (n : Z) : string :=
  match width with
  | O => EmptyString
  | S w => pad w (n / 10) +:+ String (ascii_of_N (Z.to_N (48 + n mod 10))) EmptyString
  end.

Definition isoYear (y : Z) : string :=
  if (0 <=? y) && (y <=? 9999) then pad 4 y
  else if y <? 0 then "-" +:+ pad 6 (- y)
  else "+" +:+ pad 6 y.

(** [toISOString] of a valid time value (UTC fields) *)
Definition isoOfTime (t : Z) : string :=
  isoYear (YearFromTime t) +:+ "-" +:+ pad 2 (MonthFromTime t + 1) +:+ "-"
  +:+ pad 2 (DateFromTime t) +:+ "T" +:+ pad 2 (HourFromTime t) +:+ ":"
  +:+ pad 2 (MinFromTime t) +:+ ":" +:+ pad 2 (SecFromTime t) +:+ "."
  +:+ pad 3 (msFromTime t) +:+ "Z".

(** [date.toISOString()]; [None] is the RangeError thrown for an
    invalid Date. *)
Definition toISOString (tv : option Z) : option string :=
  match tv with
  | Some t => Some (isoOfTime t)
  | None => None
  end.

End JsDate.

(* ===================================================================== *)
(** * utils.ts *)
(* ===================================================================== *)

Module Utils.

(** The unit words of the two regular expressions *)
Inductive Unit : Set :=
  second | minute | hour | day | week | month | year.

Definition unitWord (u : Unit) : string :=
  match u with
  | second => "second" | minute => "minute" | hour => "hour"
  | day => "day" | week => "week" | month => "month" | year => "year"
  end.

(** [(second|minute|hour|day|week|month|year)] *)
Definition allUnits : list Unit :=
  [second; minute; hour; day; week; month; year].

(** An alternation of unit words, tried left to right: the unit and
    the text after it. *)
Fixpoint matchUnit (us : list Unit) (s : string) : option (Unit * string) :=
  match us with
  | [] => None
  | u :: us' =>
      match Js.stripPrefix (unitWord u) s with
      | Some r => Some (u, r)
      | None => matchUnit us' s
      end
  end.

(** [/(\d+)\s+(u1|u2|...)s?\s+ago/] tried at the start of [s]: the two
    captures. No shorter choice of a greedy run can succeed where the
    longest fails, because the character after a maximal run is not of
    the run's class while the next pattern item demands one that is. *)
Definition pluralAt (us : list Unit) (s : string) : option (string * Unit) :=
  match Js.span Js.isDigit s with
  | (EmptyString, _) => None
  | (ds, r1) =>
      match Js.spaces1 r1 with
      | None => None
      | Some r2 =>
          match matchUnit us r2 with
          | None => None
          | Some (u, r3) =>
              match Js.spaces1 (Js.optChar "s" r3) with
              | None => None
              | Some r4 =>
                  match Js.stripPrefix "ago" r4 with
                  | Some _ => Some (ds, u)
                  | None => None
                  end
              end
          end
      end
  end.

(** [text.match(/(\d+)\s+(...)s?\s+ago/)]: leftmost match anywhere in
    the text. *)
Fixpoint pluralMatch (us : list Unit) (s : string) : option (string * Unit) :=
  match pluralAt us s with
  | Some m => Some m
  | None =>
      match s with
      | EmptyString => None
      | String _ r => pluralMatch us r
      end
  end.

(** [text.match(/^a[n]?\s+(u1|u2|...)\s+ago$/)]: the whole text *)
Definition singleMatch (us : list Unit) (s : string) : option Unit :=
  match s with
  | String "a" r0 =>
      match Js.spaces1 (Js.optChar "n" r0) with
      | None => None
      | Some r1 =>
          match matchUnit us r1 with
          | None => None
          | Some (u, r2) =>
              match Js.spaces1 r2 with
              | None => None
              | Some r3 => if String.eqb r3 "ago" then Some u else None
              end
          end
      end
  | _ => None
  end.

(** The texts the first expression looks for, written out: somewhere in
    the text, a run of digits, white space, a unit word with or without
    a plural [s], white space, and [ago]. *)
Definition pluralShape (us : list Unit) (s : string) : Prop :=
  exists (pre ds w1 : string) (u : Unit) (plural w2 post : string),
    s = pre +:+ ds +:+ w1 +:+ unitWord u +:+ plural +:+ w2 +:+ "ago" +:+ post
    /\ ds <> "" /\ Js.every Js.isDigit ds = true
    /\ w1 <> "" /\ Js.every Js.isSpace w1 = true
    /\ In u us
    /\ (plural = "" \/ plural = "s")
    /\ w2 <> "" /\ Js.every Js.isSpace w2 = true.

(** The texts the second expression accepts: [a] or [an], white space, a
    unit word, white space, [ago], and nothing else. *)
Definition singleShape (us : list Unit) (s : string) : Prop :=
  exists (article w1 : string) (u : Unit) (w2 : string),
    s = article +:+ w1 +:+ unitWord u +:+ w2 +:+ "ago"
    /\ (article = "a" \/ article = "an")
    /\ w1 <> "" /\ Js.every Js.isSpace w1 = true
    /\ In u us
    /\ w2 <> "" /\ Js.every Js.isSpace w2 = true.

Section WithTimeZone.
Variable tza : JsDate.TimeZone.

(** First [switch]: subtract [amount] units from the Date [now]. *)
Definition subtractUnits (now : Z) (unit : Unit) (amount : Z) : option Z :=
  match unit with
  | second => JsDate.setSeconds tza now (JsDate.getSeconds tza now - amount)
  | minute => JsDate.setMinutes tza now (JsDate.getMinutes tza now - amount)
  | hour => JsDate.setHours tza now (JsDate.getHours tza now - amount)
  | day => JsDate.setDate tza now (JsDate.getDate tza now - amount)
  | week => JsDate.setDate tza now (JsDate.getDate tza now - amount * 7)
  | month => JsDate.setMonth tza now (JsDate.getMonth tza now - amount)
  | year => JsDate.setFullYear tza now (JsDate.getFullYear tza now - amount)
  end.

(** Second [switch]: subtract one unit. *)
Definition subtractOne (now : Z) (unit : Unit) : option Z :=
  match unit with
  | second => JsDate.setSeconds tza now (JsDate.getSeconds tza now - 1)
  | minute => JsDate.setMinutes tza now (JsDate.getMinutes tza now - 1)
  | hour => JsDate.setHours tza now (JsDate.getHours tza now - 1)
  | day => JsDate.setDate tza now (JsDate.getDate tza now - 1)
  | week => JsDate.setDate tza now (JsDate.getDate tza now - 7)
  | month => JsDate.setMonth tza now (JsDate.getMonth tza now - 1)
  | year => JsDate.setFullYear tza now (JsDate.getFullYear tza now - 1)
  end.

(** Time value of the Date [now] at the [return] reached by
    [parseRelativeDate(text)], where [now] is the reading of the wall
    clock taken by [new Date()]; [None] is an invalid Date. *)
Definition relativeDate (now : Z) (text : string) : option Z :=
  let lower := Js.trim (Js.toLowerCase text) in
  match pluralMatch allUnits lower with
  | Some (digits, unit) => subtractUnits now unit (Js.parseInt digits)
  | None =>
      match singleMatch allUnits lower with
      | Some unit => subtractOne now unit
      | None => Some now
      end
  end.

(** [parseRelativeDate(text)]: the ISO string, or [None] when
    [toISOString] throws its RangeError. *)
Definition parseRelativeDate (now : Z) (text : string) : option string :=
  JsDate.toISOString (relativeDate now text).
End WithTimeZone.

End Utils.

(* ===================================================================== *)
(** * types.ts and the records handed out of [page.evaluate] *)
(* ===================================================================== *)

(** [interface GoogleReview] *)
Record GoogleReview : Type := {
  reviewId : string;
  name : string;
  stars : Z;
  publishedAtDate : string;
  text : option string;
  reviewUrl : option string;
  responseFromOwnerText : option string;
  responseFromOwnerDate : option string;
  likesCount : Z;
  reviewDetailedRating : option (gmap string Z);
  reviewerNumberOfReviews : option Z;
  isLocalGuide : bool;
  language : string;
  reviewOrigin : string
}.

(** The object literal pushed on [reviews] for one card.  The property
    [reviewDetailedRating] is only written by the older handler. *)
Module Raw.
Record t : Type := {
  reviewId : string;
  name : string;
  stars : Z;
  dateText : string;
  text : option string;
  responseFromOwnerText : option string;
  responseFromOwnerDate : option string;
  likesCount : Z;
  reviewDetailedRating : option (gmap string Z);
  reviewerNumberOfReviews : option Z;
  isLocalGuide : bool
}.

(** The record [r] with its [reviewId] replaced *)
Definition setReviewId (id : string) (r : t) : t :=
  {| reviewId := id;
     name := name r;
     stars := stars r;
     dateText := dateText r;
     text := text r;
     responseFromOwnerText := responseFromOwnerText r;
     responseFromOwnerDate := responseFromOwnerDate r;
     likesCount := likesCount r;
     reviewDetailedRating := reviewDetailedRating r;
     reviewerNumberOfReviews := reviewerNumberOfReviews r;
     isLocalGuide := isLocalGuide r |}.
End Raw.

(** What the handler reads from its surroundings: the time zone of the
    process and the two uses of the wall clock. *)
Record Env : Type := {
  tza : JsDate.TimeZone;
  (** [Date.now()] while the card at position [idx] is read *)
  dateNow : nat -> Z;
  (** [new Date()] in [parseRelativeDate] for the record at position [i]
      of [pageReviews] *)
  newDate : nat -> Z
}.

(* ===================================================================== *)
(** * The scroll loop (same statements in both handlers) *)
(* ===================================================================== *)

Module Scroll.

(** [Math.ceil(a / b)] for integers [a] and [b > 0] *)
Definition ceilDiv (a b : Z) : Z := - ((- a) / b).

(** [const maxScrollAttempts = Math.ceil(maxItems / 10) + 5] *)
Definition maxScrollAttempts (maxItems : Z) : Z := ceilDiv maxItems 10 + 5.

Inductive StopReason : Set := CapReached | NoProgress | IterationLimit.

(** The loop variables *)
Record State : Type := {
  scrollAttempt : nat;
  lastReviewCount : Z;
  noNewReviewsCount : Z
}.

Definition initial : State :=
  {| scrollAttempt := 0; lastReviewCount := 0; noNewReviewsCount := 0 |}.

Inductive Step : Type :=
| Break (r : StopReason) (s : State)
| Next (s : State).

(** One pass through the loop body with [currentCount] measured; [Next]
    is reached after the scroll, the settle wait and [scrollAttempt++]. *)
Definition body (maxItems currentCount : Z) (s : State) : Step :=
  if currentCount >=? maxItems then Break CapReached s
  else if currentCount =? lastReviewCount s then
    let n := noNewReviewsCount s + 1 in
    if n >=? 3
    then Break NoProgress
           {| scrollAttempt := scrollAttempt s;
              lastReviewCount := lastReviewCount s;
              noNewReviewsCount := n |}
    else Next {| scrollAttempt := S (scrollAttempt s);
                 lastReviewCount := currentCount;
                 noNewReviewsCount := n |}
  else Next {| scrollAttempt := S (scrollAttempt s);
               lastReviewCount := currentCount;
               noNewReviewsCount := 0 |}.

(** [for (...; scrollAttempt < maxScrollAttempts; scrollAttempt++)] with
    [remaining] iterations left before the bound; [count i] is the number
    of cards measured once [i] scrolls have been done. *)
Fixpoint loop (maxItems : Z) (count : nat -> Z) (remaining : nat) (s : State)
  : StopReason * State :=
  match remaining with
  | O => (IterationLimit, s)
  | S remaining' =>
      match body maxItems (count (scrollAttempt s)) s with
      | Break r s' => (r, s')
      | Next s' => loop maxItems count remaining' s'
      end
  end.

(** Value of [lastReviewCount] when iteration [i] starts: the count
    measured by the iteration before, 0 for the first. *)
Definition previousCount (count : nat -> Z) (i : nat) : Z :=
  match i with
  | O => 0
  | S j => count j
  end.

(** Measurement [i] finds the count of the measurement before. *)
Definition unchanged (count : nat -> Z) (i : nat) : Prop :=
  count i = previousCount count i.

(** Measurements [k], [k+1] and [k+2] are all unchanged. *)
Definition stallAt (count : nat -> Z) (k : nat) : Prop :=
  unchanged count k /\ unchanged count (k + 1) /\ unchanged count (k + 2).

Definition paginate (maxItems : Z) (count : nat -> Z) : StopReason * State :=
  loop maxItems count (Z.to_nat (maxScrollAttempts maxItems)) initial.

(** Scrolls done when the loop is left: one per completed iteration. *)
Definition scrolls (r : StopReason * State) : nat := scrollAttempt (snd r).

(** Measurements taken: a [break] leaves after measuring. *)
Definition measurements (r : StopReason * State) : nat :=
  match fst r with
  | IterationLimit => scrollAttempt (snd r)
  | _ => S (scrollAttempt (snd r))
  end.

End Scroll.

(* ===================================================================== *)
(** * Accumulation into [collectedReviews] and [seenIds] *)
(* ===================================================================== *)

(** The two objects created per start URL and shared by every run of the
    request handler for that URL. *)
Record Session : Type := {
  collectedReviews : list GoogleReview;
  seenIds : gset string
}.

Definition emptySession : Session :=
  {| collectedReviews := []; seenIds := ∅ |}.

(** How a statement sequence ends: normally, or by the RangeError of
    [toISOString] leaving the handler. *)
Inductive Completion : Set := Normal | Thrown.

Module Accumulator.

Inductive Offer : Type :=
| CapBreak                   (* [break]: the cap is reached *)
| Duplicate                  (* [continue]: identity already seen *)
| Accepted (st : Session)    (* pushed *)
| Failed (st : Session).     (* identity recorded, then the throw *)

Section Loop.
Variable env : Env.
Variable maxItems : Z.
(** the value stored in [reviewDetailedRating] *)
Variable detailed : Raw.t -> option (gmap string Z).

(** The object literal given to [collectedReviews.push] *)
Definition normalize (rid : string) (rev : Raw.t) (publishedAt : string)
  : GoogleReview :=
  {| reviewId := rid;
     name := match Raw.name rev with
             | EmptyString => "Anonymous"
             | n => n
             end;
     stars := Raw.stars rev;
     publishedAtDate := publishedAt;
     text := match Raw.text rev with
             | Some EmptyString => None
             | t => t
             end;
     reviewUrl := None;
     responseFromOwnerText :=
       match Raw.responseFromOwnerText rev with
       | Some EmptyString => None
       | t => t
       end;
     responseFromOwnerDate :=
       match Raw.responseFromOwnerDate rev with
       | Some EmptyString => None
       | t => t
       end;
     likesCount := Raw.likesCount rev;
     reviewDetailedRating := detailed rev;
     reviewerNumberOfReviews := Raw.reviewerNumberOfReviews rev;
     isLocalGuide := Raw.isLocalGuide rev;
     language := "en";
     reviewOrigin := "Google" |}.

(** One iteration of [for (const rev of pageReviews)], for the record
    at position [i]. *)
Definition offer (i : nat) (rev : Raw.t) (st : Session) : Offer :=
  if Z.of_nat (length (collectedReviews st)) >=? maxItems then CapBreak
  else
    let rid := Raw.reviewId rev in
    if bool_decide (rid ∈ seenIds st) then Duplicate
    else
      let seen := {[ rid ]} ∪ seenIds st in
      match Utils.parseRelativeDate (tza env) (newDate env i) (Raw.dateText rev) with
      | None =>
          Failed {| collectedReviews := collectedReviews st; seenIds := seen |}
      | Some publishedAt =>
          Accepted {| collectedReviews :=
                        collectedReviews st ++ [normalize rid rev publishedAt];
                      seenIds := seen |}
      end.

Fixpoint accumulateFrom (i : nat) (pageReviews : list Raw.t) (st : Session)
  : Session * Completion :=
  match pageReviews with
  | [] => (st, Normal)
  | rev :: rest =>
      match offer i rev st with
      | CapBreak => (st, Normal)
      | Duplicate => accumulateFrom (S i) rest st
      | Accepted st' => accumulateFrom (S i) rest st'
      | Failed st' => (st', Thrown)
      end
  end.

Definition accumulate (pageReviews : list Raw.t) (st : Session)
  : Session * Completion :=
  accumulateFrom 0 pageReviews st.
End Loop.

End Accumulator.

(* ===================================================================== *)
(** * main.ts: the request handler *)
(* ===================================================================== *)

Module Main.

(** The owner-response block [div.CDe7pd] as the extractor reads it *)
Record Response : Type := {
  (** text of the first [div.wiI7pd, span.wiI7pd] inside it *)
  respText : option string;
  (** text of the first [span.DZSIDd] inside it *)
  respDate : option string
}.

(** A review card as the extractor reads it: the result of each query
    made on the card.  An element found by [querySelector] is given by
    its [textContent] (or by the attribute read from it), [None] when
    the query returns [null]. *)
Record Card : Type := {
  (** [card.getAttribute("data-review-id")] *)
  dataReviewId : option string;
  (** [aria-label] of the first [[role="img"][aria-label*="star" i]] *)
  starLabel : option string;
  (** [div.d4r55] *)
  nameDiv : option string;
  (** [a[href*="/contrib/"] div] *)
  contribDiv : option string;
  (** [button[data-review-id] div] *)
  buttonDiv : option string;
  (** [a] *)
  firstLink : option string;
  (** [span.rsqaWe] *)
  dateSpan : option string;
  (** [querySelectorAll("span")], in document order; also the elements
      of [querySelectorAll('div.RfnDt span, span')], which selects
      every [span] once *)
  spans : list string;
  (** [span.wiI7pd] *)
  textSpan : option string;
  (** [div.MyEned span] *)
  myEnedSpan : option string;
  (** [div.CDe7pd] *)
  responseContainer : option Response;
  (** [span.pkWtMe] *)
  likesSpan : option string
}.

(** [(day|week|month|year)] *)
Definition dateUnits : list Utils.Unit :=
  [Utils.day; Utils.week; Utils.month; Utils.year].

(** [/\d+\s+(day|week|month|year)s?\s+ago/i.test(t) ||
     /^a[n]?\s+(day|week|month|year)\s+ago$/i.test(t)] *)
Definition looksLikeDate (t : string) : bool :=
  let f := Js.foldCase t in
  match Utils.pluralMatch dateUnits f, Utils.singleMatch dateUnits f with
  | None, None => false
  | _, _ => true
  end.

(** [/(\d+)\s+review/i] tried at the start of [s] *)
Definition reviewCountAt (s : string) : option string :=
  match Js.span Js.isDigit s with
  | (EmptyString, _) => None
  | (ds, r1) =>
      match Js.spaces1 r1 with
      | None => None
      | Some r2 =>
          match Js.stripPrefix "review" (Js.foldCase r2) with
          | Some _ => Some ds
          | None => None
          end
      end
  end.

(** [t.match(/(\d+)\s+review/i)], first capture *)
Fixpoint reviewCountMatch (s : string) : option string :=
  match reviewCountAt s with
  | Some ds => Some ds
  | None =>
      match s with
      | EmptyString => None
      | String _ r => reviewCountMatch r
      end
  end.

(** === Review ID === *)
Definition resolveId (idx : nat) (now : Z) (card : Card) : string :=
  match dataReviewId card with
  | Some (String c r) => String c r
  | _ => "g-" +:+ Js.numberToString (Z.of_nat idx) +:+ "-" +:+ Js.numberToString now
  end.

(** === Star rating === *)
Definition resolveStars (card : Card) : Z :=
  match starLabel card with
  | Some label =>
      match Js.matchDigits label with
      | Some m1 => Js.parseInt m1
      | None => 0
      end
  | None => 0
  end.

(** === Reviewer name ===, the dedicated elements *)
Definition nameFromElement (card : Card) : string :=
  match Js.orElse (nameDiv card) (Js.orElse (contribDiv card) (buttonDiv card)) with
  | Some content =>
      let n := Js.trim content in
      if (Js.length n >? 0) && (Js.length n <? 80) then n else "Anonymous"
  | None => "Anonymous"
  end.

(** === Reviewer name ===, with the fallback on the first link *)
Definition resolveName (card : Card) : string :=
  let name := nameFromElement card in
  if String.eqb name "Anonymous" then
    match firstLink card with
    | Some content =>
        let n := Js.trim content in
        if (Js.length n >? 1) && (Js.length n <? 60) then n else name
    | None => name
    end
  else name.

(** === Date === *)
Definition resolveDateText (card : Card) : string :=
  let dateText :=
    match dateSpan card with
    | Some content => Js.trim content
    | None => ""
    end in
  match dateText with
  | EmptyString =>
      match List.find looksLikeDate (List.map Js.trim (spans card)) with
      | Some t => t
      | None => ""
      end
  | _ => dateText
  end.

(** The loop of the text fallback: the first of the longest trimmed
    span texts above 30 characters. *)
Fixpoint longestSpan (spans : list string) (text : option string) (maxLen : Z)
  : option string :=
  match spans with
  | [] => text
  | s :: rest =>
      let t := Js.trim s in
      if (Js.length t >? maxLen) && (Js.length t >? 30)
      then longestSpan rest (Some t) (Js.length t)
      else longestSpan rest text maxLen
  end.

(** === Review text === *)
Definition resolveText (card : Card) : option string :=
  let text :=
    match Js.orElse (textSpan card) (myEnedSpan card) with
    | Some content => Js.nonEmpty (Js.trim content)
    | None => None
    end in
  match text with
  | None => longestSpan (spans card) None 0
  | Some _ => text
  end.

(** === Owner response === *)
Definition resolveResponseText (card : Card) : option string :=
  match responseContainer card with
  | Some rc =>
      match respText rc with
      | Some content => Js.nonEmpty (Js.trim content)
      | None => None
      end
  | None => None
  end.

Definition resolveResponseDate (card : Card) : option string :=
  match responseContainer card with
  | Some rc =>
      match respDate rc with
      | Some content => Js.nonEmpty (Js.trim content)
      | None => None
      end
  | None => None
  end.

(** === Likes === *)
Definition resolveLikes (card : Card) : Z :=
  match likesSpan card with
  | Some content =>
      match Js.matchDigits content with
      | Some m1 => Js.parseInt m1
      | None => 0
      end
  | None => 0
  end.

(** === Reviewer info ===: the loop over [infoEls] *)
Fixpoint reviewerInfo (infoEls : list string) (count : option Z) (guide : bool)
  : option Z * bool :=
  match infoEls with
  | [] => (count, guide)
  | el :: rest =>
      let t := Js.trim el in
      let guide' := if Js.includes "Local Guide" t then true else guide in
      let count' :=
        match reviewCountMatch t with
        | Some m1 => Some (Js.parseInt m1)
        | None => count
        end in
      reviewerInfo rest count' guide'
  end.

(** The callback of [cards.forEach]: the record pushed on [reviews], if
    one is pushed.  [now] is the reading of [Date.now()]. *)
Definition extractCard (idx : nat) (now : Z) (card : Card) : option Raw.t :=
  let reviewId := resolveId idx now card in
  let stars := resolveStars card in
  let name := resolveName card in
  let dateText := resolveDateText card in
  let text := resolveText card in
  let responseFromOwnerText := resolveResponseText card in
  let responseFromOwnerDate := resolveResponseDate card in
  let likesCount := resolveLikes card in
  let '(reviewerNumberOfReviews, isLocalGuide) :=
    reviewerInfo (spans card) None false in
  if (stars >=? 1) && (stars <=? 5) then
    Some {| Raw.reviewId := reviewId;
            Raw.name := name;
            Raw.stars := stars;
            Raw.dateText := dateText;
            Raw.text := text;
            Raw.responseFromOwnerText := responseFromOwnerText;
            Raw.responseFromOwnerDate := responseFromOwnerDate;
            Raw.likesCount := likesCount;
            Raw.reviewDetailedRating := None;
            Raw.reviewerNumberOfReviews := reviewerNumberOfReviews;
            Raw.isLocalGuide := isLocalGuide |}
  else None.

(** [cards.forEach((card, idx) => ...)] from position [idx] on *)
Fixpoint extractFrom (env : Env) (idx : nat) (cards : list Card) : list Raw.t :=
  match cards with
  | [] => []
  | card :: rest =>
      match extractCard idx (dateNow env idx) card with
      | Some r => r :: extractFrom env (S idx) rest
      | None => extractFrom env (S idx) rest
      end
  end.

(** The [page.evaluate] that returns [pageReviews] *)
Definition extractAll (env : Env) (cards : list Card) : list Raw.t :=
  extractFrom env 0 cards.

(** The page once on its reviews tab: [doc n] lists the elements that
    match [cardSelector] when [n] scrolls have been done, in document
    order and as they read after the expand buttons were clicked.  The
    page is taken to change in answer to scrolls only. *)
Definition Document : Type := nat -> list Card.

Definition cardCount (doc : Document) (n : nat) : Z := Z.of_nat (length (doc n)).

Definition accumulate (env : Env) (maxItems : Z) :=
  Accumulator.accumulate env maxItems (fun _ => None).

(** [requestHandler], from the scroll loop on.  The steps before it
    (navigation, consent dialog, reviews tab, sort order, choice of
    [cardSelector]) touch neither [collectedReviews] nor [seenIds]. *)
Definition requestHandler (env : Env) (maxItems : Z) (doc : Document)
    (st : Session) : Session * Completion :=
  if Z.of_nat (length (collectedReviews st)) >=? maxItems then (st, Normal)
  else
    let stop := Scroll.paginate maxItems (cardCount doc) in
    let pageReviews := extractAll env (doc (Scroll.scrolls stop)) in
    accumulate env maxItems pageReviews st.

(** The handler run once per attempt of the request (the crawler retries
    a request whose handler threw), on the objects of one start URL. *)
Fixpoint session (maxItems : Z) (runs : list (Env * Document)) (st : Session)
  : Session :=
  match runs with
  | [] => st
  | (env, doc) :: rest => session maxItems rest (fst (requestHandler env maxItems doc st))
  end.

End Main.

(* ===================================================================== *)
(** * The older request handler *)
(* ===================================================================== *)

Module Legacy.

Record Response : Type := {
  (** text of the first [div.wiI7pd] inside the block *)
  respText : option string;
  (** text of the first [span.DZSIDd] inside the block *)
  respDate : option string
}.

(** One row [div.k1MNkf, div[class*="PBBkOb"]] of the detailed ratings *)
Record RatingRow : Type := {
  (** text of the row's first [span], if it has one *)
  rowLabel : option string;
  (** the row's first [span[role="img"]], if any, given by its
      [aria-label] attribute ([None] inside: no such attribute) *)
  rowRating : option (option string)
}.

(** A card [div[data-review-id]] as this extractor reads it *)
Record Card : Type := {
  (** [card.getAttribute("data-review-id")]; the selector guarantees the
      attribute, not that it is non-empty *)
  dataReviewId : string;
  (** [aria-label] of the first [span[role="img"][aria-label*="star"]] *)
  starLabel : option string;
  (** number of [img[src*="star_yellow"], span.hCCjke.google-symbols] *)
  filledStars : nat;
  (** [div.d4r55, button.WEBjve div.d4r55] *)
  nameFirst : option string;
  (** [a[href*="/contrib/"] div, button[data-review-id] div.d4r55] *)
  nameSecond : option string;
  (** [span.rsqaWe] *)
  dateSpan : option string;
  (** [querySelectorAll("span")] *)
  spans : list string;
  (** [span.wiI7pd] *)
  textSpan : option string;
  (** [div.MyEned span] *)
  myEnedSpan : option string;
  (** [div.CDe7pd] *)
  responseContainer : option Response;
  (** [span.pkWtMe] *)
  likesSpan : option string;
  ratingRows : list RatingRow;
  (** [querySelectorAll('div.RfnDt span')] *)
  reviewerInfoEls : list string
}.

(** === Star rating ===, with the count of filled stars as fallback *)
Definition resolveStars (card : Card) : Z :=
  let stars :=
    match starLabel card with
    | Some label =>
        match Js.matchDigits label with
        | Some m1 => Js.parseInt m1
        | None => 0
        end
    | None => 0
    end in
  if stars =? 0 then
    let n := Z.of_nat (filledStars card) in
    if (n >=? 1) && (n <=? 5) then n else stars
  else stars.

(** === Reviewer name === *)
Definition resolveName (card : Card) : string :=
  match Js.orElse (nameFirst card) (nameSecond card) with
  | Some content =>
      let n := Js.trim content in
      if (Js.length n >? 0) && (Js.length n <? 80) then n else "Anonymous"
  | None => "Anonymous"
  end.

(** === Date ===, the same two expressions as in main.ts *)
Definition resolveDateText (card : Card) : string :=
  let dateText :=
    match dateSpan card with
    | Some content => Js.trim content
    | None => ""
    end in
  match dateText with
  | EmptyString =>
      match List.find Main.looksLikeDate (List.map Js.trim (spans card)) with
      | Some t => t
      | None => ""
      end
  | _ => dateText
  end.

(** === Review text ===, without fallback *)
Definition resolveText (card : Card) : option string :=
  match Js.orElse (textSpan card) (myEnedSpan card) with
  | Some content => Js.nonEmpty (Js.trim content)
  | None => None
  end.

Definition resolveResponseText (card : Card) : option string :=
  match responseContainer card with
  | Some rc =>
      match respText rc with
      | Some content => Js.nonEmpty (Js.trim content)
      | None => None
      end
  | None => None
  end.

Definition resolveResponseDate (card : Card) : option string :=
  match responseContainer card with
  | Some rc =>
      match respDate rc with
      | Some content => Js.nonEmpty (Js.trim content)
      | None => None
      end
  | None => None
  end.

Definition resolveLikes (card : Card) : Z :=
  match likesSpan card with
  | Some content =>
      match Js.matchDigits content with
      | Some m1 => Js.parseInt m1
      | None => 0
      end
  | None => 0
  end.

(** The loop over [ratingRows], writing [reviewDetailedRating[label]] *)
Fixpoint detailedRows (rows : list RatingRow) (acc : gmap string Z)
  : gmap string Z :=
  match rows with
  | [] => acc
  | row :: rest =>
      let label :=
        match rowLabel row with
        | Some content => Js.trim content
        | None => ""
        end in
      let acc' :=
        match rowRating row with
        | Some (Some aria) =>
            match Js.matchDigits aria, label with
            | Some m1, String _ _ => <[ label := Js.parseInt m1 ]> acc
            | _, _ => acc
            end
        | _ => acc
        end in
      detailedRows rest acc'
  end.

(** === Detailed ratings === *)
Definition resolveDetailedRating (card : Card) : option (gmap string Z) :=
  match ratingRows card with
  | [] => None
  | rows =>
      let m := detailedRows rows ∅ in
      if bool_decide (m = ∅) then None else Some m
  end.

(** [/(\d+)\s+review/] tried at the start of [s] *)
Definition reviewCountAt (s : string) : option string :=
  match Js.span Js.isDigit s with
  | (EmptyString, _) => None
  | (ds, r1) =>
      match Js.spaces1 r1 with
      | None => None
      | Some r2 =>
          match Js.stripPrefix "review" r2 with
          | Some _ => Some ds
          | None => None
          end
      end
  end.

Fixpoint reviewCountMatch (s : string) : option string :=
  match reviewCountAt s with
  | Some ds => Some ds
  | None =>
      match s with
      | EmptyString => None
      | String _ r => reviewCountMatch r
      end
  end.

(** === Reviewer info === *)
Fixpoint reviewerInfo (infoEls : list string) (count : option Z) (guide : bool)
  : option Z * bool :=
  match infoEls with
  | [] => (count, guide)
  | el :: rest =>
      let t := Js.trim el in
      let guide' := if Js.includes "Local Guide" t then true else guide in
      let count' :=
        match reviewCountMatch t with
        | Some m1 => Some (Js.parseInt m1)
        | None => count
        end in
      reviewerInfo rest count' guide'
  end.

(** The callback of [cards.forEach] *)
Definition extractCard (card : Card) : option Raw.t :=
  let reviewId := dataReviewId card in
  match reviewId with
  | EmptyString => None                       (* [if (!reviewId) return;] *)
  | _ =>
      let stars := resolveStars card in
      let '(reviewerNumberOfReviews, isLocalGuide) :=
        reviewerInfo (reviewerInfoEls card) None false in
      if (stars >=? 1) && (stars <=? 5) then
        Some {| Raw.reviewId := reviewId;
                Raw.name := resolveName card;
                Raw.stars := stars;
                Raw.dateText := resolveDateText card;
                Raw.text := resolveText card;
                Raw.responseFromOwnerText := resolveResponseText card;
                Raw.responseFromOwnerDate := resolveResponseDate card;
                Raw.likesCount := resolveLikes card;
                Raw.reviewDetailedRating := resolveDetailedRating card;
                Raw.reviewerNumberOfReviews := reviewerNumberOfReviews;
                Raw.isLocalGuide := isLocalGuide |}
      else None
  end.

Definition extractAll (cards : list Card) : list Raw.t :=
  omap extractCard cards.

(** The page once on its reviews tab *)
Record Document : Type := {
  (** a scrollable container or the main panel was found *)
  panelFound : bool;
  (** number of [div[data-review-id], div[jsaction*="review"]] when [n]
      scrolls have been done *)
  measured : nat -> Z;
  (** the [div[data-review-id]] elements when [n] scrolls have been done *)
  cards : nat -> list Card
}.

Definition accumulate (env : Env) (maxItems : Z) :=
  Accumulator.accumulate env maxItems Raw.reviewDetailedRating.

Definition requestHandler (env : Env) (maxItems : Z) (doc : Document)
    (st : Session) : Session * Completion :=
  if Z.of_nat (length (collectedReviews st)) >=? maxItems then (st, Normal)
  else if negb (panelFound doc) then (st, Normal)
  else
    let stop := Scroll.paginate maxItems (measured doc) in
    let pageReviews := extractAll (cards doc (Scroll.scrolls stop)) in
    accumulate env maxItems pageReviews st.

Fixpoint session (maxItems : Z) (runs : list (Env * Document)) (st : Session)
  : Session :=
  match runs with
  | [] => st
  | (env, doc) :: rest => session maxItems rest (fst (requestHandler env maxItems doc st))
  end.

End Legacy.

(* ===================================================================== *)
(** * Properties of records and sessions *)
(* ===================================================================== *)

(** The collection holds at most [maxItems] reviews. *)
Definition withinCap (maxItems : Z) (st : Session) : Prop :=
  Z.of_nat (length (collectedReviews st)) <= maxItems.

(** No two collected reviews have the same [reviewId]. *)
Definition distinctIds (st : Session) : Prop :=
  NoDup (reviewId <$> collectedReviews st).

(** The identity of every collected review is in [seenIds]. *)
Definition idsSeen (st : Session) : Prop :=
  forall g, g ∈ collectedReviews st -> reviewId g ∈ seenIds st.

Definition ratedRaw (r : Raw.t) : Prop := 1 <= Raw.stars r <= 5.

Definition rated (g : GoogleReview) : Prop := 1 <= stars g <= 5.

(** The three fields written as constants by the handler *)
Definition constantFields (g : GoogleReview) : Prop :=
  reviewUrl g = None /\ language g = "en" /\ reviewOrigin g = "Google".

(** A dedicated author-name element of main.ts is present and its
    trimmed text passes [n.length > 0 && n.length < 80]. *)
Definition nameElementQualifies (card : Main.Card) : Prop :=
  exists content,
    Js.orElse (Main.nameDiv card)
      (Js.orElse (Main.contribDiv card) (Main.buttonDiv card)) = Some content
    /\ 0 < Js.length (Js.trim content) < 80.

(** The card has a link and its trimmed text passes
    [n.length > 1 && n.length < 60]. *)
Definition firstLinkQualifies (card : Main.Card) : Prop :=
  exists content,
    Main.firstLink card = Some content
    /\ 1 < Js.length (Js.trim content) < 60.

Definition sound (st : Session) : Prop :=
  distinctIds st /\ idsSeen st
  /\ Forall rated (collectedReviews st)
  /\ Forall constantFields (collectedReviews st).

(* ===================================================================== *)
(** * Sample inputs *)
(* ===================================================================== *)

Definition sampleEnv : Env :=
  {| tza := JsDate.utcZone;
     dateNow := fun idx => 1700000000000 + Z.of_nat idx;
     newDate := fun i => 1700000005000 + Z.of_nat i |}.

(** A main.ts card with nothing but the given identity, rating label and
    first link *)
Definition plainCard (id label link : option string) : Main.Card :=
  {| Main.dataReviewId := id;
     Main.starLabel := label;
     Main.nameDiv := None; Main.contribDiv := None; Main.buttonDiv := None;
     Main.firstLink := link;
     Main.dateSpan := None;
     Main.spans := [];
     Main.textSpan := None; Main.myEnedSpan := None;
     Main.responseContainer := None;
     Main.likesSpan := None |}.

(** A 60-character link text, and its first 59 characters *)
Definition linkText60 : string :=
  "Asociacion de Vecinos y Comerciantes del Barrio de la Latina".

Definition linkText59 : string :=
  "Asociacion de Vecinos y Comerciantes del Barrio de la Latin".

(** A card of the older handler with the given identity, rating label
    and number of filled stars *)
Definition legacyCard (id : string) (label : option string) (filled : nat)
  : Legacy.Card :=
  {| Legacy.dataReviewId := id;
     Legacy.starLabel := label;
     Legacy.filledStars := filled;
     Legacy.nameFirst := None; Legacy.nameSecond := None;
     Legacy.dateSpan := None;
     Legacy.spans := [];
     Legacy.textSpan := None; Legacy.myEnedSpan := None;
     Legacy.responseContainer := None;
     Legacy.likesSpan := None;
     Legacy.ratingRows := [];
     Legacy.reviewerInfoEls := [] |}.

(** A page that shows the same three cards whatever is scrolled, the
    second one twice *)
Definition threeCards : Main.Document :=
  fun _ => [plainCard (Some "r-1") (Some "5 stars") None;
            plainCard (Some "r-2") (Some "4 stars") None;
            plainCard (Some "r-2") (Some "4 stars") None;
            plainCard (Some "r-3") (Some "1 star") None].

(** A page stuck at eight cards *)
Definition eightCards : Main.Document :=
  fun _ => List.map (fun i => plainCard (Some ("r-" +:+ Js.numberToString i))
                                (Some "3 stars") None)
             [1; 2; 3; 4; 5; 6; 7; 8].

(* ===================================================================== *)
(** * Definitions for the further properties *)
(* ===================================================================== *)

(** The identities of [ids] that are not in [seen], each at its first
    occurrence, in the order of [ids]. *)
Fixpoint firstSeen (seen : gset string) (ids : list string) : list string :=
  match ids with
  | [] => []
  | x :: rest =>
      if bool_decide (x ∈ seen) then firstSeen seen rest
      else x :: firstSeen ({[ x ]} ∪ seen) rest
  end.

(** Places left in the collection *)
Definition room (maxItems : Z) (st : Session) : nat :=
  Z.to_nat (maxItems - Z.of_nat (length (collectedReviews st))).

(** The identity [rid] is marked as seen without being collected. *)
Definition lost (rid : string) (st : Session) : Prop :=
  rid ∈ seenIds st /\ rid ∉ (reviewId <$> collectedReviews st).

(** A record whose date text cannot be rendered: the year is out of the
    range of Date. *)
Definition farPastRecord : Raw.t :=
  {| Raw.reviewId := "r-9";
     Raw.name := "Anonymous";
     Raw.stars := 4;
     Raw.dateText := "999999 years ago";
     Raw.text := None;
     Raw.responseFromOwnerText := None;
     Raw.responseFromOwnerDate := None;
     Raw.likesCount := 0;
     Raw.reviewDetailedRating := None;
     Raw.reviewerNumberOfReviews := None;
     Raw.isLocalGuide := false |}.

(** A zone with the same offset [off] (in ms) at all times *)
Definition fixedZone (off : Z) : JsDate.TimeZone := fun _ _ => off.

(** Length in ms of the units that are subtracted as fixed durations *)
Definition unitDuration (u : Utils.Unit) : option Z :=
  match u with
  | Utils.second => Some JsDate.msPerSecond
  | Utils.minute => Some JsDate.msPerMinute
  | Utils.hour => Some JsDate.msPerHour
  | Utils.day => Some JsDate.msPerDay
  | Utils.week => Some (7 * JsDate.msPerDay)
  | Utils.month | Utils.year => None
  end.

(** One of the two regular expressions of [parseRelativeDate] matches the
    lower-cased, trimmed [text]. *)
Definition recognised (text : string) : Prop :=
  Utils.pluralMatch Utils.allUnits (Js.trim (Js.toLowerCase text)) <> None
  \/ Utils.singleMatch Utils.allUnits (Js.trim (Js.toLowerCase text)) <> None.

(** A character other than a decimal digit *)
Definition notDigit (c : ascii) : bool := negb (Js.isDigit c).

(** The fields of a record as the extractors fill them: an identity and
    a name of 1 to 79 characters, optional texts that are absent rather
    than empty, counts that are not negative, and detailed ratings that
    are absent rather than empty. *)
Definition wellFormedRaw (r : Raw.t) : Prop :=
  Raw.reviewId r <> ""
  /\ 0 < Js.length (Raw.name r) < 80
  /\ Raw.text r <> Some ""
  /\ Raw.responseFromOwnerText r <> Some ""
  /\ Raw.responseFromOwnerDate r <> Some ""
  /\ 0 <= Raw.likesCount r
  /\ (forall n, Raw.reviewerNumberOfReviews r = Some n -> 0 <= n)
  /\ Raw.reviewDetailedRating r <> Some ∅.

(** The same for a collected review *)
Definition wellFormed (g : GoogleReview) : Prop :=
  reviewId g <> ""
  /\ 0 < Js.length (name g) < 80
  /\ text g <> Some ""
  /\ responseFromOwnerText g <> Some ""
  /\ responseFromOwnerDate g <> Some ""
  /\ 0 <= likesCount g
  /\ (forall n, reviewerNumberOfReviews g = Some n -> 0 <= n)
  /\ reviewDetailedRating g <> Some ∅.

(** Nothing is left for the page to add: the collection is full, or every
    identity of the page is marked as seen. *)
Definition exhausted (maxItems : Z) (pageReviews : list Raw.t) (st : Session) : Prop :=
  maxItems <= Z.of_nat (length (collectedReviews st))
  \/ forall r, r ∈ pageReviews -> Raw.reviewId r ∈ seenIds st.

(** A main.ts card with a rating of five stars and the given spans, and
    nothing else *)
Definition spansCard (spans : list string) : Main.Card :=
  {| Main.dataReviewId := Some "r-1";
     Main.starLabel := Some "5 stars";
     Main.nameDiv := None; Main.contribDiv := None; Main.buttonDiv := None;
     Main.firstLink := None;
     Main.dateSpan := None;
     Main.spans := spans;
     Main.textSpan := None; Main.myEnedSpan := None;
     Main.responseContainer := None;
     Main.likesSpan := None |}.

Definition paellaCard : Main.Card :=
  spansCard ["Local Guide";
             "  The paella was cooked to order and well worth it   ";
             "We waited forty minutes for a table on a Tuesday";
             "2 weeks ago"].




(* ===================================================================== *)
(** * Runs on concrete inputs *)
(* ===================================================================== *)

Example trim_ex : Js.trim "  2 Weeks ago  " = "2 Weeks ago".
Proof. reflexivity. Qed.

Example matchDigits_ex : Js.matchDigits "Rated 45 of 5 stars" = Some "45".
Proof. reflexivity. Qed.

Example numberToString_ex :
  Js.numberToString 1700000000123 = "1700000000123" /\ Js.numberToString 0 = "0"
  /\ Js.numberToString (-7) = "-7".
Proof. repeat split; reflexivity. Qed.

Example iso_epoch : JsDate.isoOfTime 0 = "1970-01-01T00:00:00.000Z".
Proof. reflexivity. Qed.

Example iso_2024_leap_day :
  JsDate.isoOfTime 1709210096789 = "2024-02-29T12:34:56.789Z".
Proof. vm_compute. reflexivity. Qed.

Example iso_before_epoch :
  JsDate.isoOfTime (-1) = "1969-12-31T23:59:59.999Z".
Proof. vm_compute. reflexivity. Qed.

Example setMonth_overflow :
  (* 30 April 2023 minus two months is "30 February", i.e. 2 March *)
  JsDate.toISOString (JsDate.setMonth JsDate.utcZone 1682856000000
                        (JsDate.getMonth JsDate.utcZone 1682856000000 - 2))
  = Some "2023-03-02T12:00:00.000Z".
Proof. vm_compute. reflexivity. Qed.

Example parse_plural :
  Utils.parseRelativeDate JsDate.utcZone 1709210096789 "  3 Days ago "
  = Some "2024-02-26T12:34:56.789Z".
Proof. vm_compute. reflexivity. Qed.

Example parse_inner :
  Utils.parseRelativeDate JsDate.utcZone 1709210096789 "Edited 2 weeks ago on Google"
  = Some "2024-02-15T12:34:56.789Z".
Proof. vm_compute. reflexivity. Qed.

Example parse_single :
  Utils.parseRelativeDate JsDate.utcZone 1709210096789 "a year ago"
  = Some "2023-03-01T12:34:56.789Z".
Proof. vm_compute. reflexivity. Qed.

Example parse_hours_wrap :
  Utils.parseRelativeDate JsDate.utcZone 1709210096789 "14 hours ago"
  = Some "2024-02-28T22:34:56.789Z".
Proof. vm_compute. reflexivity. Qed.

Example parse_out_of_range :
  Utils.parseRelativeDate JsDate.utcZone 1709210096789 "999999 years ago" = None.
Proof. vm_compute. reflexivity. Qed.

Example paginate_stall :
  (* 8 cards from the start, never more: four measurements, three scrolls *)
  Scroll.paginate 100 (fun _ => 8)
  = (Scroll.NoProgress,
     {| Scroll.scrollAttempt := 3; Scroll.lastReviewCount := 8;
        Scroll.noNewReviewsCount := 3 |}).
Proof. reflexivity. Qed.

Example paginate_limit :
  (* one more card after every scroll, cap 20: 7 iterations, then the bound *)
  Scroll.paginate 20 (fun i => Z.of_nat i + 1)
  = (Scroll.IterationLimit,
     {| Scroll.scrollAttempt := 7; Scroll.lastReviewCount := 7;
        Scroll.noNewReviewsCount := 0 |}).
Proof. reflexivity. Qed.

Example session_capped :
  (* cap 2: the third distinct review is not taken *)
  reviewId <$> collectedReviews
    (Main.session 2 [(sampleEnv, threeCards)] emptySession) = ["r-1"; "r-2"].
Proof. vm_compute. reflexivity. Qed.

Example session_deduplicated :
  (* two runs over the same page, cap 10: three reviews *)
  reviewId <$> collectedReviews
    (Main.session 10 [(sampleEnv, threeCards); (sampleEnv, threeCards)] emptySession)
  = ["r-1"; "r-2"; "r-3"].
Proof. vm_compute. reflexivity. Qed.

Example session_record :
  head (collectedReviews (Main.session 10 [(sampleEnv, threeCards)] emptySession))
  = Some {| reviewId := "r-1"; name := "Anonymous"; stars := 5;
            publishedAtDate := "2023-11-14T22:13:25.000Z";
            text := None; reviewUrl := None;
            responseFromOwnerText := None; responseFromOwnerDate := None;
            likesCount := 0; reviewDetailedRating := None;
            reviewerNumberOfReviews := None; isLocalGuide := false;
            language := "en"; reviewOrigin := "Google" |}.
Proof. vm_compute. reflexivity. Qed.

Example spec_scenario_card :
  Main.extractCard 0 1700000000000
    {| Main.dataReviewId := Some "ChZDSUhNMG9nS0VJQ0FnSUQ";
       Main.starLabel := Some "5 stars";
       Main.nameDiv := None; Main.contribDiv := None; Main.buttonDiv := None;
       Main.firstLink := Some "Jane D.";
       Main.dateSpan := Some "2 weeks ago";
       Main.spans := ["2 weeks ago"; "Great tacos, friendly staff, fair prices."; "12"];
       Main.textSpan := Some "Great tacos, friendly staff, fair prices.";
       Main.myEnedSpan := None;
       Main.responseContainer := None;
       Main.likesSpan := Some "12" |}
  = Some {| Raw.reviewId := "ChZDSUhNMG9nS0VJQ0FnSUQ";
            Raw.name := "Jane D.";
            Raw.stars := 5;
            Raw.dateText := "2 weeks ago";
            Raw.text := Some "Great tacos, friendly staff, fair prices.";
            Raw.responseFromOwnerText := None;
            Raw.responseFromOwnerDate := None;
            Raw.likesCount := 12;
            Raw.reviewDetailedRating := None;
            Raw.reviewerNumberOfReviews := None;
            Raw.isLocalGuide := false |}.
Proof. reflexivity. Qed.

(* ===================================================================== *)
(** * Calendar arithmetic *)
(* ===================================================================== *)

Section Calendar.
Import JsDate.

Lemma DayFromYear_succ (y : Z) :
  DayFromYear (y + 1) = DayFromYear y + DaysInYear y.
Proof.
  unfold DayFromYear, DaysInYear, isLeapYear.
  destruct (y mod 4 =? 0) eqn:E4; destruct (y mod 100 =? 0) eqn:E100;
    destruct (y mod 400 =? 0) eqn:E400; simpl;
    rewrite ?Z.eqb_eq, ?Z.eqb_neq in *;
    Z.div_mod_to_equations; lia.
Qed.

Lemma YearFromDay_spec (d : Z) :
  DayFromYear (YearFromDay d) <= d < DayFromYear (YearFromDay d + 1).
Proof.
  unfold YearFromDay.
  set (q := 1970 + 400 * d / 146097).
  assert (Hlo : DayFromYear (q - 1) <= d).
  { unfold DayFromYear, q. Z.div_mod_to_equations. lia. }
  assert (Hhi : d < DayFromYear (q + 2)).
  { unfold DayFromYear, q. Z.div_mod_to_equations. lia. }
  destruct (d <? DayFromYear q) eqn:E1.
  - apply Z.ltb_lt in E1. replace (q - 1 + 1) with q by lia. lia.
  - apply Z.ltb_ge in E1.
    destruct (DayFromYear (q + 1) <=? d) eqn:E2.
    + apply Z.leb_le in E2. replace (q + 1 + 1) with (q + 2) by lia. lia.
    + apply Z.leb_gt in E2. lia.
Qed.

Lemma DaysInYear_leap (y : Z) :
  DaysInYear y = 365 + (if isLeapYear y then 1 else 0).
Proof. unfold DaysInYear. destruct (isLeapYear y); reflexivity. Qed.

Lemma InLeapYear_range (t : Z) : InLeapYear t = 0 \/ InLeapYear t = 1.
Proof. unfold InLeapYear. destruct (isLeapYear _); auto. Qed.

Lemma DayWithinYear_range (t : Z) :
  0 <= DayWithinYear t < 365 + InLeapYear t.
Proof.
  unfold DayWithinYear, InLeapYear, YearFromTime.
  pose proof (YearFromDay_spec (Day t)) as H.
  rewrite DayFromYear_succ, DaysInYear_leap in H. lia.
Qed.

(** Evaluates the literal month arguments of [monthStart]. *)
Ltac eval_monthStart :=
  repeat match goal with
    | |- context [ monthStart _ (?a + ?b) ] =>
        let v := eval vm_compute in (a + b) in progress change (a + b) with v
    | |- context [ monthStart _ (?a - ?b) ] =>
        let v := eval vm_compute in (a - b) in progress change (a - b) with v
    | H : context [ monthStart _ (?a + ?b) ] |- _ =>
        let v := eval vm_compute in (a + b) in progress change (a + b) with v in H
    end;
  cbn [monthStart] in *.

Lemma monthOfYearDay_spec (leap d : Z) :
  (leap = 0 \/ leap = 1) -> 0 <= d < 365 + leap ->
  0 <= monthOfYearDay leap d <= 11
  /\ monthStart leap (monthOfYearDay leap d) <= d
      < monthStart leap (monthOfYearDay leap d + 1).
Proof.
  intros Hl Hd. unfold monthOfYearDay.
  destruct (Z.ltb_spec d 31); [eval_monthStart; lia | ].
  destruct (Z.ltb_spec d (59 + leap)); [eval_monthStart; lia | ].
  destruct (Z.ltb_spec d (90 + leap)); [eval_monthStart; lia | ].
  destruct (Z.ltb_spec d (120 + leap)); [eval_monthStart; lia | ].
  destruct (Z.ltb_spec d (151 + leap)); [eval_monthStart; lia | ].
  destruct (Z.ltb_spec d (181 + leap)); [eval_monthStart; lia | ].
  destruct (Z.ltb_spec d (212 + leap)); [eval_monthStart; lia | ].
  destruct (Z.ltb_spec d (243 + leap)); [eval_monthStart; lia | ].
  destruct (Z.ltb_spec d (273 + leap)); [eval_monthStart; lia | ].
  destruct (Z.ltb_spec d (304 + leap)); [eval_monthStart; lia | ].
  destruct (Z.ltb_spec d (334 + leap)); eval_monthStart; lia.
Qed.

Lemma MonthFromTime_range (t : Z) : 0 <= MonthFromTime t <= 11.
Proof.
  apply monthOfYearDay_spec;
    [apply InLeapYear_range | apply DayWithinYear_range].
Qed.

(** Length of month [m] is at least 28 days and at most 31. *)
Lemma DateFromTime_range (t : Z) : 1 <= DateFromTime t <= 31.
Proof.
  unfold DateFromTime, MonthFromTime.
  pose proof (InLeapYear_range t) as Hl.
  pose proof (DayWithinYear_range t) as Hd.
  pose proof (monthOfYearDay_spec _ _ Hl Hd) as [Hm Hs].
  set (m := monthOfYearDay (InLeapYear t) (DayWithinYear t)) in *.
  assert (Hc : m = 0 \/ m = 1 \/ m = 2 \/ m = 3 \/ m = 4 \/ m = 5 \/ m = 6
               \/ m = 7 \/ m = 8 \/ m = 9 \/ m = 10 \/ m = 11) by lia.
  clearbody m.
  repeat (destruct Hc as [Hc | Hc]; [subst m; eval_monthStart; lia | ]).
  subst m; eval_monthStart; lia.
Qed.

(** Rebuilding the day number from the calendar fields of [t], with the
    day of the month replaced by [dt]. *)
Lemma MakeDay_fields (t dt : Z) :
  MakeDay (YearFromTime t) (MonthFromTime t) dt = Day t - DateFromTime t + dt.
Proof.
  pose proof (MonthFromTime_range t) as Hm.
  unfold MakeDay.
  rewrite (Z.div_small (MonthFromTime t) 12), (Z.mod_small (MonthFromTime t) 12) by lia.
  rewrite Z.add_0_r.
  unfold DateFromTime, DayWithinYear, InLeapYear. lia.
Qed.

Lemma MakeDay_month_carry (y m dt : Z) :
  0 <= m <= 11 ->
  MakeDay y (m - 12) dt
  = DayFromYear y - DaysInYear (y - 1)
    + monthStart (if isLeapYear (y - 1) then 1 else 0) m + dt - 1.
Proof.
  intros Hm. unfold MakeDay.
  replace ((m - 12) / 12) with (-1) by (Z.div_mod_to_equations; lia).
  replace ((m - 12) mod 12) with m by (Z.div_mod_to_equations; lia).
  replace (y + -1) with (y - 1) by lia.
  pose proof (DayFromYear_succ (y - 1)) as H.
  replace (y - 1 + 1) with y in H by lia. lia.
Qed.

(** Two calendar months back is between 59 and 62 days back. *)
Lemma MakeDay_two_months_back (y m dt : Z) :
  0 <= m <= 11 ->
  MakeDay y m dt - 62 <= MakeDay y (m - 2) dt <= MakeDay y m dt - 59.
Proof.
  intros Hm.
  assert (Hc : m = 0 \/ m = 1 \/ 2 <= m <= 11) by lia.
  destruct Hc as [-> | [-> | Hge]].
  - change (0 - 2) with (10 - 12). rewrite MakeDay_month_carry by lia.
    unfold MakeDay. change (0 / 12) with 0. change (0 mod 12) with 0.
    replace (y + 0) with y by lia. rewrite DaysInYear_leap.
    destruct (isLeapYear (y - 1)), (isLeapYear y); cbn [monthStart]; lia.
  - change (1 - 2) with (11 - 12). rewrite MakeDay_month_carry by lia.
    unfold MakeDay. change (1 / 12) with 0. change (1 mod 12) with 1.
    replace (y + 0) with y by lia. rewrite DaysInYear_leap.
    destruct (isLeapYear (y - 1)), (isLeapYear y); cbn [monthStart]; lia.
  - unfold MakeDay.
    rewrite (Z.div_small m 12), (Z.mod_small m 12) by lia.
    rewrite (Z.div_small (m - 2) 12), (Z.mod_small (m - 2) 12) by lia.
    replace (y + 0) with y by lia.
    assert (Hc : m = 2 \/ m = 3 \/ m = 4 \/ m = 5 \/ m = 6
                 \/ m = 7 \/ m = 8 \/ m = 9 \/ m = 10 \/ m = 11) by lia.
    destruct (isLeapYear y);
      repeat (destruct Hc as [Hc | Hc]; [subst m; eval_monthStart; lia | ]);
      subst m; eval_monthStart; lia.
Qed.

Lemma DayFromYear_mono (y1 y2 : Z) :
  y1 <= y2 -> DayFromYear y1 <= DayFromYear y2.
Proof.
  intros H. unfold DayFromYear. Z.div_mod_to_equations. lia.
Qed.

(** [YearFromDay d] is the only year whose days include [d]. *)
Lemma YearFromDay_unique (d y : Z) :
  DayFromYear y <= d < DayFromYear (y + 1) -> YearFromDay d = y.
Proof.
  intros Hy. pose proof (YearFromDay_spec d) as Hs.
  destruct (Z.lt_trichotomy (YearFromDay d) y) as [Hlt | [Heq | Hgt]].
  - pose proof (DayFromYear_mono (YearFromDay d + 1) y ltac:(lia)). lia.
  - exact Heq.
  - pose proof (DayFromYear_mono (y + 1) (YearFromDay d) ltac:(lia)). lia.
Qed.

Lemma monthOfYearDay_start (leap m : Z) :
  (leap = 0 \/ leap = 1) -> 0 <= m <= 11 ->
  monthOfYearDay leap (monthStart leap m) = m.
Proof.
  intros Hl Hm.
  assert (Hc : m = 0 \/ m = 1 \/ m = 2 \/ m = 3 \/ m = 4 \/ m = 5 \/ m = 6
               \/ m = 7 \/ m = 8 \/ m = 9 \/ m = 10 \/ m = 11) by lia.
  destruct Hl as [-> | ->];
    repeat (destruct Hc as [Hc | Hc]; [subst m; reflexivity | ]);
    subst m; reflexivity.
Qed.

(** [MakeDay year month 1] is the day number whose calendar fields are
    the carried year, the month within 0..11, and day 1: the day asked for
    by the language definition. *)
Lemma MakeDay_first_of_month (year month : Z) :
  let t := MakeDate (MakeDay year month 1) 0 in
  YearFromTime t = year + month / 12
  /\ MonthFromTime t = month mod 12
  /\ DateFromTime t = 1.
Proof.
  intros t.
  assert (Hday : Day t = MakeDay year month 1).
  { unfold t, MakeDate, Day, msPerDay. Z.div_mod_to_equations. lia. }
  pose proof (Z.mod_pos_bound month 12 ltac:(lia)) as Hmn.
  set (ym := year + month / 12) in *.
  set (leap := if isLeapYear ym then 1 else 0).
  assert (Hl : leap = 0 \/ leap = 1) by (unfold leap; destruct (isLeapYear ym); auto).
  assert (Hstart : 0 <= monthStart leap (month mod 12) < 365).
  { assert (Hc : month mod 12 = 0 \/ month mod 12 = 1 \/ month mod 12 = 2
                 \/ month mod 12 = 3 \/ month mod 12 = 4 \/ month mod 12 = 5
                 \/ month mod 12 = 6 \/ month mod 12 = 7 \/ month mod 12 = 8
                 \/ month mod 12 = 9 \/ month mod 12 = 10 \/ month mod 12 = 11) by lia.
    repeat (destruct Hc as [Hc | Hc]; [rewrite Hc; cbn [monthStart]; lia | ]).
    rewrite Hc; cbn [monthStart]; lia. }
  assert (Hd : Day t = DayFromYear ym + monthStart leap (month mod 12)).
  { rewrite Hday. unfold MakeDay. fold ym. fold leap. lia. }
  assert (Hy : YearFromTime t = ym).
  { unfold YearFromTime. apply YearFromDay_unique.
    rewrite DayFromYear_succ, DaysInYear_leap. fold leap. lia. }
  assert (Hleap : InLeapYear t = leap).
  { unfold InLeapYear. rewrite Hy. reflexivity. }
  assert (Hwithin : DayWithinYear t = monthStart leap (month mod 12)).
  { unfold DayWithinYear. rewrite Hy. lia. }
  assert (Hm : MonthFromTime t = month mod 12).
  { unfold MonthFromTime. rewrite Hleap, Hwithin.
    apply monthOfYearDay_start; [exact Hl | lia]. }
  split; [exact Hy | ]. split; [exact Hm | ].
  unfold DateFromTime. rewrite Hm, Hleap, Hwithin. lia.
Qed.
End Calendar.

(* ===================================================================== *)
(** * The Date setters used by [parseRelativeDate] *)
(* ===================================================================== *)

Section Setters.
Import JsDate.
Variable tza : TimeZone.

Lemma Day_TimeWithinDay (t : Z) : MakeDate (Day t) (TimeWithinDay t) = t.
Proof.
  unfold MakeDate, Day, TimeWithinDay, msPerDay.
  Z.div_mod_to_equations. lia.
Qed.

(** [setDate(getDate() - k)] moves the local time back by [k] days. *)
Lemma setDate_back (T k : Z) :
  setDate tza T (getDate tza T - k)
  = TimeClip (UTC tza (LocalTime tza T - k * msPerDay)).
Proof.
  unfold setDate, getDate. rewrite MakeDay_fields. f_equal. f_equal.
  pose proof (Day_TimeWithinDay (LocalTime tza T)) as H.
  unfold MakeDate in *. lia.
Qed.

(** [setMonth(getMonth() - 2)] moves the local time back by 59 to 62
    days, whatever the overflow of the day of the month. *)
Lemma setMonth_two_back (T : Z) :
  exists g, 59 <= g <= 62
    /\ setMonth tza T (getMonth tza T - 2)
        = TimeClip (UTC tza (LocalTime tza T - g * msPerDay)).
Proof.
  unfold setMonth, getMonth.
  set (t := LocalTime tza T).
  pose proof (MakeDay_two_months_back (YearFromTime t) (MonthFromTime t)
                (DateFromTime t) (MonthFromTime_range t)) as Hg.
  rewrite MakeDay_fields in Hg.
  exists (Day t - MakeDay (YearFromTime t) (MonthFromTime t - 2) (DateFromTime t)).
  split; [lia | ].
  f_equal. f_equal.
  pose proof (Day_TimeWithinDay t) as H.
  unfold MakeDate in *. lia.
Qed.

Lemma TimeClip_in_range (t : Z) :
  - maxTime <= t <= maxTime -> TimeClip t = Some t.
Proof.
  intros H. unfold TimeClip.
  destruct (Z.leb_spec (Z.abs t) maxTime); [reflexivity | lia].
Qed.

(** Moving the local time back by [g] days moves the instant back by
    [g] days, up to the two zone offsets involved. *)
Lemma UTC_back_bounds (T g : Z) :
  boundedZone tza ->
  T - (g + 2) * msPerDay < UTC tza (LocalTime tza T - g * msPerDay)
  < T - (g - 2) * msPerDay.
Proof.
  intros Hz. unfold UTC, LocalTime.
  pose proof (Hz T true) as H1.
  pose proof (Hz (T + tza T true - g * msPerDay) false) as H2.
  unfold msPerDay in *. lia.
Qed.
End Setters.

Lemma two_months_ago_parses :
  Utils.pluralMatch Utils.allUnits (Js.trim (Js.toLowerCase "2 months ago"))
  = Some ("2", Utils.month).
Proof. reflexivity. Qed.

Lemma two_weeks_ago_parses :
  Utils.pluralMatch Utils.allUnits (Js.trim (Js.toLowerCase "2 weeks ago"))
  = Some ("2", Utils.week).
Proof. reflexivity. Qed.

(** C8: for every time zone and every reference instant [T] (a valid time
    value at least 100 days above the smallest one, so that the dates
    involved are all representable), "2 months ago" normalises to an
    instant strictly earlier than "2 weeks ago" does: the calendar-aware
    month subtraction goes back 59 to 62 days, day overflow included, the
    week subtraction exactly 14 days. *)
Theorem two_months_before_two_weeks :
  forall (tza : JsDate.TimeZone) (T : Z),
    JsDate.boundedZone tza ->
    - JsDate.maxTime + 100 * JsDate.msPerDay <= T <= JsDate.maxTime ->
    exists a b : Z,
      Utils.relativeDate tza T "2 months ago" = Some a
      /\ Utils.relativeDate tza T "2 weeks ago" = Some b
      /\ a < b
      /\ Utils.parseRelativeDate tza T "2 months ago" = Some (JsDate.isoOfTime a)
      /\ Utils.parseRelativeDate tza T "2 weeks ago" = Some (JsDate.isoOfTime b).
Proof.
  intros tza T Hz HT.
  unfold Utils.parseRelativeDate, Utils.relativeDate.
  rewrite two_months_ago_parses, two_weeks_ago_parses.
  cbn [Utils.subtractUnits].
  change (Js.parseInt "2") with 2. change (2 * 7) with 14.
  destruct (setMonth_two_back tza T) as (g & Hg & ->).
  rewrite setDate_back.
  pose proof (UTC_back_bounds tza T g Hz) as Ha.
  pose proof (UTC_back_bounds tza T 14 Hz) as Hb.
  unfold JsDate.maxTime, JsDate.msPerDay in *.
  rewrite !TimeClip_in_range by (unfold JsDate.maxTime; lia).
  eexists _, _. repeat split; try reflexivity. lia.
Qed.

Lemma two_months_before_two_weeks_witness :
  exists a b : Z,
    Utils.relativeDate JsDate.utcZone 1709210096789 "2 months ago" = Some a
    /\ Utils.relativeDate JsDate.utcZone 1709210096789 "2 weeks ago" = Some b
    /\ a < b
    /\ Utils.parseRelativeDate JsDate.utcZone 1709210096789 "2 months ago"
        = Some (JsDate.isoOfTime a)
    /\ Utils.parseRelativeDate JsDate.utcZone 1709210096789 "2 weeks ago"
        = Some (JsDate.isoOfTime b).
Proof.
  apply (two_months_before_two_weeks JsDate.utcZone 1709210096789).
  - intros t isUTC. unfold JsDate.utcZone, JsDate.msPerDay. lia.
  - unfold JsDate.maxTime, JsDate.msPerDay. lia.
Defined.

(* ===================================================================== *)
(** * The regular expressions against the shapes they look for *)
(* ===================================================================== *)

Section Regex.
Import Js Utils.

Lemma span_spec (p : ascii -> bool) (s a b : string) :
  span p s = (a, b) -> s = a +:+ b /\ every p a = true /\ stopsAt p b.
Proof.
  revert a b. induction s as [| c r IH]; intros a b; simpl.
  - intros [= <- <-]. repeat split.
  - destruct (p c) eqn:Ec.
    + destruct (span p r) as [a' b'] eqn:Er. intros [= <- <-].
      destruct (IH a' b' eq_refl) as (-> & Ha & Hb).
      simpl. rewrite Ec, Ha. repeat split. exact Hb.
    + intros [= <- <-]. simpl. repeat split. exact Ec.
Qed.

Lemma span_app (p : ascii -> bool) (a b : string) :
  every p a = true -> stopsAt p b -> span p (a +:+ b) = (a, b).
Proof.
  intros Ha Hb. induction a as [| c a IH]; simpl in *.
  - destruct b as [| c r]; simpl in *; [reflexivity | rewrite Hb; reflexivity].
  - apply andb_prop in Ha as [Hc Ha]. rewrite Hc, (IH Ha). reflexivity.
Qed.

Lemma stripPrefix_app (lit r : string) : stripPrefix lit (lit +:+ r) = Some r.
Proof.
  induction lit as [| c lit IH]; simpl.
  - destruct r; reflexivity.
  - rewrite Ascii.eqb_refl. exact IH.
Qed.

Lemma stripPrefix_Some (lit s r : string) :
  stripPrefix lit s = Some r -> s = lit +:+ r.
Proof.
  revert s. induction lit as [| c lit IH]; intros s; simpl.
  - destruct s; intros [= <-]; reflexivity.
  - destruct s as [| c' s']; [discriminate | ].
    destruct (Ascii.eqb_spec c c') as [<- | ]; [ | discriminate].
    intros H. rewrite (IH _ H). reflexivity.
Qed.

Lemma spaces1_Some (s r : string) :
  spaces1 s = Some r ->
  exists w, s = w +:+ r /\ w <> "" /\ every isSpace w = true /\ stopsAt isSpace r.
Proof.
  unfold spaces1. destruct (span isSpace s) as [w b] eqn:E.
  destruct (span_spec _ _ _ _ E) as (-> & Hw & Hb).
  destruct w as [| c w]; [discriminate | ]. intros [= <-].
  exists (String c w). repeat split; try assumption. discriminate.
Qed.

Lemma spaces1_app (w b : string) :
  w <> "" -> every isSpace w = true -> stopsAt isSpace b ->
  spaces1 (w +:+ b) = Some b.
Proof.
  intros Hne Hw Hb. unfold spaces1. rewrite (span_app _ _ _ Hw Hb).
  destruct w; [contradiction | reflexivity].
Qed.

(** No unit word begins another one, so the alternation has at most one
    way to go on. *)
Lemma unitWord_prefix_free (u u' : Unit) (rest r : string) :
  stripPrefix (unitWord u') (unitWord u +:+ rest) = Some r -> u' = u /\ r = rest.
Proof.
  destruct u, u'; cbn [unitWord]; intros H; vm_compute in H;
    first [discriminate H | injection H as <-; split; reflexivity].
Qed.

Lemma matchUnit_Some (us : list Unit) (s r : string) (u : Unit) :
  matchUnit us s = Some (u, r) -> In u us /\ s = unitWord u +:+ r.
Proof.
  induction us as [| u' us IH]; simpl; [discriminate | ].
  destruct (stripPrefix (unitWord u') s) as [r' | ] eqn:E.
  - intros [= <- <-]. split; [left; reflexivity | ].
    apply stripPrefix_Some, E.
  - intros H. destruct (IH H) as [Hin ->]. split; [right; exact Hin | reflexivity].
Qed.

Lemma matchUnit_app (us : list Unit) (u : Unit) (rest : string) :
  In u us -> matchUnit us (unitWord u +:+ rest) = Some (u, rest).
Proof.
  induction us as [| u' us IH]; simpl; [contradiction | ]. intros Hin.
  destruct (stripPrefix (unitWord u') (unitWord u +:+ rest)) as [r | ] eqn:E.
  - apply unitWord_prefix_free in E as [-> ->]. reflexivity.
  - destruct Hin as [-> | Hin]; [ | exact (IH Hin)].
    rewrite stripPrefix_app in E. discriminate E.
Qed.

Lemma isSpace_not_digit (c : ascii) : isSpace c = true -> isDigit c = false.
Proof.
  destruct c as [[] [] [] [] [] [] [] []]; vm_compute; congruence.
Qed.

Lemma isSpace_not_letter (c x : ascii) :
  isSpace c = true -> isSpace x = false -> Ascii.eqb x c = false.
Proof.
  intros Hc Hx. destruct (Ascii.eqb_spec x c) as [-> | ]; congruence.
Qed.

Lemma unitWord_stops_space (u : Unit) (rest : string) :
  stopsAt isSpace (unitWord u +:+ rest).
Proof. destruct u; reflexivity. Qed.

Lemma spaces_stop (p : ascii -> bool) (w rest : string) :
  w <> "" -> every isSpace w = true ->
  (forall c, isSpace c = true -> p c = false) ->
  stopsAt p (w +:+ rest).
Proof.
  intros Hne Hw Hp. destruct w as [| c w]; [contradiction | ].
  simpl in *. apply andb_prop in Hw as [Hc _]. apply Hp, Hc.
Qed.

Lemma optChar_spec (c : ascii) (s : string) :
  s = optChar c s \/ s = String c (optChar c s).
Proof.
  destruct s as [| c' r]; simpl; [left; reflexivity | ].
  destruct (Ascii.eqb_spec c c') as [<- | ]; [right | left]; reflexivity.
Qed.

Lemma optChar_spaces (x : ascii) (w rest : string) :
  isSpace x = false -> w <> "" -> every isSpace w = true ->
  optChar x (w +:+ rest) = w +:+ rest.
Proof.
  intros Hx Hne Hw. destruct w as [| c w]; [contradiction | ].
  simpl in *. apply andb_prop in Hw as [Hc _].
  rewrite (isSpace_not_letter c x Hc Hx). reflexivity.
Qed.

(** What a match of the first expression at the start of [s] looks like *)
Lemma pluralAt_Some (us : list Unit) (s ds : string) (u : Unit) :
  pluralAt us s = Some (ds, u) ->
  exists (w1 plural w2 post : string),
    s = ds +:+ w1 +:+ unitWord u +:+ plural +:+ w2 +:+ "ago" +:+ post
    /\ ds <> "" /\ every isDigit ds = true
    /\ w1 <> "" /\ every isSpace w1 = true
    /\ In u us
    /\ (plural = "" \/ plural = "s")
    /\ w2 <> "" /\ every isSpace w2 = true.
Proof.
  unfold pluralAt.
  destruct (span isDigit s) as [d r1] eqn:E1.
  destruct (span_spec _ _ _ _ E1) as (-> & Hd & _).
  destruct d as [| c d]; [discriminate | ].
  destruct (spaces1 r1) as [r2 | ] eqn:E2; [ | discriminate].
  destruct (spaces1_Some _ _ E2) as (w1 & -> & Hw1 & Hw1' & _).
  destruct (matchUnit us r2) as [[u' r3] | ] eqn:E3; [ | discriminate].
  destruct (matchUnit_Some _ _ _ _ E3) as [Hin ->].
  destruct (spaces1 (optChar "s" r3)) as [r4 | ] eqn:E4; [ | discriminate].
  destruct (spaces1_Some _ _ E4) as (w2 & Hr3 & Hw2 & Hw2' & _).
  destruct (stripPrefix "ago" r4) as [post | ] eqn:E5; [ | discriminate].
  apply stripPrefix_Some in E5. subst r4.
  intros [= <- <-].
  destruct (optChar_spec "s" r3) as [Hs | Hs]; rewrite Hr3 in Hs.
  - exists w1, "", w2, post. rewrite Hs. simpl append. repeat split; auto; discriminate.
  - exists w1, "s", w2, post. rewrite Hs. simpl append. repeat split; auto; discriminate.
Qed.

Lemma pluralAt_app (us : list Unit) (ds w1 plural w2 post : string) (u : Unit) :
  ds <> "" -> every isDigit ds = true ->
  w1 <> "" -> every isSpace w1 = true ->
  In u us ->
  plural = "" \/ plural = "s" ->
  w2 <> "" -> every isSpace w2 = true ->
  pluralAt us (ds +:+ w1 +:+ unitWord u +:+ plural +:+ w2 +:+ "ago" +:+ post)
  = Some (ds, u).
Proof.
  intros Hds Hds' Hw1 Hw1' Hin Hpl Hw2 Hw2'. unfold pluralAt.
  rewrite (span_app isDigit ds _ Hds'
             (spaces_stop isDigit w1 _ Hw1 Hw1' isSpace_not_digit)).
  destruct ds as [| c ds]; [contradiction | ].
  rewrite (spaces1_app w1 _ Hw1 Hw1' (unitWord_stops_space u _)).
  rewrite (matchUnit_app us u _ Hin).
  assert (Hopt : optChar "s" (plural +:+ w2 +:+ "ago" +:+ post)
                 = w2 +:+ "ago" +:+ post).
  { destruct Hpl as [-> | ->].
    - change ("" +:+ w2 +:+ "ago" +:+ post) with (w2 +:+ "ago" +:+ post).
      apply optChar_spaces; [reflexivity | assumption | assumption].
    - reflexivity. }
  rewrite Hopt.
  rewrite (spaces1_app w2 ("ago" +:+ post) Hw2 Hw2' eq_refl).
  rewrite stripPrefix_app. reflexivity.
Qed.

Lemma pluralMatch_unfold (us : list Unit) (s : string) :
  pluralMatch us s
  = match pluralAt us s with
    | Some m => Some m
    | None => match s with
              | EmptyString => None
              | String _ r => pluralMatch us r
              end
    end.
Proof. destruct s; reflexivity. Qed.

(** The first expression finds a match exactly in the texts of
    [pluralShape]. *)
Lemma pluralMatch_shape (us : list Unit) (s : string) :
  (exists m, pluralMatch us s = Some m) <-> pluralShape us s.
Proof.
  split.
  - intros [[ds u] H]. induction s as [| c r IH];
      rewrite pluralMatch_unfold in H.
    + destruct (pluralAt us "") as [m | ] eqn:E; [ | discriminate].
      injection H as ->.
      destruct (pluralAt_Some _ _ _ _ E) as (w1 & pl & w2 & post & Hs & Hrest).
      exists "", ds, w1, u, pl, w2, post. split; [exact Hs | exact Hrest].
    + destruct (pluralAt us (String c r)) as [m | ] eqn:E.
      * injection H as ->.
        destruct (pluralAt_Some _ _ _ _ E) as (w1 & pl & w2 & post & Hs & Hrest).
        exists "", ds, w1, u, pl, w2, post. split; [exact Hs | exact Hrest].
      * destruct (IH H) as (pre & ds' & w1 & u' & pl & w2 & post & Hs & Hrest).
        exists (String c pre), ds', w1, u', pl, w2, post.
        split; [simpl; rewrite Hs; reflexivity | exact Hrest].
  - intros (pre & ds & w1 & u & pl & w2 & post & -> & Hds & Hds' & Hw1 & Hw1'
            & Hin & Hpl & Hw2 & Hw2').
    pose proof (pluralAt_app us ds w1 pl w2 post u Hds Hds' Hw1 Hw1' Hin Hpl Hw2 Hw2')
      as Hat.
    induction pre as [| c pre IH].
    + exists (ds, u). change ("" +:+ ?x) with x.
      rewrite pluralMatch_unfold, Hat. reflexivity.
    + change (String c pre +:+ ?x) with (String c (pre +:+ x)).
      rewrite pluralMatch_unfold.
      destruct (pluralAt us (String c _)) as [m | ];
        [exists m; reflexivity | exact IH].
Qed.

Lemma singleMatch_a (us : list Unit) (r0 : string) :
  singleMatch us (String "a" r0)
  = match spaces1 (optChar "n" r0) with
    | None => None
    | Some r1 =>
        match matchUnit us r1 with
        | None => None
        | Some (u, r2) =>
            match spaces1 r2 with
            | None => None
            | Some r3 => if String.eqb r3 "ago" then Some u else None
            end
        end
    end.
Proof. reflexivity. Qed.

(** The second expression accepts exactly the texts of [singleShape]. *)
Lemma singleMatch_shape (us : list Unit) (s : string) :
  (exists u, singleMatch us s = Some u) <-> singleShape us s.
Proof.
  split.
  - intros [u H]. unfold singleMatch in H.
    destruct s as [| a r0]; [discriminate | ].
    destruct (Ascii.eqb_spec a "a") as [-> | Hne].
    2:{ destruct a as [[] [] [] [] [] [] [] []]; try discriminate H.
        contradiction Hne; reflexivity. }
    destruct (spaces1 (optChar "n" r0)) as [r1 | ] eqn:E1; [ | discriminate].
    destruct (spaces1_Some _ _ E1) as (w1 & Hr0 & Hw1 & Hw1' & _).
    destruct (matchUnit us r1) as [[u' r2] | ] eqn:E2; [ | discriminate].
    destruct (matchUnit_Some _ _ _ _ E2) as [Hin ->].
    destruct (spaces1 r2) as [r3 | ] eqn:E3; [ | discriminate].
    destruct (spaces1_Some _ _ E3) as (w2 & -> & Hw2 & Hw2' & _).
    destruct (String.eqb_spec r3 "ago") as [-> | ]; [ | discriminate].
    injection H as <-.
    destruct (optChar_spec "n" r0) as [Hs | Hs]; rewrite Hr0 in Hs.
    + exists "a", w1, u', w2. rewrite Hs. repeat split; auto.
    + exists "an", w1, u', w2. rewrite Hs. repeat split; auto.
  - intros (art & w1 & u & w2 & -> & Hart & Hw1 & Hw1' & Hin & Hw2 & Hw2').
    exists u.
    assert (Hrest : forall r0,
               spaces1 (optChar "n" r0) = Some (unitWord u +:+ w2 +:+ "ago") ->
               singleMatch us (String "a" r0) = Some u).
    { intros r0 Hr0. rewrite singleMatch_a, Hr0.
      rewrite (matchUnit_app us u _ Hin).
      rewrite (spaces1_app w2 "ago" Hw2 Hw2' eq_refl). reflexivity. }
    destruct Hart as [-> | ->].
    + change ("a" +:+ ?x) with (String "a" x). apply Hrest.
      rewrite (optChar_spaces "n" w1 _ eq_refl Hw1 Hw1').
      apply (spaces1_app w1 _ Hw1 Hw1' (unitWord_stops_space u _)).
    + change ("an" +:+ ?x) with (String "a" (String "n" x)). apply Hrest.
      change (optChar "n" (String "n" ?x)) with x.
      apply (spaces1_app w1 _ Hw1 Hw1' (unitWord_stops_space u _)).
Qed.
End Regex.

(* ===================================================================== *)
(** * The fallback of the relative-time normaliser *)
(* ===================================================================== *)

Lemma MakeTime_fields (t : Z) :
  JsDate.MakeTime (JsDate.HourFromTime t) (JsDate.MinFromTime t)
    (JsDate.SecFromTime t) (JsDate.msFromTime t)
  = JsDate.TimeWithinDay t.
Proof.
  unfold JsDate.MakeTime, JsDate.HourFromTime, JsDate.MinFromTime,
    JsDate.SecFromTime, JsDate.msFromTime, JsDate.TimeWithinDay,
    JsDate.msPerHour, JsDate.msPerMinute, JsDate.msPerSecond, JsDate.msPerDay.
  Z.div_mod_to_equations. lia.
Qed.




(* ===================================================================== *)
(** * The scroll loop *)
(* ===================================================================== *)

Section ScrollLoop.
Import Scroll.
Variable maxItems : Z.
Variable count : nat -> Z.

Lemma ceilDiv_spec (a b : Z) :
  0 < b -> b * (ceilDiv a b - 1) < a <= b * ceilDiv a b.
Proof.
  intros Hb. unfold ceilDiv.
  pose proof (Z.div_mod (- a) b) as H.
  pose proof (Z.mod_pos_bound (- a) b Hb) as H'.
  nia.
Qed.

Lemma maxScrollAttempts_pos : 0 < maxItems -> 6 <= maxScrollAttempts maxItems.
Proof.
  intros H. unfold maxScrollAttempts.
  pose proof (ceilDiv_spec maxItems 10). lia.
Qed.

(** The loop leaves after at most [remaining] further scrolls, and uses
    them all only when it runs into its bound. *)
Lemma loop_scrolls (remaining : nat) (s : State) :
  let r := loop maxItems count remaining s in
  (scrollAttempt s <= scrolls r <= scrollAttempt s + remaining)%nat
  /\ (fst r = IterationLimit -> scrolls r = (scrollAttempt s + remaining)%nat)
  /\ (fst r <> IterationLimit -> (scrolls r < scrollAttempt s + remaining)%nat).
Proof.
  revert s. induction remaining as [| n IH]; intros s; cbn [loop].
  - unfold scrolls; cbn. repeat split; try lia. congruence.
  - unfold body.
    destruct (count (scrollAttempt s) >=? maxItems).
    { unfold scrolls; cbn. repeat split; try lia. discriminate. }
    destruct (count (scrollAttempt s) =? lastReviewCount s).
    + destruct (noNewReviewsCount s + 1 >=? 3).
      { unfold scrolls; cbn. repeat split; try lia. discriminate. }
      match goal with |- context [loop _ _ n ?s'] => specialize (IH s') end.
      cbn [scrollAttempt] in IH. cbn zeta in *.
      destruct IH as (IH1 & IH2 & IH3). repeat split; try lia.
      * intros E. rewrite (IH2 E). lia.
      * intros E. specialize (IH3 E). lia.
    + match goal with |- context [loop _ _ n ?s'] => specialize (IH s') end.
      cbn [scrollAttempt] in IH. cbn zeta in *.
      destruct IH as (IH1 & IH2 & IH3). repeat split; try lia.
      * intros E. rewrite (IH2 E). lia.
      * intros E. specialize (IH3 E). lia.
Qed.

(** A document that shows progress at every measurement and stays under
    the cap keeps the loop going until its bound. *)
Lemma loop_progress (remaining : nat) (s : State) :
  lastReviewCount s = previousCount count (scrollAttempt s) ->
  (forall i, (scrollAttempt s <= i < scrollAttempt s + remaining)%nat ->
             count i < maxItems /\ ~ unchanged count i) ->
  fst (loop maxItems count remaining s) = IterationLimit.
Proof.
  revert s. induction remaining as [| n IH]; intros s Hlast Hprog; cbn [loop].
  - reflexivity.
  - destruct (Hprog (scrollAttempt s) ltac:(lia)) as [Hcap Hch].
    unfold unchanged in Hch. rewrite <- Hlast in Hch.
    unfold body.
    destruct (Z.geb_spec (count (scrollAttempt s)) maxItems); [lia | ].
    destruct (Z.eqb_spec (count (scrollAttempt s)) (lastReviewCount s)); [contradiction | ].
    apply IH; cbn [scrollAttempt lastReviewCount previousCount].
    + reflexivity.
    + intros i Hi. apply Hprog. lia.
Qed.

(** When no three consecutive unchanged measurements occur before
    [k], [k+1], [k+2], the loop stops exactly at measurement [k+2]. *)
Lemma loop_stalls_first (k remaining : nat) (s : State) (c : nat) :
  (forall j, (j <= k + 2)%nat -> count j < maxItems) ->
  unchanged count k -> unchanged count (k + 1) -> unchanged count (k + 2) ->
  (forall j, (j < k)%nat -> ~ stallAt count j) ->
  (scrollAttempt s <= k + 2)%nat ->
  (k + 2 < scrollAttempt s + remaining)%nat ->
  lastReviewCount s = previousCount count (scrollAttempt s) ->
  noNewReviewsCount s = Z.of_nat c -> (c <= 2)%nat -> (c <= scrollAttempt s)%nat ->
  (forall m, (scrollAttempt s - c <= m < scrollAttempt s)%nat -> unchanged count m) ->
  (forall b, S b = (scrollAttempt s - c)%nat -> ~ unchanged count b) ->
  loop maxItems count remaining s
  = (NoProgress, {| scrollAttempt := (k + 2)%nat;
                    lastReviewCount := count (k + 2)%nat;
                    noNewReviewsCount := 3 |}).
Proof.
  intros Hcap U0 U1 U2 Hfirst.
  revert s c.
  induction remaining as [| n IH];
    intros s c Hi Hfuel Hlast Hc Hc2 Hci Hrun Hbefore; cbn [loop]; [lia | ].
  pose proof (Hcap (scrollAttempt s) Hi) as Hlt.
  unfold body.
  destruct (Z.geb_spec (count (scrollAttempt s)) maxItems); [lia | ].
  destruct (Z.eqb_spec (count (scrollAttempt s)) (lastReviewCount s)) as [Heq | Hne].
  - assert (Hu : unchanged count (scrollAttempt s)).
    { unfold unchanged. congruence. }
    destruct (Z.geb_spec (noNewReviewsCount s + 1) 3) as [Hge | Hlt3].
    + assert (c = 2%nat) by lia. subst c.
      assert (Hik : scrollAttempt s = (k + 2)%nat).
      { destruct (Nat.lt_ge_cases (scrollAttempt s - 2) k) as [Hlt' | Hge']; [ | lia].
        exfalso. apply (Hfirst _ Hlt'). repeat split.
        - apply Hrun. lia.
        - apply Hrun. lia.
        - replace (scrollAttempt s - 2 + 2)%nat with (scrollAttempt s) by lia.
          assumption. }
      rewrite Hik in *. f_equal. f_equal; [congruence | lia].
    + assert (Hnext : (scrollAttempt s < k + 2)%nat).
      { destruct (Nat.lt_ge_cases (scrollAttempt s) (k + 2)) as [? | Hge']; [assumption | ].
        exfalso. assert (Hik : scrollAttempt s = (k + 2)%nat) by lia.
        assert (Hcc : c = 0%nat \/ c = 1%nat) by lia.
        destruct Hcc as [-> | ->].
        - apply (Hbefore (k + 1)%nat); [lia | assumption].
        - apply (Hbefore k); [lia | assumption]. }
      apply (IH _ (S c));
        cbn [scrollAttempt lastReviewCount noNewReviewsCount previousCount];
        try lia; try reflexivity.
      * intros m Hm.
        destruct (Nat.eq_dec m (scrollAttempt s)) as [-> | Hneq]; [assumption | ].
        apply Hrun. lia.
      * intros b Hb. apply Hbefore. lia.
  - assert (Hu : ~ unchanged count (scrollAttempt s)).
    { unfold unchanged. congruence. }
    assert (Hk : (scrollAttempt s < k)%nat).
    { destruct (Nat.lt_ge_cases (scrollAttempt s) k) as [? | Hge]; [assumption | ].
      exfalso. apply Hu.
      assert (Hcase : scrollAttempt s = k \/ scrollAttempt s = (k + 1)%nat
                      \/ scrollAttempt s = (k + 2)%nat) by lia.
      destruct Hcase as [-> | [-> | ->]]; assumption. }
    apply (IH _ 0%nat);
      cbn [scrollAttempt lastReviewCount noNewReviewsCount previousCount];
      try lia; try reflexivity.
    intros b Hb. replace b with (scrollAttempt s) by lia. assumption.
Qed.
End ScrollLoop.

(* ===================================================================== *)
(** * Pagination *)
(* ===================================================================== *)

Lemma loop_ext (maxItems : Z) (c1 c2 : nat -> Z) :
  (forall i, c1 i = c2 i) ->
  forall remaining s,
    Scroll.loop maxItems c1 remaining s = Scroll.loop maxItems c2 remaining s.
Proof.
  intros Hext. induction remaining as [| n IH]; intros s; cbn.
  - reflexivity.
  - rewrite Hext. destruct (Scroll.body _ _ _); [reflexivity | apply IH].
Qed.

Lemma stallAt_dec (count : nat -> Z) (k : nat) :
  Scroll.stallAt count k \/ ~ Scroll.stallAt count k.
Proof.
  unfold Scroll.stallAt, Scroll.unchanged.
  destruct (Z.eq_dec (count k) (Scroll.previousCount count k));
    destruct (Z.eq_dec (count (k + 1)%nat) (Scroll.previousCount count (k + 1)));
    destruct (Z.eq_dec (count (k + 2)%nat) (Scroll.previousCount count (k + 2)));
    tauto.
Qed.

(** A stall has an earliest one at or before it. *)
Lemma first_stall (count : nat -> Z) (k : nat) :
  Scroll.stallAt count k ->
  exists k0, (k0 <= k)%nat /\ Scroll.stallAt count k0
             /\ forall j, (j < k0)%nat -> ~ Scroll.stallAt count j.
Proof.
  induction k as [k IH] using lt_wf_ind. intros Hk.
  assert (Hsearch : forall n,
             (exists j, (j < n)%nat /\ Scroll.stallAt count j)
             \/ (forall j, (j < n)%nat -> ~ Scroll.stallAt count j)).
  { induction n as [| n [IHn | IHn]].
    - right. intros j Hj. lia.
    - left. destruct IHn as (j & Hj & Hs). exists j. split; [lia | exact Hs].
    - destruct (stallAt_dec count n) as [Hs | Hs].
      + left. exists n. split; [lia | exact Hs].
      + right. intros j Hj. destruct (Nat.eq_dec j n) as [-> | Hne]; [exact Hs | ].
        apply IHn. lia. }
  destruct (Hsearch k) as [(j & Hj & Hs) | Hnone].
  - destruct (IH j Hj Hs) as (k0 & Hk0 & Hs0 & Hmin).
    exists k0. split; [lia | ]. split; assumption.
  - exists k. split; [lia | ]. split; assumption.
Qed.

(** C5: when the measured count is unchanged in three consecutive
    measurement cycles [k], [k+1], [k+2] (each finds the count of the
    measurement before it, under the cap and within the iteration bound),
    the scroll loop stops with [NoProgress] at the third unchanged
    measurement of the earliest such run, without scrolling after it; the
    handler then extracts and accumulates the cards loaded at that point.
    A measurement that finds a larger count under the cap sets the stall
    counter to zero. *)
Theorem stall_stops_pagination :
  forall (maxItems : Z) (count : nat -> Z) (k : nat),
    (forall j, (j <= k + 2)%nat -> count j < maxItems) ->
    Scroll.stallAt count k ->
    Z.of_nat (k + 2) < Scroll.maxScrollAttempts maxItems ->
    (exists k0,
        (k0 <= k)%nat /\ Scroll.stallAt count k0
        /\ Scroll.paginate maxItems count
           = (Scroll.NoProgress,
              {| Scroll.scrollAttempt := (k0 + 2)%nat;
                 Scroll.lastReviewCount := count (k0 + 2)%nat;
                 Scroll.noNewReviewsCount := 3 |})
        /\ Scroll.scrolls (Scroll.paginate maxItems count) = (k0 + 2)%nat
        /\ Scroll.measurements (Scroll.paginate maxItems count) = (k0 + 3)%nat
        /\ (forall env (doc : Main.Document) st,
              (forall i, Main.cardCount doc i = count i) ->
              Z.of_nat (length (collectedReviews st)) < maxItems ->
              Main.requestHandler env maxItems doc st
              = Main.accumulate env maxItems
                  (Main.extractAll env (doc (k0 + 2)%nat)) st
              /\ Z.of_nat (length (doc (k0 + 2)%nat)) = count k0)
        /\ (forall env (doc : Legacy.Document) st,
              (forall i, Legacy.measured doc i = count i) ->
              Legacy.panelFound doc = true ->
              Z.of_nat (length (collectedReviews st)) < maxItems ->
              Legacy.requestHandler env maxItems doc st
              = Legacy.accumulate env maxItems
                  (Legacy.extractAll (Legacy.cards doc (k0 + 2)%nat)) st))
    /\ (forall (s : Scroll.State) (currentCount : Z),
          currentCount < maxItems ->
          Scroll.lastReviewCount s < currentCount ->
          Scroll.body maxItems currentCount s
          = Scroll.Next {| Scroll.scrollAttempt := S (Scroll.scrollAttempt s);
                           Scroll.lastReviewCount := currentCount;
                           Scroll.noNewReviewsCount := 0 |}).
Proof.
  intros maxItems count k Hcap Hstall Hbound.
  split.
  - destruct (first_stall count k Hstall) as (k0 & Hk0 & (U0 & U1 & U2) & Hmin).
    assert (Hp : Scroll.paginate maxItems count
                 = (Scroll.NoProgress,
                    {| Scroll.scrollAttempt := (k0 + 2)%nat;
                       Scroll.lastReviewCount := count (k0 + 2)%nat;
                       Scroll.noNewReviewsCount := 3 |})).
    { unfold Scroll.paginate.
      apply (loop_stalls_first maxItems count k0 _ Scroll.initial 0%nat);
        cbn [Scroll.initial Scroll.scrollAttempt Scroll.lastReviewCount
             Scroll.noNewReviewsCount Scroll.previousCount];
        try assumption; try reflexivity; try lia.
      intros j Hj. apply Hcap. lia. }
    exists k0. split; [exact Hk0 | ]. split; [repeat split; assumption | ].
    split; [exact Hp | ].
    split; [rewrite Hp; reflexivity | ].
    split; [rewrite Hp; unfold Scroll.measurements; cbn; f_equal; lia | ].
    split.
    + intros env doc st Hdoc Hroom. split.
      * unfold Main.requestHandler.
        destruct (Z.geb_spec (Z.of_nat (length (collectedReviews st))) maxItems);
          [lia | ].
        unfold Scroll.paginate in *.
        rewrite (loop_ext maxItems _ _ Hdoc), Hp. reflexivity.
      * fold (Main.cardCount doc (k0 + 2)). rewrite Hdoc.
        unfold Scroll.unchanged in U1, U2.
        replace (k0 + 1)%nat with (S k0) in * by lia.
        replace (k0 + 2)%nat with (S (S k0)) in * by lia.
        cbn [Scroll.previousCount] in U1, U2. congruence.
    + intros env doc st Hdoc Hpanel Hroom.
      unfold Legacy.requestHandler.
      destruct (Z.geb_spec (Z.of_nat (length (collectedReviews st))) maxItems);
        [lia | ].
      rewrite Hpanel. cbn [negb].
      unfold Scroll.paginate in *.
      rewrite (loop_ext maxItems _ _ Hdoc), Hp. reflexivity.
  - intros s currentCount Hlt Hgrow. unfold Scroll.body.
    destruct (Z.geb_spec currentCount maxItems); [lia | ].
    destruct (Z.eqb_spec currentCount (Scroll.lastReviewCount s)); [lia | ].
    reflexivity.
Qed.

Lemma stall_stops_pagination_witness :
  Scroll.paginate 100 (Main.cardCount eightCards)
  = (Scroll.NoProgress,
     {| Scroll.scrollAttempt := 3; Scroll.lastReviewCount := 8;
        Scroll.noNewReviewsCount := 3 |})
  /\ Scroll.body 100 18 {| Scroll.scrollAttempt := 4; Scroll.lastReviewCount := 8;
                           Scroll.noNewReviewsCount := 2 |}
     = Scroll.Next {| Scroll.scrollAttempt := 5; Scroll.lastReviewCount := 18;
                      Scroll.noNewReviewsCount := 0 |}.
Proof.
  assert (H : (exists k0, (k0 <= 1)%nat /\ Scroll.stallAt (Main.cardCount eightCards) k0
                 /\ Scroll.paginate 100 (Main.cardCount eightCards)
                    = (Scroll.NoProgress,
                       {| Scroll.scrollAttempt := (k0 + 2)%nat;
                          Scroll.lastReviewCount :=
                            Main.cardCount eightCards (k0 + 2)%nat;
                          Scroll.noNewReviewsCount := 3 |}))
              /\ (forall (s : Scroll.State) (currentCount : Z),
                    currentCount < 100 ->
                    Scroll.lastReviewCount s < currentCount ->
                    Scroll.body 100 currentCount s
                    = Scroll.Next
                        {| Scroll.scrollAttempt := S (Scroll.scrollAttempt s);
                           Scroll.lastReviewCount := currentCount;
                           Scroll.noNewReviewsCount := 0 |})).
  { destruct (stall_stops_pagination 100 (Main.cardCount eightCards) 1)
      as [(k0 & Hk0 & Hs & Hp & _) Hreset].
    - intros j Hj. unfold Main.cardCount, eightCards. cbn. lia.
    - repeat split.
    - vm_compute. reflexivity.
    - split; [ | exact Hreset]. exists k0. auto. }
  destruct H as [(k0 & Hk0 & Hs & Hp) Hreset]. split.
  - destruct k0 as [| [| k0]]; [ | exact Hp | lia].
    exfalso. destruct Hs as (U & _). vm_compute in U. discriminate U.
  - apply Hreset; cbn; lia.
Defined.

(** C6: for a positive cap, whatever counts the document shows, the
    scroll loop does at most [ceil(maxItems / 10) + 5] measurements and at
    most that many scrolls and settle waits; it stops with
    [IterationLimit] exactly when it has done that many full cycles, and a
    document that grows at every measurement without reaching the cap is
    stopped there all the same. *)
Theorem pagination_cycle_bound :
  forall (maxItems : Z) (count : nat -> Z),
    0 < maxItems ->
    10 * (Scroll.maxScrollAttempts maxItems - 5 - 1) < maxItems
      <= 10 * (Scroll.maxScrollAttempts maxItems - 5)
    /\ Z.of_nat (Scroll.scrolls (Scroll.paginate maxItems count))
       <= Scroll.maxScrollAttempts maxItems
    /\ Z.of_nat (Scroll.measurements (Scroll.paginate maxItems count))
       <= Scroll.maxScrollAttempts maxItems
    /\ (fst (Scroll.paginate maxItems count) = Scroll.IterationLimit
        <-> Z.of_nat (Scroll.scrolls (Scroll.paginate maxItems count))
            = Scroll.maxScrollAttempts maxItems)
    /\ ((forall i, Z.of_nat i < Scroll.maxScrollAttempts maxItems ->
                   count i < maxItems /\ ~ Scroll.unchanged count i) ->
        fst (Scroll.paginate maxItems count) = Scroll.IterationLimit).
Proof.
  intros maxItems count Hpos.
  pose proof (maxScrollAttempts_pos maxItems Hpos) as Hmax.
  pose proof (loop_scrolls maxItems count
                (Z.to_nat (Scroll.maxScrollAttempts maxItems)) Scroll.initial)
    as (Hrange & Hlimit & Hbreak).
  fold (Scroll.paginate maxItems count) in Hrange, Hlimit, Hbreak.
  cbn [Scroll.initial Scroll.scrollAttempt] in Hrange, Hlimit, Hbreak.
  split.
  { unfold Scroll.maxScrollAttempts.
    pose proof (ceilDiv_spec maxItems 10 ltac:(lia)). lia. }
  split; [lia | ].
  split.
  { unfold Scroll.measurements, Scroll.scrolls in *.
    destruct (fst (Scroll.paginate maxItems count)) eqn:E; [ | | lia];
      specialize (Hbreak ltac:(discriminate)); lia. }
  split.
  { split.
    - intros E. rewrite (Hlimit E). lia.
    - intros E.
      destruct (fst (Scroll.paginate maxItems count)) eqn:E'; [ | | reflexivity];
        specialize (Hbreak ltac:(discriminate)); lia. }
  intros Hprog. unfold Scroll.paginate.
  apply loop_progress; cbn [Scroll.initial Scroll.scrollAttempt Scroll.lastReviewCount].
  - reflexivity.
  - intros i Hi. apply Hprog. lia.
Qed.

Lemma pagination_cycle_bound_witness :
  Z.of_nat (Scroll.scrolls (Scroll.paginate 20 (fun i => Z.of_nat i + 1))) <= 7
  /\ Z.of_nat (Scroll.measurements (Scroll.paginate 20 (fun i => Z.of_nat i + 1))) <= 7.
Proof.
  pose proof (pagination_cycle_bound 20 (fun i => Z.of_nat i + 1) ltac:(lia))
    as (_ & H1 & H2 & _).
  split; [exact H1 | exact H2].
Defined.

(* ===================================================================== *)
(** * Invariants of the accumulation loop *)
(* ===================================================================== *)

Section AccumulatorFacts.
Import Accumulator.
Variable env : Env.
Variable maxItems : Z.
Variable detailed : Raw.t -> option (gmap string Z).

Lemma offer_Accepted (i : nat) (rev : Raw.t) (st st' : Session) :
  offer env maxItems detailed i rev st = Accepted st' ->
  Z.of_nat (length (collectedReviews st)) < maxItems
  /\ (Raw.reviewId rev ∉ seenIds st)
  /\ exists publishedAt,
      st' = {| collectedReviews :=
                 collectedReviews st
                 ++ [normalize detailed (Raw.reviewId rev) rev publishedAt];
               seenIds := {[ Raw.reviewId rev ]} ∪ seenIds st |}.
Proof.
  unfold offer.
  destruct (Z.geb_spec (Z.of_nat (length (collectedReviews st))) maxItems);
    [discriminate | ].
  case_bool_decide; [discriminate | ].
  destruct (Utils.parseRelativeDate _ _ _) as [p | ]; [ | discriminate].
  intros [= <-]. eauto.
Qed.

Lemma offer_Failed (i : nat) (rev : Raw.t) (st st' : Session) :
  offer env maxItems detailed i rev st = Failed st' ->
  st' = {| collectedReviews := collectedReviews st;
           seenIds := {[ Raw.reviewId rev ]} ∪ seenIds st |}.
Proof.
  unfold offer.
  destruct (Z.geb_spec (Z.of_nat (length (collectedReviews st))) maxItems);
    [discriminate | ].
  case_bool_decide; [discriminate | ].
  destruct (Utils.parseRelativeDate _ _ _) as [p | ]; [discriminate | ].
  intros [= <-]. reflexivity.
Qed.

Lemma offer_withinCap (i : nat) (rev : Raw.t) (st : Session) :
  withinCap maxItems st ->
  match offer env maxItems detailed i rev st with
  | Accepted st' | Failed st' => withinCap maxItems st'
  | CapBreak | Duplicate => True
  end.
Proof.
  intros Hst.
  destruct (offer env maxItems detailed i rev st) as [ | | st' | st'] eqn:E; trivial.
  - apply offer_Accepted in E as (Hlt & _ & p & ->).
    unfold withinCap in *. cbn. rewrite length_app. cbn. lia.
  - apply offer_Failed in E as ->. exact Hst.
Qed.

Lemma offer_sound (i : nat) (rev : Raw.t) (st : Session) :
  ratedRaw rev -> sound st ->
  match offer env maxItems detailed i rev st with
  | Accepted st' | Failed st' => sound st'
  | CapBreak | Duplicate => True
  end.
Proof.
  intros Hrev (Hd & Hs & Hr & Hc).
  destruct (offer env maxItems detailed i rev st) as [ | | st' | st'] eqn:E; trivial.
  - apply offer_Accepted in E as (_ & Hfresh & p & ->).
    unfold sound, distinctIds, idsSeen in *. cbn. repeat split.
    + rewrite fmap_app. apply NoDup_app. repeat split; [assumption | | ].
      * intros x Hx Hx'. cbn in Hx'. apply list_elem_of_singleton in Hx'. subst x.
        apply list_elem_of_fmap in Hx as (g & Hg & Hin).
        apply Hfresh. rewrite Hg. apply Hs, Hin.
      * cbn. apply NoDup_singleton.
    + intros g Hg. apply elem_of_app in Hg as [Hg | Hg].
      * apply elem_of_union_r, Hs, Hg.
      * apply list_elem_of_singleton in Hg. subst g. cbn.
        apply elem_of_union_l, elem_of_singleton. reflexivity.
    + apply Forall_app. split; [assumption | ].
      apply Forall_singleton. exact Hrev.
    + apply Forall_app. split; [assumption | ].
      apply Forall_singleton. repeat split.
  - apply offer_Failed in E as ->.
    unfold sound, distinctIds, idsSeen in *. cbn. repeat split; try assumption.
    intros g Hg. apply elem_of_union_r, Hs, Hg.
Qed.

Lemma accumulateFrom_withinCap (pageReviews : list Raw.t) (i : nat) (st : Session) :
  withinCap maxItems st ->
  withinCap maxItems (fst (accumulateFrom env maxItems detailed i pageReviews st)).
Proof.
  revert i st. induction pageReviews as [| rev rest IH]; intros i st Hst; cbn.
  - exact Hst.
  - pose proof (offer_withinCap i rev st Hst) as H.
    destruct (offer env maxItems detailed i rev st); cbn; auto.
Qed.

Lemma accumulateFrom_sound (pageReviews : list Raw.t) (i : nat) (st : Session) :
  Forall ratedRaw pageReviews -> sound st ->
  sound (fst (accumulateFrom env maxItems detailed i pageReviews st)).
Proof.
  revert i st. induction pageReviews as [| rev rest IH]; intros i st Hrevs Hst; cbn.
  - exact Hst.
  - apply Forall_cons in Hrevs as [Hrev Hrest].
    pose proof (offer_sound i rev st Hrev Hst) as H.
    destruct (offer env maxItems detailed i rev st); cbn; auto.
Qed.

(** At the cap the loop is left at once: nothing is offered any more. *)
Lemma accumulateFrom_at_cap (pageReviews : list Raw.t) (i : nat) (st : Session) :
  Z.of_nat (length (collectedReviews st)) >= maxItems ->
  accumulateFrom env maxItems detailed i pageReviews st = (st, Normal).
Proof.
  intros Hcap. destruct pageReviews as [| rev rest]; cbn; [reflexivity | ].
  unfold offer.
  destruct (Z.geb_spec (Z.of_nat (length (collectedReviews st))) maxItems);
    [reflexivity | lia].
Qed.
End AccumulatorFacts.

Lemma emptySession_sound : sound emptySession.
Proof.
  unfold sound, distinctIds, idsSeen. cbn. repeat split.
  - apply NoDup_nil_2.
  - intros g Hg. apply elem_of_nil in Hg. contradiction.
  - apply Forall_nil_2.
  - apply Forall_nil_2.
Qed.

(* ===================================================================== *)
(** * The extractors keep rated cards only *)
(* ===================================================================== *)

Lemma Main_extractCard_Some (idx : nat) (now : Z) (card : Main.Card) (r : Raw.t) :
  Main.extractCard idx now card = Some r ->
  1 <= Main.resolveStars card <= 5
  /\ Raw.stars r = Main.resolveStars card
  /\ Raw.name r = Main.resolveName card
  /\ Raw.reviewId r = Main.resolveId idx now card.
Proof.
  unfold Main.extractCard.
  destruct (Main.reviewerInfo _ _ _) as [n g].
  destruct (Z.geb_spec (Main.resolveStars card) 1);
    destruct (Z.leb_spec (Main.resolveStars card) 5); cbn; try discriminate.
  intros [= <-]. cbn. repeat split; lia.
Qed.

Lemma Main_extractCard_rated (idx : nat) (now : Z) (card : Main.Card) :
  1 <= Main.resolveStars card <= 5 ->
  exists r, Main.extractCard idx now card = Some r.
Proof.
  intros H. unfold Main.extractCard.
  destruct (Main.reviewerInfo _ _ _) as [n g].
  destruct (Z.geb_spec (Main.resolveStars card) 1);
    destruct (Z.leb_spec (Main.resolveStars card) 5); cbn; try lia.
  eauto.
Qed.

Lemma Main_extractFrom_rated (env : Env) (cards : list Main.Card) (idx : nat) :
  Forall ratedRaw (Main.extractFrom env idx cards).
Proof.
  revert idx. induction cards as [| card rest IH]; intros idx; cbn.
  - apply Forall_nil_2.
  - destruct (Main.extractCard idx (dateNow env idx) card) as [r | ] eqn:E; [ | apply IH].
    apply Forall_cons. split; [ | apply IH].
    apply Main_extractCard_Some in E as (H & E' & _).
    unfold ratedRaw. rewrite E'. exact H.
Qed.

Lemma Legacy_extractCard_Some (card : Legacy.Card) (r : Raw.t) :
  Legacy.extractCard card = Some r ->
  Legacy.dataReviewId card <> ""
  /\ 1 <= Legacy.resolveStars card <= 5
  /\ Raw.stars r = Legacy.resolveStars card
  /\ Raw.reviewId r = Legacy.dataReviewId card.
Proof.
  unfold Legacy.extractCard.
  destruct (Legacy.dataReviewId card) as [| c id] eqn:Eid; [discriminate | ].
  destruct (Legacy.reviewerInfo _ _ _) as [n g].
  destruct (Z.geb_spec (Legacy.resolveStars card) 1);
    destruct (Z.leb_spec (Legacy.resolveStars card) 5); cbn; try discriminate.
  intros [= <-]. cbn. repeat split; try lia. discriminate.
Qed.

Lemma Legacy_extractCard_rated (card : Legacy.Card) :
  Legacy.dataReviewId card <> "" -> 1 <= Legacy.resolveStars card <= 5 ->
  exists r, Legacy.extractCard card = Some r.
Proof.
  intros Hid H. unfold Legacy.extractCard.
  destruct (Legacy.dataReviewId card) as [| c id] eqn:Eid; [contradiction | ].
  destruct (Legacy.reviewerInfo _ _ _) as [n g].
  destruct (Z.geb_spec (Legacy.resolveStars card) 1);
    destruct (Z.leb_spec (Legacy.resolveStars card) 5); cbn; try lia.
  eauto.
Qed.

Lemma Legacy_extractAll_rated (cards : list Legacy.Card) :
  Forall ratedRaw (Legacy.extractAll cards).
Proof.
  unfold Legacy.extractAll. apply Forall_forall. intros r Hr.
  apply list_elem_of_omap in Hr as (card & _ & E).
  apply Legacy_extractCard_Some in E as (_ & H & E' & _).
  unfold ratedRaw. rewrite E'. exact H.
Qed.

(* ===================================================================== *)
(** * Invariants of the request handlers and of a session *)
(* ===================================================================== *)

Lemma Main_requestHandler_withinCap env maxItems doc st :
  withinCap maxItems st ->
  withinCap maxItems (fst (Main.requestHandler env maxItems doc st)).
Proof.
  intros H. unfold Main.requestHandler.
  destruct (_ >=? _); [exact H | ].
  apply accumulateFrom_withinCap, H.
Qed.

Lemma Main_requestHandler_sound env maxItems doc st :
  sound st -> sound (fst (Main.requestHandler env maxItems doc st)).
Proof.
  intros H. unfold Main.requestHandler.
  destruct (_ >=? _); [exact H | ].
  apply accumulateFrom_sound; [apply Main_extractFrom_rated | exact H].
Qed.

Lemma Legacy_requestHandler_withinCap env maxItems doc st :
  withinCap maxItems st ->
  withinCap maxItems (fst (Legacy.requestHandler env maxItems doc st)).
Proof.
  intros H. unfold Legacy.requestHandler.
  destruct (_ >=? _); [exact H | ].
  destruct (negb _); [exact H | ].
  apply accumulateFrom_withinCap, H.
Qed.

Lemma Legacy_requestHandler_sound env maxItems doc st :
  sound st -> sound (fst (Legacy.requestHandler env maxItems doc st)).
Proof.
  intros H. unfold Legacy.requestHandler.
  destruct (_ >=? _); [exact H | ].
  destruct (negb _); [exact H | ].
  apply accumulateFrom_sound; [apply Legacy_extractAll_rated | exact H].
Qed.

Lemma Main_session_withinCap maxItems runs st :
  withinCap maxItems st -> withinCap maxItems (Main.session maxItems runs st).
Proof.
  revert st. induction runs as [| [env doc] rest IH]; intros st H; cbn.
  - exact H.
  - apply IH, Main_requestHandler_withinCap, H.
Qed.

Lemma Main_session_sound maxItems runs st :
  sound st -> sound (Main.session maxItems runs st).
Proof.
  revert st. induction runs as [| [env doc] rest IH]; intros st H; cbn.
  - exact H.
  - apply IH, Main_requestHandler_sound, H.
Qed.

Lemma Legacy_session_withinCap maxItems runs st :
  withinCap maxItems st -> withinCap maxItems (Legacy.session maxItems runs st).
Proof.
  revert st. induction runs as [| [env doc] rest IH]; intros st H; cbn.
  - exact H.
  - apply IH, Legacy_requestHandler_withinCap, H.
Qed.

Lemma Legacy_session_sound maxItems runs st :
  sound st -> sound (Legacy.session maxItems runs st).
Proof.
  revert st. induction runs as [| [env doc] rest IH]; intros st H; cbn.
  - exact H.
  - apply IH, Legacy_requestHandler_sound, H.
Qed.

(* ===================================================================== *)
(** * The rating gate *)
(* ===================================================================== *)

(** C1, as stated, fails on the older handler: a card whose
    [data-review-id] attribute is empty is dropped by [if (!reviewId)
    return;] although its rating resolves to 5. *)
Lemma legacy_rated_card_without_id_dropped :
  Legacy.resolveStars (legacyCard "" (Some "5 stars") 0) = 5
  /\ Legacy.extractCard (legacyCard "" (Some "5 stars") 0) = None
  /\ ~ ((exists r, Legacy.extractCard (legacyCard "" (Some "5 stars") 0) = Some r)
        <-> 1 <= Legacy.resolveStars (legacyCard "" (Some "5 stars") 0) <= 5).
Proof.
  split; [reflexivity | ]. split; [reflexivity | ].
  intros [_ H]. destruct H as [r Hr]; [vm_compute; split; discriminate | ].
  discriminate Hr.
Qed.

(** C1 (amended): in main.ts a card yields a record if and only if its
    resolved star rating is in 1..5, and rating is the only field whose
    absence drops the card; in the older handler a card yields a record if
    and only if its [data-review-id] is not empty and its resolved rating
    (label, else count of filled stars) is in 1..5.  In both, a card without
    any rating indicator yields nothing, the record carries the resolved
    rating, and every review retained in a session has stars in 1..5. *)
Theorem rating_gate :
  (forall idx now card,
      (exists r, Main.extractCard idx now card = Some r)
      <-> 1 <= Main.resolveStars card <= 5)
  /\ (forall card,
        (exists r, Legacy.extractCard card = Some r)
        <-> (Legacy.dataReviewId card <> "" /\ 1 <= Legacy.resolveStars card <= 5))
  /\ (forall idx now card r,
        Main.extractCard idx now card = Some r ->
        Raw.stars r = Main.resolveStars card)
  /\ (forall card r,
        Legacy.extractCard card = Some r ->
        Raw.stars r = Legacy.resolveStars card)
  /\ (forall idx now card,
        Main.starLabel card = None -> Main.extractCard idx now card = None)
  /\ (forall card,
        Legacy.starLabel card = None -> Legacy.filledStars card = 0%nat ->
        Legacy.extractCard card = None)
  /\ (forall env cards, Forall ratedRaw (Main.extractAll env cards))
  /\ (forall cards, Forall ratedRaw (Legacy.extractAll cards))
  /\ (forall maxItems runs,
        Forall rated (collectedReviews (Main.session maxItems runs emptySession)))
  /\ (forall maxItems runs,
        Forall rated (collectedReviews (Legacy.session maxItems runs emptySession))).
Proof.
  repeat apply conj.
  - intros idx now card. split.
    + intros [r Hr]. apply (Main_extractCard_Some _ _ _ _ Hr).
    + apply Main_extractCard_rated.
  - intros card. split.
    + intros [r Hr]. apply Legacy_extractCard_Some in Hr as (? & ? & _). auto.
    + intros [? ?]. apply Legacy_extractCard_rated; assumption.
  - intros idx now card r Hr. apply (Main_extractCard_Some _ _ _ _ Hr).
  - intros card r Hr. apply (Legacy_extractCard_Some _ _ Hr).
  - intros idx now card Hl.
    destruct (Main.extractCard idx now card) as [r | ] eqn:E; [ | reflexivity].
    apply Main_extractCard_Some in E as (H & _).
    unfold Main.resolveStars in H. rewrite Hl in H. lia.
  - intros card Hl Hf.
    destruct (Legacy.extractCard card) as [r | ] eqn:E; [ | reflexivity].
    apply Legacy_extractCard_Some in E as (_ & H & _).
    unfold Legacy.resolveStars in H. rewrite Hl, Hf in H.
    change (1 <= 0 <= 5) in H. lia.
  - intros env cards. apply Main_extractFrom_rated.
  - apply Legacy_extractAll_rated.
  - intros maxItems runs.
    apply (Main_session_sound maxItems runs _ emptySession_sound).
  - intros maxItems runs.
    apply (Legacy_session_sound maxItems runs _ emptySession_sound).
Qed.

Lemma rating_gate_witness :
  Main.extractCard 0 1700000000000 (plainCard (Some "r-1") None (Some "Jane D.")) = None
  /\ exists r, Main.extractCard 0 1700000000000
                 (plainCard (Some "r-1") (Some "4 stars") None) = Some r.
Proof.
  split.
  - apply (proj1 (proj2 (proj2 (proj2 (proj2 rating_gate))))). reflexivity.
  - apply (proj1 rating_gate). vm_compute. split; discriminate.
Defined.

(* ===================================================================== *)
(** * The accumulator *)
(* ===================================================================== *)

(** C2: with a positive cap, the collection never holds more than
    [maxItems] reviews: not after any sequence of handler runs of either
    handler, and not after any single iteration of the accumulation loop;
    once it holds [maxItems], every offered record is turned away before its
    identity is looked at, and the loop and the handler leave the session
    as it is. *)
Theorem collected_within_cap :
  forall maxItems : Z,
    0 < maxItems ->
    (forall runs, withinCap maxItems (Main.session maxItems runs emptySession))
    /\ (forall runs, withinCap maxItems (Legacy.session maxItems runs emptySession))
    /\ (forall env detailed i rev st,
          withinCap maxItems st ->
          match Accumulator.offer env maxItems detailed i rev st with
          | Accumulator.Accepted st' | Accumulator.Failed st' => withinCap maxItems st'
          | Accumulator.CapBreak | Accumulator.Duplicate => True
          end)
    /\ (forall env detailed i rev st,
          Z.of_nat (length (collectedReviews st)) = maxItems ->
          Accumulator.offer env maxItems detailed i rev st = Accumulator.CapBreak)
    /\ (forall env detailed pageReviews st,
          Z.of_nat (length (collectedReviews st)) = maxItems ->
          Accumulator.accumulate env maxItems detailed pageReviews st = (st, Normal))
    /\ (forall env doc st,
          Z.of_nat (length (collectedReviews st)) = maxItems ->
          Main.requestHandler env maxItems doc st = (st, Normal))
    /\ (forall env doc st,
          Z.of_nat (length (collectedReviews st)) = maxItems ->
          Legacy.requestHandler env maxItems doc st = (st, Normal)).
Proof.
  intros maxItems Hpos.
  assert (H0 : withinCap maxItems emptySession) by (unfold withinCap; cbn; lia).
  repeat apply conj.
  - intros runs. apply Main_session_withinCap, H0.
  - intros runs. apply Legacy_session_withinCap, H0.
  - intros env detailed i rev st. apply offer_withinCap.
  - intros env detailed i rev st Hfull. unfold Accumulator.offer.
    destruct (Z.geb_spec (Z.of_nat (length (collectedReviews st))) maxItems);
      [reflexivity | lia].
  - intros env detailed pageReviews st Hfull.
    apply accumulateFrom_at_cap. lia.
  - intros env doc st Hfull. unfold Main.requestHandler.
    destruct (Z.geb_spec (Z.of_nat (length (collectedReviews st))) maxItems);
      [reflexivity | lia].
  - intros env doc st Hfull. unfold Legacy.requestHandler.
    destruct (Z.geb_spec (Z.of_nat (length (collectedReviews st))) maxItems);
      [reflexivity | lia].
Qed.

Lemma collected_within_cap_witness :
  withinCap 2 (Main.session 2 [(sampleEnv, threeCards); (sampleEnv, threeCards)]
                 emptySession)
  /\ Main.requestHandler sampleEnv 2 threeCards
       (Main.session 2 [(sampleEnv, threeCards)] emptySession)
     = (Main.session 2 [(sampleEnv, threeCards)] emptySession, Normal).
Proof.
  pose proof (collected_within_cap 2 ltac:(lia)) as H.
  split.
  - apply (proj1 H).
  - apply (proj1 (proj2 (proj2 (proj2 (proj2 (proj2 H)))))). reflexivity.
Defined.

(** C3: after any sequence of handler runs in one session, of either
    handler, no two collected reviews share a [reviewId]; the identity of
    every collected review is in [seenIds], and a record whose identity is
    in [seenIds] is never accepted, on whichever run or pass it comes. *)
Theorem collected_ids_distinct :
  (forall maxItems runs, distinctIds (Main.session maxItems runs emptySession))
  /\ (forall maxItems runs, distinctIds (Legacy.session maxItems runs emptySession))
  /\ (forall maxItems runs, idsSeen (Main.session maxItems runs emptySession))
  /\ (forall maxItems runs, idsSeen (Legacy.session maxItems runs emptySession))
  /\ (forall env maxItems detailed i rev st,
        Raw.reviewId rev ∈ seenIds st ->
        Accumulator.offer env maxItems detailed i rev st = Accumulator.Duplicate
        \/ Accumulator.offer env maxItems detailed i rev st = Accumulator.CapBreak).
Proof.
  repeat apply conj.
  - intros maxItems runs.
    apply (Main_session_sound maxItems runs _ emptySession_sound).
  - intros maxItems runs.
    apply (Legacy_session_sound maxItems runs _ emptySession_sound).
  - intros maxItems runs.
    apply (Main_session_sound maxItems runs _ emptySession_sound).
  - intros maxItems runs.
    apply (Legacy_session_sound maxItems runs _ emptySession_sound).
  - intros env maxItems detailed i rev st Hseen. unfold Accumulator.offer.
    destruct (_ >=? _); [right; reflexivity | ].
    case_bool_decide; [left; reflexivity | contradiction].
Qed.

Lemma collected_ids_distinct_witness :
  distinctIds (Main.session 10 [(sampleEnv, threeCards); (sampleEnv, threeCards)]
                 emptySession).
Proof.
  apply (proj1 collected_ids_distinct).
Defined.

(** C10: every review in the collection handed to [Actor.pushData], for
    any cards, configuration and runs of either handler, has
    [reviewUrl = null], [language = "en"] and [reviewOrigin = "Google"]. *)
Theorem sink_constant_fields :
  (forall maxItems runs,
      Forall constantFields (collectedReviews (Main.session maxItems runs emptySession)))
  /\ (forall maxItems runs,
        Forall constantFields
          (collectedReviews (Legacy.session maxItems runs emptySession)))
  /\ (forall detailed rid rev publishedAt,
        constantFields (Accumulator.normalize detailed rid rev publishedAt)).
Proof.
  repeat apply conj.
  - intros maxItems runs.
    apply (Main_session_sound maxItems runs _ emptySession_sound).
  - intros maxItems runs.
    apply (Legacy_session_sound maxItems runs _ emptySession_sound).
  - intros detailed rid rev publishedAt. repeat split.
Qed.

(* ===================================================================== *)
(** * The field extractor of main.ts *)
(* ===================================================================== *)

(** C7, as stated, fails: a card without [data-review-id], read twice in
    the same state, gets a different [reviewId] when the clock has moved
    by a millisecond, and when its position in the list differs. *)
Lemma synthetic_id_differs_between_runs :
  Main.extractCard 0 1700000000000 (plainCard None (Some "5 stars") None)
  <> Main.extractCard 0 1700000000001 (plainCard None (Some "5 stars") None)
  /\ Main.extractCard 0 1700000000000 (plainCard None (Some "5 stars") None)
     <> Main.extractCard 1 1700000000000 (plainCard None (Some "5 stars") None)
  /\ (Raw.reviewId <$>
        Main.extractCard 0 1700000000000 (plainCard None (Some "5 stars") None))
     = Some "g-0-1700000000000".
Proof.
  split; [ | split].
  - vm_compute. discriminate.
  - vm_compute. discriminate.
  - reflexivity.
Qed.

Lemma Main_extractCard_setReviewId (idx : nat) (now : Z) (card : Main.Card) :
  Raw.setReviewId "" <$> Main.extractCard idx now card
  = Raw.setReviewId "" <$> Main.extractCard 0 0 card.
Proof.
  unfold Main.extractCard.
  destruct (Main.reviewerInfo _ _ _) as [n g].
  destruct ((Main.resolveStars card >=? 1) && (Main.resolveStars card <=? 5));
    reflexivity.
Qed.

(** C7 (amended): running the extractor of main.ts twice on the same
    card yields records that agree in every field other than [reviewId],
    and the same decision to emit; they agree in [reviewId] too when the
    card has a non-empty [data-review-id] attribute.  Without one the
    identity is ["g-" + position + "-" + clock reading], a function of the
    position in the card list and of the wall clock. *)
Theorem extractor_deterministic_up_to_id :
  (forall card idx now idx' now',
      Raw.setReviewId "" <$> Main.extractCard idx now card
      = Raw.setReviewId "" <$> Main.extractCard idx' now' card)
  /\ (forall card id idx now idx' now',
        Main.dataReviewId card = Some id -> id <> "" ->
        Main.extractCard idx now card = Main.extractCard idx' now' card)
  /\ (forall card idx now r,
        Main.dataReviewId card = None \/ Main.dataReviewId card = Some "" ->
        Main.extractCard idx now card = Some r ->
        Raw.reviewId r
        = "g-" +:+ Js.numberToString (Z.of_nat idx) +:+ "-" +:+ Js.numberToString now).
Proof.
  repeat apply conj.
  - intros card idx now idx' now'.
    rewrite (Main_extractCard_setReviewId idx now).
    rewrite (Main_extractCard_setReviewId idx' now'). reflexivity.
  - intros card id idx now idx' now' Hid Hne.
    destruct id as [| c id]; [contradiction | ].
    unfold Main.extractCard, Main.resolveId. rewrite Hid. reflexivity.
  - intros card idx now r Hid Hr.
    apply Main_extractCard_Some in Hr as (_ & _ & _ & ->).
    unfold Main.resolveId. destruct Hid as [-> | ->]; reflexivity.
Qed.

Lemma extractor_deterministic_up_to_id_witness :
  Main.extractCard 0 1700000000000 (plainCard (Some "r-1") (Some "5 stars") None)
  = Main.extractCard 7 1700000000999 (plainCard (Some "r-1") (Some "5 stars") None).
Proof.
  apply (proj1 (proj2 extractor_deterministic_up_to_id) _ "r-1");
    [reflexivity | discriminate].
Defined.

(** C9, as stated, fails at a first-link text of exactly 60 characters:
    the card has no dedicated name element, and the name is the sentinel,
    not the link text. *)
Lemma sixty_char_link_text_not_used :
  Js.length (Js.trim linkText60) = 60
  /\ Main.resolveName (plainCard None (Some "5 stars") (Some linkText60)) = "Anonymous"
  /\ Main.resolveName (plainCard None (Some "5 stars") (Some linkText60))
     <> Js.trim linkText60
  /\ (Raw.name <$>
        Main.extractCard 0 1700000000000
          (plainCard None (Some "5 stars") (Some linkText60)))
     = Some "Anonymous".
Proof.
  repeat apply conj; try reflexivity.
  vm_compute. discriminate.
Qed.

(** C9 (amended): for a card with no dedicated author-name element, the
    name is the trimmed text of the first link if and only if that text has
    between 2 and 59 characters ([n.length > 1 && n.length < 60]);
    otherwise, and when the card has no link, it is ["Anonymous"].  For
    every card in which neither a dedicated element nor the first link
    qualifies, the name is ["Anonymous"]. *)
Theorem name_fallback_chain :
  (forall card : Main.Card,
      Main.nameDiv card = None ->
      Main.contribDiv card = None ->
      Main.buttonDiv card = None ->
      (forall content,
          Main.firstLink card = Some content ->
          (Main.resolveName card = Js.trim content
           <-> 2 <= Js.length (Js.trim content) <= 59)
          /\ (~ 2 <= Js.length (Js.trim content) <= 59 ->
              Main.resolveName card = "Anonymous"))
      /\ (Main.firstLink card = None -> Main.resolveName card = "Anonymous")
      /\ (forall idx now r,
            Main.extractCard idx now card = Some r ->
            Raw.name r = Main.resolveName card))
  /\ (forall card : Main.Card,
        ~ nameElementQualifies card -> ~ firstLinkQualifies card ->
        Main.resolveName card = "Anonymous").
Proof.
  split.
  - intros card H1 H2 H3.
    assert (Hname : Main.nameFromElement card = "Anonymous").
    { unfold Main.nameFromElement. rewrite H1, H2, H3. reflexivity. }
    repeat apply conj.
    + intros content Hlink.
      unfold Main.resolveName. rewrite Hname, Hlink.
      change (String.eqb "Anonymous" "Anonymous") with true. cbv iota zeta.
      destruct (Z.gtb_spec (Js.length (Js.trim content)) 1) as [Hlo | Hlo];
        destruct (Z.ltb_spec (Js.length (Js.trim content)) 60) as [Hhi | Hhi];
        cbn [andb]; (split; [split | ]); intros; try reflexivity; try lia;
        match goal with
        | H : "Anonymous" = Js.trim content |- _ =>
            rewrite <- H in *; change (Js.length "Anonymous") with 9 in *; lia
        end.
    + intros Hlink. unfold Main.resolveName. rewrite Hname, Hlink. reflexivity.
    + intros idx now r Hr. apply (Main_extractCard_Some _ _ _ _ Hr).
  - intros card Hel Hlink.
    assert (Hname : Main.nameFromElement card = "Anonymous").
    { unfold Main.nameFromElement.
      destruct (Js.orElse _ _) as [content | ] eqn:E; [ | reflexivity].
      destruct (Z.gtb_spec (Js.length (Js.trim content)) 0) as [Hlo | Hlo];
        destruct (Z.ltb_spec (Js.length (Js.trim content)) 80) as [Hhi | Hhi];
        cbn [andb]; try reflexivity.
      exfalso. apply Hel. exists content. split; [exact E | lia]. }
    unfold Main.resolveName. rewrite Hname.
    change (String.eqb "Anonymous" "Anonymous") with true. cbv iota zeta.
    destruct (Main.firstLink card) as [content | ] eqn:E; [ | reflexivity].
    destruct (Z.gtb_spec (Js.length (Js.trim content)) 1) as [Hlo | Hlo];
      destruct (Z.ltb_spec (Js.length (Js.trim content)) 60) as [Hhi | Hhi];
      cbn [andb]; try reflexivity.
    exfalso. apply Hlink. exists content. split; [exact E | lia].
Qed.

Lemma name_fallback_chain_witness :
  Main.resolveName (plainCard None (Some "5 stars") (Some linkText59)) = linkText59.
Proof.
  destruct (proj1 name_fallback_chain
              (plainCard None (Some "5 stars") (Some linkText59))
              eq_refl eq_refl eq_refl) as (H & _).
  destruct (H linkText59 eq_refl) as ((_ & Huse) & _).
  apply Huse. vm_compute. split; discriminate.
Defined.

(* ===================================================================== *)
(** * Further properties of the accumulation loop *)
(* ===================================================================== *)

Section AccumulatorOrder.
Import Accumulator.
Variable env : Env.
Variable maxItems : Z.
Variable detailed : Raw.t -> option (gmap string Z).

Lemma room_full (st : Session) :
  Z.of_nat (length (collectedReviews st)) >= maxItems -> room maxItems st = 0%nat.
Proof. unfold room. lia. Qed.

Lemma accumulateFrom_ids (pageReviews : list Raw.t) (i : nat) (st st' : Session) :
  accumulateFrom env maxItems detailed i pageReviews st = (st', Normal) ->
  reviewId <$> collectedReviews st'
  = (reviewId <$> collectedReviews st)
    ++ take (room maxItems st) (firstSeen (seenIds st) (Raw.reviewId <$> pageReviews)).
Proof.
  revert i st. induction pageReviews as [| rev rest IH]; intros i st; cbn.
  - intros [= <-]. rewrite take_nil, app_nil_r. reflexivity.
  - destruct (offer env maxItems detailed i rev st) as [ | | st1 | st1] eqn:E.
    + intros [= <-]. unfold offer in E.
      destruct (Z.geb_spec (Z.of_nat (length (collectedReviews st))) maxItems)
        as [Hfull | Hroom].
      * rewrite room_full by lia. rewrite take_0, app_nil_r. reflexivity.
      * case_bool_decide; [discriminate | ].
        destruct (Utils.parseRelativeDate _ _ _); discriminate.
    + intros H. rewrite (IH _ _ H). unfold offer in E.
      destruct (Z.geb_spec (Z.of_nat (length (collectedReviews st))) maxItems);
        [discriminate | ].
      case_bool_decide as Hin; [reflexivity | ].
      destruct (Utils.parseRelativeDate _ _ _); discriminate.
    + intros H. rewrite (IH _ _ H).
      apply offer_Accepted in E as (Hlt & Hfresh & p & ->).
      rewrite bool_decide_false by exact Hfresh.
      unfold room. cbn [collectedReviews seenIds].
      rewrite fmap_app, length_app. cbn [fmap list_fmap length reviewId normalize].
      replace (Z.to_nat (maxItems - Z.of_nat (length (collectedReviews st))))
        with (S (Z.to_nat (maxItems - Z.of_nat (length (collectedReviews st) + 1))))
        by lia.
      rewrite <- app_assoc. reflexivity.
    + discriminate.
Qed.

Lemma accumulateFrom_grows (pageReviews : list Raw.t) (i : nat) (st : Session) :
  collectedReviews st
    `prefix_of` collectedReviews (fst (accumulateFrom env maxItems detailed i pageReviews st))
  /\ seenIds st ⊆ seenIds (fst (accumulateFrom env maxItems detailed i pageReviews st)).
Proof.
  revert i st. induction pageReviews as [| rev rest IH]; intros i st; cbn.
  - split; reflexivity.
  - destruct (offer env maxItems detailed i rev st) as [ | | st1 | st1] eqn:E; cbn.
    + split; reflexivity.
    + apply IH.
    + apply offer_Accepted in E as (_ & _ & p & ->).
      destruct (IH (S i)
                  {| collectedReviews :=
                       collectedReviews st
                       ++ [normalize detailed (Raw.reviewId rev) rev p];
                     seenIds := {[Raw.reviewId rev]} ∪ seenIds st |}) as [Hp Hs].
      cbn [collectedReviews seenIds] in Hp, Hs. split.
      * etransitivity; [ | exact Hp]. apply prefix_app_r. reflexivity.
      * intros x Hx. apply Hs, elem_of_union_r, Hx.
    + apply offer_Failed in E as ->. cbn. split; [reflexivity | ].
      intros x Hx. apply elem_of_union_r, Hx.
Qed.

Lemma offer_lost (rid : string) (i : nat) (rev : Raw.t) (st : Session) :
  lost rid st ->
  match offer env maxItems detailed i rev st with
  | Accepted st' | Failed st' => lost rid st'
  | CapBreak | Duplicate => True
  end.
Proof.
  intros [Hseen Hnot].
  destruct (offer env maxItems detailed i rev st) as [ | | st1 | st1] eqn:E; trivial.
  - apply offer_Accepted in E as (_ & Hfresh & p & ->).
    unfold lost. cbn [collectedReviews seenIds].
    split; [apply elem_of_union_r, Hseen | ].
    rewrite fmap_app. cbn. intros Hin. apply elem_of_app in Hin as [Hin | Hin].
    + contradiction.
    + apply list_elem_of_singleton in Hin. subst rid. contradiction.
  - apply offer_Failed in E as ->. unfold lost. cbn.
    split; [apply elem_of_union_r, Hseen | exact Hnot].
Qed.

Lemma accumulateFrom_lost (rid : string) (pageReviews : list Raw.t) (i : nat)
    (st : Session) :
  lost rid st ->
  lost rid (fst (accumulateFrom env maxItems detailed i pageReviews st)).
Proof.
  revert i st. induction pageReviews as [| rev rest IH]; intros i st Hst; cbn.
  - exact Hst.
  - pose proof (offer_lost rid i rev st Hst) as H.
    destruct (offer env maxItems detailed i rev st); cbn; auto.
Qed.
End AccumulatorOrder.

Lemma Main_session_grows maxItems runs st :
  collectedReviews st `prefix_of` collectedReviews (Main.session maxItems runs st)
  /\ seenIds st ⊆ seenIds (Main.session maxItems runs st).
Proof.
  revert st. induction runs as [| [env doc] rest IH]; intros st; cbn.
  - split; reflexivity.
  - destruct (IH (fst (Main.requestHandler env maxItems doc st))) as [Hp Hs].
    assert (Hstep : collectedReviews st
                      `prefix_of` collectedReviews (fst (Main.requestHandler env maxItems doc st))
                    /\ seenIds st ⊆ seenIds (fst (Main.requestHandler env maxItems doc st))).
    { unfold Main.requestHandler. destruct (_ >=? _); [split; reflexivity | ].
      apply accumulateFrom_grows. }
    destruct Hstep as [Hp' Hs']. split.
    + etransitivity; eassumption.
    + etransitivity; eassumption.
Qed.

Lemma Legacy_session_grows maxItems runs st :
  collectedReviews st `prefix_of` collectedReviews (Legacy.session maxItems runs st)
  /\ seenIds st ⊆ seenIds (Legacy.session maxItems runs st).
Proof.
  revert st. induction runs as [| [env doc] rest IH]; intros st; cbn.
  - split; reflexivity.
  - destruct (IH (fst (Legacy.requestHandler env maxItems doc st))) as [Hp Hs].
    assert (Hstep : collectedReviews st
                      `prefix_of` collectedReviews (fst (Legacy.requestHandler env maxItems doc st))
                    /\ seenIds st ⊆ seenIds (fst (Legacy.requestHandler env maxItems doc st))).
    { unfold Legacy.requestHandler. destruct (_ >=? _); [split; reflexivity | ].
      destruct (negb _); [split; reflexivity | ].
      apply accumulateFrom_grows. }
    destruct Hstep as [Hp' Hs']. split.
    + etransitivity; eassumption.
    + etransitivity; eassumption.
Qed.

Lemma Main_session_lost rid maxItems runs st :
  lost rid st -> lost rid (Main.session maxItems runs st).
Proof.
  revert st. induction runs as [| [env doc] rest IH]; intros st H; cbn.
  - exact H.
  - apply IH. unfold Main.requestHandler. destruct (_ >=? _); [exact H | ].
    apply accumulateFrom_lost, H.
Qed.

Lemma Legacy_session_lost rid maxItems runs st :
  lost rid st -> lost rid (Legacy.session maxItems runs st).
Proof.
  revert st. induction runs as [| [env doc] rest IH]; intros st H; cbn.
  - exact H.
  - apply IH. unfold Legacy.requestHandler. destruct (_ >=? _); [exact H | ].
    destruct (negb _); [exact H | ].
    apply accumulateFrom_lost, H.
Qed.

(** X1: when the accumulation loop ends normally, the identities it
    has added are, in page order, the first identities of the page that
    were not seen before, each once, as many as there was room for under
    the cap; what was collected before stays in front, in its order. *)
Theorem accumulate_first_seen_order :
  forall env maxItems detailed (pageReviews : list Raw.t) (st st' : Session),
    Accumulator.accumulate env maxItems detailed pageReviews st = (st', Normal) ->
    reviewId <$> collectedReviews st'
    = (reviewId <$> collectedReviews st)
      ++ take (room maxItems st)
           (firstSeen (seenIds st) (Raw.reviewId <$> pageReviews)).
Proof.
  intros env maxItems detailed pageReviews st st' H.
  apply (accumulateFrom_ids env maxItems detailed pageReviews 0 st st' H).
Qed.

Lemma accumulate_first_seen_order_witness :
  reviewId <$> collectedReviews
    (fst (Main.accumulate sampleEnv 2 (Main.extractAll sampleEnv (threeCards 0%nat))
            emptySession))
  = ["r-1"; "r-2"].
Proof.
  rewrite (accumulate_first_seen_order sampleEnv 2 (fun _ => None)
             (Main.extractAll sampleEnv (threeCards 0%nat)) emptySession
             (fst (Main.accumulate sampleEnv 2
                     (Main.extractAll sampleEnv (threeCards 0%nat)) emptySession))).
  - vm_compute. reflexivity.
  - vm_compute. reflexivity.
Defined.

(** X2: over any sequence of handler runs on one session, of either
    handler, the reviews already collected stay where they are: the
    collection only grows at its end, and no identity leaves [seenIds]. *)
Theorem collected_append_only :
  (forall maxItems runs st,
      (collectedReviews st `prefix_of` collectedReviews (Main.session maxItems runs st))
      /\ seenIds st ⊆ seenIds (Main.session maxItems runs st))
  /\ (forall maxItems runs st,
        (collectedReviews st
           `prefix_of` collectedReviews (Legacy.session maxItems runs st))
        /\ seenIds st ⊆ seenIds (Legacy.session maxItems runs st)).
Proof.
  split; intros maxItems runs st.
  - apply Main_session_grows.
  - apply Legacy_session_grows.
Qed.

(** X3: a record whose date makes [toISOString] throw is lost for the
    session: its identity was put in [seenIds] before the throw, so no
    later pass or retry of either handler ever collects a review with that
    identity. *)
Theorem review_lost_after_range_error :
  forall env maxItems detailed i (rev : Raw.t) (st st' : Session),
    idsSeen st ->
    Accumulator.offer env maxItems detailed i rev st = Accumulator.Failed st' ->
    (forall runs,
        Raw.reviewId rev ∉ (reviewId <$> collectedReviews (Main.session maxItems runs st')))
    /\ (forall runs,
          Raw.reviewId rev
            ∉ (reviewId <$> collectedReviews (Legacy.session maxItems runs st'))).
Proof.
  intros env maxItems detailed i rev st st' Hseen Hoffer.
  assert (Hlost : lost (Raw.reviewId rev) st').
  { pose proof (offer_Failed _ _ _ _ _ _ _ Hoffer) as ->.
    unfold lost. cbn [collectedReviews seenIds]. split.
    - apply elem_of_union_l, elem_of_singleton. reflexivity.
    - intros Hin. apply list_elem_of_fmap in Hin as (g & Hg & Hin).
      unfold Accumulator.offer in Hoffer.
      destruct (_ >=? _); [discriminate | ].
      case_bool_decide as Hfresh; [discriminate | ].
      apply Hfresh. rewrite Hg. apply Hseen, Hin. }
  split; intros runs.
  - apply (Main_session_lost _ maxItems runs _ Hlost).
  - apply (Legacy_session_lost _ maxItems runs _ Hlost).
Qed.

Lemma review_lost_after_range_error_witness :
  "r-9" ∉ (reviewId <$> collectedReviews
             (Main.session 10 [(sampleEnv, threeCards)]
                {| collectedReviews := []; seenIds := {[ "r-9" ]} ∪ ∅ |})).
Proof.
  assert (Hoffer : Accumulator.offer sampleEnv 10 (fun _ => None) 0 farPastRecord
                     emptySession
                   = Accumulator.Failed
                       {| collectedReviews := []; seenIds := {[ "r-9" ]} ∪ ∅ |})
    by (vm_compute; reflexivity).
  apply (proj1 (review_lost_after_range_error sampleEnv 10 (fun _ => None) 0%nat
                  farPastRecord emptySession
                  {| collectedReviews := []; seenIds := {[ "r-9" ]} ∪ ∅ |}
                  (proj1 (proj2 emptySession_sound)) Hoffer)).
Defined.

(* ===================================================================== *)
(** * Further properties of the scroll loop *)
(* ===================================================================== *)

Section ScrollReasons.
Import Scroll.
Variable maxItems : Z.
Variable count : nat -> Z.

Lemma loop_reasons (remaining : nat) (s : State) (c : nat) :
  lastReviewCount s = previousCount count (scrollAttempt s) ->
  noNewReviewsCount s = Z.of_nat c -> (c <= 2)%nat -> (c <= scrollAttempt s)%nat ->
  (forall m, (scrollAttempt s - c <= m < scrollAttempt s)%nat -> unchanged count m) ->
  (forall j, (j < scrollAttempt s)%nat -> count j < maxItems) ->
  let r := loop maxItems count remaining s in
  (forall j, (j < scrolls r)%nat -> count j < maxItems)
  /\ (fst r = CapReached -> count (scrolls r) >= maxItems)
  /\ (fst r = NoProgress ->
      count (scrolls r) < maxItems
      /\ exists k, scrolls r = (k + 2)%nat /\ stallAt count k).
Proof.
  revert s c. induction remaining as [| n IH];
    intros s c Hlast Hc Hc2 Hci Hrun Hunder; cbn [loop].
  - unfold scrolls; cbn. repeat split; try discriminate. exact Hunder.
  - unfold body.
    destruct (Z.geb_spec (count (scrollAttempt s)) maxItems) as [Hcap | Hlt].
    { unfold scrolls; cbn. repeat split; try discriminate; [exact Hunder | lia]. }
    assert (Hunder' : forall j, (j < S (scrollAttempt s))%nat -> count j < maxItems).
    { intros j Hj. destruct (Nat.eq_dec j (scrollAttempt s)) as [-> | Hne];
        [exact Hlt | apply Hunder; lia]. }
    destruct (Z.eqb_spec (count (scrollAttempt s)) (lastReviewCount s)) as [Heq | Hne].
    + assert (Hu : unchanged count (scrollAttempt s)).
      { unfold unchanged. congruence. }
      destruct (Z.geb_spec (noNewReviewsCount s + 1) 3) as [Hge | Hlt3].
      * unfold scrolls; cbn. split; [exact Hunder | ]. split; [discriminate | ].
        intros _. split; [exact Hlt | ].
        assert (c = 2%nat) by lia. subst c.
        exists (scrollAttempt s - 2)%nat. split; [lia | ].
        repeat split.
        -- apply Hrun. lia.
        -- apply Hrun. lia.
        -- replace (scrollAttempt s - 2 + 2)%nat with (scrollAttempt s) by lia.
           exact Hu.
      * apply (IH _ (S c));
          cbn [scrollAttempt lastReviewCount noNewReviewsCount previousCount];
          try lia; try reflexivity; try assumption.
        intros m Hm.
        destruct (Nat.eq_dec m (scrollAttempt s)) as [-> | Hneq]; [assumption | ].
        apply Hrun. lia.
    + apply (IH _ 0%nat);
        cbn [scrollAttempt lastReviewCount noNewReviewsCount previousCount];
        try lia; try reflexivity; try assumption.
Qed.
End ScrollReasons.

(** X4: whatever the page shows, every measurement that was followed by
    a scroll found fewer cards than the cap; a stop with [CapReached] means
    the last measurement found at least [maxItems] cards; a stop with
    [NoProgress] happens only under the cap and only at the third of three
    consecutive unchanged measurements. *)
Theorem paginate_stop_reasons :
  forall (maxItems : Z) (count : nat -> Z),
    (forall j, (j < Scroll.scrolls (Scroll.paginate maxItems count))%nat ->
               count j < maxItems)
    /\ (fst (Scroll.paginate maxItems count) = Scroll.CapReached ->
        count (Scroll.scrolls (Scroll.paginate maxItems count)) >= maxItems)
    /\ (fst (Scroll.paginate maxItems count) = Scroll.NoProgress ->
        count (Scroll.scrolls (Scroll.paginate maxItems count)) < maxItems
        /\ exists k,
            Scroll.scrolls (Scroll.paginate maxItems count) = (k + 2)%nat
            /\ Scroll.stallAt count k).
Proof.
  intros maxItems count. unfold Scroll.paginate.
  apply (loop_reasons maxItems count _ Scroll.initial 0%nat);
    cbn [Scroll.initial Scroll.scrollAttempt Scroll.lastReviewCount
         Scroll.noNewReviewsCount Scroll.previousCount];
    try reflexivity; try lia; intros; lia.
Qed.

Lemma paginate_stop_reasons_witness :
  Main.cardCount threeCards
    (Scroll.scrolls (Scroll.paginate 3 (Main.cardCount threeCards))) >= 3.
Proof.
  apply (proj1 (proj2 (paginate_stop_reasons 3 (Main.cardCount threeCards)))).
  reflexivity.
Defined.

(* ===================================================================== *)
(** * Further properties of texts and of the two regular expressions *)
(* ===================================================================== *)

Section Texts.
Import Js Utils.

Lemma append_cons (c : ascii) (s t : string) :
  String c s +:+ t = String c (s +:+ t).
Proof. reflexivity. Qed.

Lemma append_nil_r (s : string) : s +:+ "" = s.
Proof.
  induction s as [| c s IH]; [reflexivity | ].
  rewrite append_cons, IH. reflexivity.
Qed.

Lemma append_assoc (a b c : string) : (a +:+ b) +:+ c = a +:+ b +:+ c.
Proof.
  induction a as [| x a IH]; [reflexivity | ].
  rewrite !append_cons, IH. reflexivity.
Qed.

Lemma rev_app_spec (s1 s2 : string) : String.rev_app s1 s2 = String.rev s1 +:+ s2.
Proof.
  revert s2. induction s1 as [| c s1 IH]; intros s2.
  - reflexivity.
  - change (String.rev_app (String c s1) s2) with (String.rev_app s1 (String c s2)).
    change (String.rev (String c s1)) with (String.rev_app s1 (String c "")).
    rewrite (IH (String c s2)), (IH (String c "")), append_assoc. reflexivity.
Qed.

Lemma rev_cons (c : ascii) (s : string) :
  String.rev (String c s) = String.rev s +:+ String c "".
Proof.
  change (String.rev (String c s)) with (String.rev_app s (String c "")).
  apply rev_app_spec.
Qed.

Lemma rev_append (a b : string) : String.rev (a +:+ b) = String.rev b +:+ String.rev a.
Proof.
  induction a as [| c a IH].
  - change ("" +:+ b) with b. change (String.rev "") with "".
    rewrite append_nil_r. reflexivity.
  - rewrite append_cons, !rev_cons, IH, append_assoc. reflexivity.
Qed.

Lemma rev_rev (s : string) : String.rev (String.rev s) = s.
Proof.
  induction s as [| c s IH]; [reflexivity | ].
  rewrite rev_cons, rev_append, IH. reflexivity.
Qed.

Lemma every_append (p : ascii -> bool) (a b : string) :
  every p (a +:+ b) = every p a && every p b.
Proof.
  induction a as [| c a IH]; [reflexivity | ].
  rewrite append_cons. simpl. rewrite IH, andb_assoc. reflexivity.
Qed.

(** Leading white space is removed from the part before a character
    that is not white space, and from nothing else. *)
Lemma trimStart_append (p x : string) :
  x <> "" -> stopsAt isSpace x -> trimStart (p +:+ x) = trimStart p +:+ x.
Proof.
  intros Hne Hx. induction p as [| c p IH].
  - destruct x as [| cx x']; [contradiction | ]. simpl in *. rewrite Hx. reflexivity.
  - rewrite append_cons. simpl. destruct (isSpace c); [exact IH | reflexivity].
Qed.

Lemma trimStart_stops (x : string) : stopsAt isSpace x -> trimStart x = x.
Proof. destruct x as [| c x]; simpl; [reflexivity | intros ->; reflexivity]. Qed.

(** Trailing white space is removed from the part after a character
    that is not white space, and from nothing else. *)
Lemma trimEnd_append (a : string) (c : ascii) (b : string) :
  isSpace c = false ->
  trimEnd (a +:+ String c b) = a +:+ String c (trimEnd b).
Proof.
  intros Hc. unfold trimEnd.
  rewrite rev_append, rev_cons, append_assoc.
  rewrite (trimStart_append (String.rev b) (String c "" +:+ String.rev a)).
  - rewrite rev_append, rev_append, rev_rev, append_assoc. reflexivity.
  - discriminate.
  - exact Hc.
Qed.

Lemma every_rev (p : ascii -> bool) (s : string) :
  every p (String.rev s) = every p s.
Proof.
  induction s as [| c s IH]; [reflexivity | ].
  rewrite rev_cons, every_append, IH. simpl. rewrite andb_true_r, andb_comm.
  reflexivity.
Qed.

Lemma trimStart_ink (p q : string) :
  every isSpace p = false -> trimStart (p +:+ q) = trimStart p +:+ q.
Proof.
  induction p as [| c p IH]; [discriminate | ].
  rewrite append_cons. simpl. destruct (isSpace c); [exact IH | reflexivity].
Qed.

(** Trailing white space is only removed after the last character that
    is not white space. *)
Lemma trimEnd_ink (a b : string) :
  every isSpace b = false -> trimEnd (a +:+ b) = a +:+ trimEnd b.
Proof.
  intros Hb. unfold trimEnd.
  rewrite rev_append, trimStart_ink by (rewrite every_rev; exact Hb).
  rewrite rev_append, rev_rev. reflexivity.
Qed.

Lemma toLowerCase_append (a b : string) :
  toLowerCase (a +:+ b) = toLowerCase a +:+ toLowerCase b.
Proof.
  induction a as [| c a IH]; [reflexivity | ].
  rewrite append_cons. simpl. rewrite IH. reflexivity.
Qed.

Lemma lowerChar_foldChar (c : ascii) : lowerChar (foldChar c) = lowerChar c.
Proof. destruct c as [[] [] [] [] [] [] [] []]; reflexivity. Qed.

Lemma toLowerCase_foldCase (t : string) : toLowerCase (foldCase t) = toLowerCase t.
Proof.
  induction t as [| c t IH]; simpl; [reflexivity | ].
  rewrite lowerChar_foldChar, IH. reflexivity.
Qed.

Lemma lowerChar_digit (c : ascii) : isDigit c = true -> lowerChar c = c.
Proof. destruct c as [[] [] [] [] [] [] [] []]; vm_compute; congruence. Qed.

Lemma lowerChar_space (c : ascii) : isSpace c = true -> lowerChar c = c.
Proof. destruct c as [[] [] [] [] [] [] [] []]; vm_compute; congruence. Qed.

Lemma isDigit_not_space (c : ascii) : isDigit c = true -> isSpace c = false.
Proof. destruct c as [[] [] [] [] [] [] [] []]; vm_compute; congruence. Qed.

Lemma toLowerCase_every (p : ascii -> bool) (s : string) :
  (forall c, p c = true -> lowerChar c = c) -> every p s = true -> toLowerCase s = s.
Proof.
  intros Hp. induction s as [| c s IH]; simpl; [reflexivity | ].
  intros H. apply andb_prop in H as [Hc Hs]. rewrite (Hp c Hc), (IH Hs). reflexivity.
Qed.

Lemma toLowerCase_unitWord (u : Unit) : toLowerCase (unitWord u) = unitWord u.
Proof. destruct u; reflexivity. Qed.

Lemma every_nonempty_ink (p : ascii -> bool) (s : string) :
  s <> "" -> every p s = true -> (forall c, p c = true -> isSpace c = false) ->
  every isSpace s = false.
Proof.
  intros Hne Hs Hp. destruct s as [| c s]; [contradiction | ].
  simpl in *. apply andb_prop in Hs as [Hc _]. rewrite (Hp c Hc). reflexivity.
Qed.

(** A text that ends in, or goes on with, [ago] is not all white space. *)
Ltac ink :=
  rewrite ?every_append; change (every isSpace "ago") with false;
  rewrite ?andb_false_l, ?andb_false_r; reflexivity.

Lemma trimEnd_ago (post : string) : trimEnd ("ago" +:+ post) = "ago" +:+ trimEnd post.
Proof. apply (trimEnd_append "ag" "o" post). reflexivity. Qed.

(** Lower-casing keeps a text of the first shape in that shape. *)
Lemma pluralShape_lower (us : list Unit) (s : string) :
  pluralShape us s -> pluralShape us (toLowerCase s).
Proof.
  intros (pre & ds & w1 & u & pl & w2 & post & -> & Hds & Hds' & Hw1 & Hw1'
          & Hin & Hpl & Hw2 & Hw2').
  exists (toLowerCase pre), ds, w1, u, pl, w2, (toLowerCase post).
  split; [ | repeat split; assumption].
  rewrite !toLowerCase_append.
  rewrite (toLowerCase_every isDigit ds lowerChar_digit Hds').
  rewrite (toLowerCase_every isSpace w1 lowerChar_space Hw1').
  rewrite (toLowerCase_every isSpace w2 lowerChar_space Hw2').
  rewrite toLowerCase_unitWord.
  destruct Hpl as [-> | ->]; reflexivity.
Qed.

(** Trimming keeps a text of the first shape in that shape. *)
Lemma pluralShape_trim (us : list Unit) (s : string) :
  pluralShape us s -> pluralShape us (trim s).
Proof.
  intros (pre & ds & w1 & u & pl & w2 & post & -> & Hds & Hds' & Hw1 & Hw1'
          & Hin & Hpl & Hw2 & Hw2').
  exists (trimStart pre), ds, w1, u, pl, w2, (trimEnd post).
  split; [ | repeat split; assumption].
  unfold trim.
  rewrite trimStart_append.
  - rewrite trimEnd_ink by ink.
    rewrite trimEnd_ink by ink.
    rewrite trimEnd_ink by ink.
    rewrite trimEnd_ink by ink.
    rewrite trimEnd_ink by ink.
    rewrite trimEnd_ink by ink.
    rewrite trimEnd_ago. reflexivity.
  - destruct ds; [contradiction | discriminate].
  - destruct ds as [| c ds]; [contradiction | ]. simpl in *.
    apply andb_prop in Hds' as [Hc _]. apply isDigit_not_space, Hc.
Qed.

(** A text of the second shape is left as it is by lower-casing and by
    trimming. *)
Lemma singleShape_fixed (us : list Unit) (s : string) :
  singleShape us s -> trim (toLowerCase s) = s.
Proof.
  intros (art & w1 & u & w2 & -> & Hart & Hw1 & Hw1' & Hin & Hw2 & Hw2').
  rewrite !toLowerCase_append.
  rewrite (toLowerCase_every isSpace w1 lowerChar_space Hw1').
  rewrite (toLowerCase_every isSpace w2 lowerChar_space Hw2').
  rewrite toLowerCase_unitWord.
  replace (toLowerCase art) with art by (destruct Hart as [-> | ->]; reflexivity).
  change (toLowerCase "ago") with "ago".
  unfold trim. rewrite trimStart_stops by (destruct Hart as [-> | ->]; reflexivity).
  rewrite trimEnd_ink by ink.
  rewrite trimEnd_ink by ink.
  rewrite trimEnd_ink by ink.
  rewrite trimEnd_ink by ink.
  reflexivity.
Qed.

Lemma shape_units_incl (us us' : list Unit) (s : string) :
  (forall u, In u us -> In u us') ->
  (pluralShape us s -> pluralShape us' s) /\ (singleShape us s -> singleShape us' s).
Proof.
  intros Hincl. split.
  - intros (pre & ds & w1 & u & pl & w2 & post & H & Hds & Hds' & Hw1 & Hw1'
            & Hin & Hrest).
    exists pre, ds, w1, u, pl, w2, post. repeat split; try assumption; try tauto.
    apply Hincl, Hin.
  - intros (art & w1 & u & w2 & H & Hart & Hw1 & Hw1' & Hin & Hrest).
    exists art, w1, u, w2. repeat split; try assumption; try tauto.
    apply Hincl, Hin.
Qed.

(** A text of the second shape has no digit, a text of the first shape
    has one. *)
Lemma singleShape_no_digit (us : list Unit) (s : string) :
  singleShape us s -> every notDigit s = true.
Proof.
  intros (art & w1 & u & w2 & -> & Hart & Hw1 & Hw1' & Hin & Hw2 & Hw2').
  assert (Hsp : forall w, every isSpace w = true -> every notDigit w = true).
  { induction w as [| c w IH]; simpl; [reflexivity | ].
    intros H. apply andb_prop in H as [Hc Hw].
    unfold notDigit at 1. rewrite (isSpace_not_digit c Hc), (IH Hw). reflexivity. }
  rewrite !every_append, (Hsp w1 Hw1'), (Hsp w2 Hw2').
  replace (every notDigit art) with true by (destruct Hart as [-> | ->]; reflexivity).
  replace (every notDigit (unitWord u)) with true by (destruct u; reflexivity).
  reflexivity.
Qed.

Lemma pluralShape_digit (us : list Unit) (s : string) :
  pluralShape us s -> every notDigit s = false.
Proof.
  intros (pre & ds & w1 & u & pl & w2 & post & -> & Hds & Hds' & _).
  rewrite !every_append.
  replace (every notDigit ds) with false.
  - rewrite andb_false_l, andb_false_r. reflexivity.
  - destruct ds as [| c ds]; [contradiction | ]. simpl in *.
    apply andb_prop in Hds' as [Hc _]. unfold notDigit at 1. rewrite Hc. reflexivity.
Qed.

Lemma singleMatch_excludes_plural (us us' : list Unit) (s : string) (u : Unit) :
  singleMatch us s = Some u -> pluralMatch us' s = None.
Proof.
  intros Hs.
  assert (Hshape : singleShape us s) by (apply singleMatch_shape; eauto).
  destruct (pluralMatch us' s) as [m | ] eqn:E; [ | reflexivity].
  assert (Hp : pluralShape us' s) by (apply pluralMatch_shape; eauto).
  apply singleShape_no_digit in Hshape. apply pluralShape_digit in Hp. congruence.
Qed.
End Texts.

(* ===================================================================== *)
(** * Further properties of the relative-time normaliser *)
(* ===================================================================== *)

Lemma subtractOne_is_one (tza : JsDate.TimeZone) (T : Z) (u : Utils.Unit) :
  Utils.subtractOne tza T u = Utils.subtractUnits tza T u 1.
Proof.
  destruct u; cbn [Utils.subtractOne Utils.subtractUnits];
    rewrite ?Z.mul_1_l; reflexivity.
Qed.

Lemma relativeDate_plural (tza : JsDate.TimeZone) (T : Z) (text ds : string)
    (u : Utils.Unit) :
  Utils.pluralMatch Utils.allUnits (Js.trim (Js.toLowerCase text)) = Some (ds, u) ->
  Utils.relativeDate tza T text = Utils.subtractUnits tza T u (Js.parseInt ds).
Proof. intros H. unfold Utils.relativeDate. rewrite H. reflexivity. Qed.

(** X5: the article form means an amount of one.  When the second
    regular expression accepts the text with unit [u], the result is that
    of subtracting 1 [u] by the first switch (the first expression cannot
    match such a text, which has no digit); so ["a <unit> ago"] gives what
    ["1 <unit> ago"] gives, and ["a week ago"] what ["7 days ago"] gives. *)
Theorem article_means_one :
  forall (tza : JsDate.TimeZone) (T : Z),
    (forall text u,
        Utils.singleMatch Utils.allUnits (Js.trim (Js.toLowerCase text)) = Some u ->
        Utils.relativeDate tza T text = Utils.subtractUnits tza T u 1)
    /\ (forall u,
          Utils.relativeDate tza T ("a " +:+ Utils.unitWord u +:+ " ago")
          = Utils.relativeDate tza T ("1 " +:+ Utils.unitWord u +:+ " ago")
          /\ Utils.relativeDate tza T ("an " +:+ Utils.unitWord u +:+ " ago")
             = Utils.relativeDate tza T ("1 " +:+ Utils.unitWord u +:+ "s ago"))
    /\ Utils.relativeDate tza T "a week ago" = Utils.relativeDate tza T "7 days ago".
Proof.
  intros tza T.
  assert (Hgen : forall text u,
             Utils.singleMatch Utils.allUnits (Js.trim (Js.toLowerCase text)) = Some u ->
             Utils.relativeDate tza T text = Utils.subtractUnits tza T u 1).
  { intros text u Hs. unfold Utils.relativeDate.
    rewrite (singleMatch_excludes_plural _ Utils.allUnits _ _ Hs), Hs.
    apply subtractOne_is_one. }
  split; [exact Hgen | ]. split.
  - intros u. split.
    + rewrite (Hgen _ u) by (destruct u; vm_compute; reflexivity).
      rewrite (relativeDate_plural tza T _ "1" u)
        by (destruct u; vm_compute; reflexivity).
      reflexivity.
    + rewrite (Hgen _ u) by (destruct u; vm_compute; reflexivity).
      rewrite (relativeDate_plural tza T _ "1" u)
        by (destruct u; vm_compute; reflexivity).
      reflexivity.
  - rewrite (Hgen "a week ago" Utils.week) by (vm_compute; reflexivity).
    rewrite (relativeDate_plural tza T "7 days ago" "7" Utils.day)
      by (vm_compute; reflexivity).
    change (Js.parseInt "7") with 7. cbn [Utils.subtractUnits].
    rewrite Z.mul_1_l. reflexivity.
Qed.

Lemma article_means_one_witness :
  Utils.relativeDate JsDate.utcZone 1709210096789 "  An Hour ago "
  = Some (1709210096789 - 3600000).
Proof.
  rewrite (proj1 (article_means_one JsDate.utcZone 1709210096789)
             "  An Hour ago " Utils.hour)
    by (vm_compute; reflexivity).
  vm_compute. reflexivity.
Defined.

Lemma dateUnits_incl (u : Utils.Unit) : In u Main.dateUnits -> In u Utils.allUnits.
Proof.
  unfold Main.dateUnits, Utils.allUnits. simpl. intuition.
Qed.

Lemma looksLikeDate_recognised (t : string) :
  Main.looksLikeDate t = true -> recognised t.
Proof.
  unfold Main.looksLikeDate, recognised. intros H.
  destruct (Utils.pluralMatch Main.dateUnits (Js.foldCase t)) as [m | ] eqn:Ep.
  - left.
    assert (Hs : Utils.pluralShape Main.dateUnits (Js.foldCase t))
      by (apply pluralMatch_shape; eauto).
    apply (proj1 (shape_units_incl _ Utils.allUnits _ dateUnits_incl)) in Hs.
    apply pluralShape_lower in Hs. rewrite toLowerCase_foldCase in Hs.
    apply pluralShape_trim in Hs.
    apply pluralMatch_shape in Hs as [m' Hm']. congruence.
  - destruct (Utils.singleMatch Main.dateUnits (Js.foldCase t)) as [u | ] eqn:Es;
      [ | discriminate].
    right.
    assert (Hs : Utils.singleShape Main.dateUnits (Js.foldCase t))
      by (apply singleMatch_shape; eauto).
    apply (proj2 (shape_units_incl _ Utils.allUnits _ dateUnits_incl)) in Hs.
    pose proof (singleShape_fixed _ _ Hs) as Hfix.
    rewrite toLowerCase_foldCase in Hfix. rewrite Hfix.
    apply singleMatch_shape in Hs as [u' Hu']. congruence.
Qed.

(** X6: a date text that the extractors take from the span fallback is
    always understood by [parseRelativeDate]: whenever the two fallback
    expressions of the extractor accept a text, one of the two expressions
    of the normaliser matches it, so the published date of such a review is
    computed from the text and is not the fallback to the clock reading. *)
Theorem fallback_date_recognised :
  (forall t, Main.looksLikeDate t = true -> recognised t)
  /\ (forall card : Main.Card,
        (Main.dateSpan card = None
         \/ exists content, Main.dateSpan card = Some content /\ Js.trim content = "") ->
        Main.resolveDateText card <> "" ->
        recognised (Main.resolveDateText card))
  /\ (forall card : Legacy.Card,
        (Legacy.dateSpan card = None
         \/ exists content, Legacy.dateSpan card = Some content /\ Js.trim content = "") ->
        Legacy.resolveDateText card <> "" ->
        recognised (Legacy.resolveDateText card)).
Proof.
  split; [exact looksLikeDate_recognised | ]. split.
  - intros card Hspan Hne. unfold Main.resolveDateText in *.
    assert (Hempty : match Main.dateSpan card with
                     | Some content => Js.trim content
                     | None => ""
                     end = "").
    { destruct Hspan as [-> | (content & -> & ->)]; reflexivity. }
    rewrite Hempty in *.
    destruct (find Main.looksLikeDate (List.map Js.trim (Main.spans card)))
      as [t | ] eqn:E; [ | contradiction].
    apply find_some in E as [_ Ht]. apply looksLikeDate_recognised, Ht.
  - intros card Hspan Hne. unfold Legacy.resolveDateText in *.
    assert (Hempty : match Legacy.dateSpan card with
                     | Some content => Js.trim content
                     | None => ""
                     end = "").
    { destruct Hspan as [-> | (content & -> & ->)]; reflexivity. }
    rewrite Hempty in *.
    destruct (find Main.looksLikeDate (List.map Js.trim (Legacy.spans card)))
      as [t | ] eqn:E; [ | contradiction].
    apply find_some in E as [_ Ht]. apply looksLikeDate_recognised, Ht.
Qed.

Lemma fallback_date_recognised_witness :
  recognised "Edited 3 Weeks ago".
Proof.
  apply (proj1 fallback_date_recognised). reflexivity.
Defined.

Section FixedZone.
Import JsDate.
Variable off : Z.

Lemma TimeClip_Some (x a : Z) : TimeClip x = Some a -> a = x.
Proof. unfold TimeClip. destruct (_ <=? _); congruence. Qed.

(** The units up to the week are subtracted as plain durations. *)
Lemma subtractUnits_duration (T n ms : Z) (u : Utils.Unit) :
  unitDuration u = Some ms ->
  Utils.subtractUnits (fixedZone off) T u n = TimeClip (T - n * ms).
Proof.
  intros Hu.
  pose proof (Day_TimeWithinDay (LocalTime (fixedZone off) T)) as Hday.
  pose proof (MakeTime_fields (LocalTime (fixedZone off) T)) as Htime.
  destruct u; cbn [unitDuration] in Hu; try discriminate;
    injection Hu as <-; cbn [Utils.subtractUnits].
  - unfold setSeconds, getSeconds. f_equal.
    unfold UTC, MakeDate, MakeTime in *. unfold fixedZone at 1.
    unfold msPerSecond, msPerMinute, msPerHour, msPerDay in *.
    unfold LocalTime, fixedZone in *. lia.
  - unfold setMinutes, getMinutes. f_equal.
    unfold UTC, MakeDate, MakeTime in *. unfold fixedZone at 1.
    unfold msPerSecond, msPerMinute, msPerHour, msPerDay in *.
    unfold LocalTime, fixedZone in *. lia.
  - unfold setHours, getHours. f_equal.
    unfold UTC, MakeDate, MakeTime in *. unfold fixedZone at 1.
    unfold msPerSecond, msPerMinute, msPerHour, msPerDay in *.
    unfold LocalTime, fixedZone in *. lia.
  - rewrite setDate_back. f_equal. unfold UTC, LocalTime, fixedZone. lia.
  - rewrite setDate_back. f_equal. unfold UTC, LocalTime, fixedZone.
    unfold msPerDay. lia.
Qed.

Lemma leap_not_consecutive (y : Z) :
  isLeapYear y = true -> isLeapYear (y + 1) = false.
Proof.
  unfold isLeapYear. intros H.
  apply andb_prop in H as [H4 _]. apply Z.eqb_eq in H4.
  destruct (Z.eqb_spec ((y + 1) mod 4) 0) as [E | E]; [ | reflexivity].
  exfalso. Z.div_mod_to_equations. lia.
Qed.

Lemma month_index_cases (m : Z) :
  m mod 12 = 0 \/ m mod 12 = 1 \/ m mod 12 = 2 \/ m mod 12 = 3 \/ m mod 12 = 4
  \/ m mod 12 = 5 \/ m mod 12 = 6 \/ m mod 12 = 7 \/ m mod 12 = 8
  \/ m mod 12 = 9 \/ m mod 12 = 10 \/ m mod 12 = 11.
Proof. pose proof (Z.mod_pos_bound m 12 ltac:(lia)). lia. Qed.

(** The same day one month later is 28 to 31 days later. *)
Lemma MakeDay_month_step (y m dt : Z) :
  MakeDay y m dt + 28 <= MakeDay y (m + 1) dt <= MakeDay y m dt + 31.
Proof.
  unfold MakeDay.
  destruct (Z.eq_dec (m mod 12) 11) as [E11 | E11].
  - replace ((m + 1) / 12) with (m / 12 + 1) by (Z.div_mod_to_equations; lia).
    replace ((m + 1) mod 12) with 0 by (Z.div_mod_to_equations; lia).
    rewrite E11. replace (y + (m / 12 + 1)) with (y + m / 12 + 1) by lia.
    rewrite DayFromYear_succ, DaysInYear_leap.
    destruct (isLeapYear (y + m / 12)), (isLeapYear (y + m / 12 + 1));
      cbn [monthStart]; lia.
  - replace ((m + 1) / 12) with (m / 12) by (Z.div_mod_to_equations; lia).
    replace ((m + 1) mod 12) with (m mod 12 + 1) by (Z.div_mod_to_equations; lia).
    destruct (isLeapYear (y + m / 12));
      destruct (month_index_cases m) as
        [E | [E | [E | [E | [E | [E | [E | [E | [E | [E | [E | E]]]]]]]]]]];
      rewrite E; try contradiction;
      match goal with
      | |- context [ monthStart _ (?a + 1) ] =>
          let v := eval vm_compute in (a + 1) in change (a + 1) with v
      end; cbn [monthStart]; lia.
Qed.

Lemma MakeDay_months_back (y m dt : Z) (n : nat) :
  MakeDay y m dt - 31 * Z.of_nat n
  <= MakeDay y (m - Z.of_nat n) dt
  <= MakeDay y m dt - 28 * Z.of_nat n.
Proof.
  induction n as [| n IH].
  - replace (m - Z.of_nat 0) with m by lia. lia.
  - pose proof (MakeDay_month_step y (m - Z.of_nat (S n)) dt) as Hstep.
    replace (m - Z.of_nat (S n) + 1) with (m - Z.of_nat n) in Hstep by lia.
    lia.
Qed.

(** The same day of the same month one year later is 365 or 366 days
    later. *)
Lemma MakeDay_year_step (y m dt : Z) :
  MakeDay y m dt + 365 <= MakeDay (y + 1) m dt <= MakeDay y m dt + 366.
Proof.
  unfold MakeDay.
  replace (y + 1 + m / 12) with (y + m / 12 + 1) by lia.
  rewrite DayFromYear_succ, DaysInYear_leap.
  pose proof (leap_not_consecutive (y + m / 12)) as Hleap.
  destruct (isLeapYear (y + m / 12)) eqn:E1.
  - rewrite (Hleap eq_refl).
    destruct (month_index_cases m) as
      [E | [E | [E | [E | [E | [E | [E | [E | [E | [E | [E | E]]]]]]]]]]];
      rewrite E; cbn [monthStart]; lia.
  - destruct (isLeapYear (y + m / 12 + 1));
      destruct (month_index_cases m) as
        [E | [E | [E | [E | [E | [E | [E | [E | [E | [E | [E | E]]]]]]]]]]];
      rewrite E; cbn [monthStart]; lia.
Qed.

Lemma MakeDay_years_back (y m dt : Z) (n : nat) :
  MakeDay y m dt - 366 * Z.of_nat n
  <= MakeDay (y - Z.of_nat n) m dt
  <= MakeDay y m dt - 365 * Z.of_nat n.
Proof.
  induction n as [| n IH].
  - replace (y - Z.of_nat 0) with y by lia. lia.
  - pose proof (MakeDay_year_step (y - Z.of_nat (S n)) m dt) as Hstep.
    replace (y - Z.of_nat (S n) + 1) with (y - Z.of_nat n) in Hstep by lia.
    lia.
Qed.

Lemma subtract_months_bounds (T n : Z) :
  0 <= n ->
  exists g, 28 * n <= g <= 31 * n
    /\ Utils.subtractUnits (fixedZone off) T Utils.month n = TimeClip (T - g * msPerDay).
Proof.
  intros Hn. cbn [Utils.subtractUnits]. unfold setMonth, getMonth.
  set (t := LocalTime (fixedZone off) T).
  pose proof (MakeDay_months_back (YearFromTime t) (MonthFromTime t)
                (DateFromTime t) (Z.to_nat n)) as Hb.
  rewrite Z2Nat.id in Hb by lia. rewrite MakeDay_fields in Hb.
  exists (Day t - MakeDay (YearFromTime t) (MonthFromTime t - n) (DateFromTime t)).
  split; [lia | ]. f_equal.
  pose proof (Day_TimeWithinDay t) as Hday.
  unfold UTC, MakeDate in *. unfold fixedZone at 1.
  unfold t, LocalTime, fixedZone in *. lia.
Qed.

Lemma subtract_years_bounds (T n : Z) :
  0 <= n ->
  exists g, 365 * n <= g <= 366 * n
    /\ Utils.subtractUnits (fixedZone off) T Utils.year n = TimeClip (T - g * msPerDay).
Proof.
  intros Hn. cbn [Utils.subtractUnits]. unfold setFullYear, getFullYear.
  set (t := LocalTime (fixedZone off) T).
  pose proof (MakeDay_years_back (YearFromTime t) (MonthFromTime t)
                (DateFromTime t) (Z.to_nat n)) as Hb.
  rewrite Z2Nat.id in Hb by lia. rewrite MakeDay_fields in Hb.
  exists (Day t - MakeDay (YearFromTime t - n) (MonthFromTime t) (DateFromTime t)).
  split; [lia | ]. f_equal.
  pose proof (Day_TimeWithinDay t) as Hday.
  unfold UTC, MakeDate in *. unfold fixedZone at 1.
  unfold t, LocalTime, fixedZone in *. lia.
Qed.
End FixedZone.

Section NormaliserInFixedZone.
Import Js Utils JsDate.
Variable off : Z.

Lemma isDigit_value (c : ascii) : isDigit c = true -> 0 <= digitValue c <= 9.
Proof.
  unfold isDigit, digitValue. intros H.
  apply andb_prop in H as [H1 H2].
  apply N.leb_le in H1. apply N.leb_le in H2. lia.
Qed.

Lemma parseDigits_nonneg (s : string) (acc : Z) :
  0 <= acc -> every isDigit s = true -> 0 <= parseDigits acc s.
Proof.
  revert acc. induction s as [| c r IH]; intros acc Hacc Hd; simpl in *.
  - exact Hacc.
  - apply andb_prop in Hd as [Hc Hr].
    apply IH; [ | exact Hr]. pose proof (isDigit_value c Hc). lia.
Qed.

Lemma pluralMatch_digits (us : list Unit) (s ds : string) (u : Unit) :
  pluralMatch us s = Some (ds, u) -> every isDigit ds = true.
Proof.
  induction s as [| c r IH]; rewrite pluralMatch_unfold.
  - destruct (pluralAt us "") as [m | ] eqn:E; [ | discriminate].
    intros [= ->].
    destruct (pluralAt_Some _ _ _ _ E) as (w1 & pl & w2 & post & _ & _ & Hd & _).
    exact Hd.
  - destruct (pluralAt us (String c r)) as [m | ] eqn:E; [ | exact IH].
    intros [= ->].
    destruct (pluralAt_Some _ _ _ _ E) as (w1 & pl & w2 & post & _ & _ & Hd & _).
    exact Hd.
Qed.

Lemma pluralMatch_amount (us : list Unit) (s ds : string) (u : Unit) :
  pluralMatch us s = Some (ds, u) -> 0 <= parseInt ds.
Proof.
  intros H. apply parseDigits_nonneg; [lia | ].
  exact (pluralMatch_digits _ _ _ _ H).
Qed.

(** What is subtracted is at most 366 days per unit. *)
Lemma subtractUnits_span (T n : Z) (u : Unit) :
  0 <= n ->
  exists g, 0 <= g <= 366 * n * msPerDay
    /\ subtractUnits (fixedZone off) T u n = TimeClip (T - g).
Proof.
  intros Hn.
  destruct (unitDuration u) as [ms | ] eqn:Eu.
  - exists (n * ms). split.
    + destruct u; cbn [unitDuration] in Eu; try discriminate;
        injection Eu as <-;
        unfold msPerSecond, msPerMinute, msPerHour, msPerDay; lia.
    + apply subtractUnits_duration, Eu.
  - destruct u; try discriminate.
    + destruct (subtract_months_bounds off T n Hn) as (g & Hg & ->).
      exists (g * msPerDay). split; [unfold msPerDay; lia | reflexivity].
    + destruct (subtract_years_bounds off T n Hn) as (g & Hg & ->).
      exists (g * msPerDay). split; [unfold msPerDay; lia | reflexivity].
Qed.
End NormaliserInFixedZone.

(** X7: in a zone of fixed offset, seconds, minutes, hours, days and weeks
    are subtracted as plain durations: a text in which the first expression
    finds the amount [ds] and one of these units gives the instant
    [parseInt(ds)] times the unit's length before the clock reading, an
    invalid Date when that instant is out of the range of Date. *)
Theorem short_units_are_durations :
  forall (off T : Z) (text ds : string) (u : Utils.Unit) (ms : Z),
    Utils.pluralMatch Utils.allUnits (Js.trim (Js.toLowerCase text)) = Some (ds, u) ->
    unitDuration u = Some ms ->
    Utils.relativeDate (fixedZone off) T text
    = JsDate.TimeClip (T - Js.parseInt ds * ms).
Proof.
  intros off T text ds u ms Hm Hu.
  rewrite (relativeDate_plural _ _ _ _ _ Hm).
  apply subtractUnits_duration, Hu.
Qed.

Lemma short_units_are_durations_witness :
  Utils.relativeDate (fixedZone 3600000) 1709210096789 "Edited 3 weeks ago"
  = Some (1709210096789 - 3 * 7 * 86400000).
Proof.
  rewrite (short_units_are_durations 3600000 1709210096789 "Edited 3 weeks ago"
             "3" Utils.week (7 * JsDate.msPerDay))
    by (vm_compute; reflexivity).
  vm_compute. reflexivity.
Defined.

(** X8: in a zone of fixed offset, months and years are calendar steps:
    [n] months before an instant is a whole number of days before it,
    between [28 n] and [31 n], and [n] years is between [365 n] and
    [366 n] days. *)
Theorem calendar_units_day_bounds :
  forall (off T : Z) (text ds : string) (u : Utils.Unit),
    Utils.pluralMatch Utils.allUnits (Js.trim (Js.toLowerCase text)) = Some (ds, u) ->
    (u = Utils.month ->
     exists g, 28 * Js.parseInt ds <= g <= 31 * Js.parseInt ds
       /\ Utils.relativeDate (fixedZone off) T text
          = JsDate.TimeClip (T - g * JsDate.msPerDay))
    /\ (u = Utils.year ->
        exists g, 365 * Js.parseInt ds <= g <= 366 * Js.parseInt ds
          /\ Utils.relativeDate (fixedZone off) T text
             = JsDate.TimeClip (T - g * JsDate.msPerDay)).
Proof.
  intros off T text ds u Hm.
  pose proof (pluralMatch_amount _ _ _ _ Hm) as Hn.
  rewrite (relativeDate_plural _ _ _ _ _ Hm).
  split; intros ->.
  - apply subtract_months_bounds, Hn.
  - apply subtract_years_bounds, Hn.
Qed.

Lemma calendar_units_day_bounds_witness :
  exists g, 28 * 2 <= g <= 31 * 2
    /\ Utils.relativeDate JsDate.utcZone 1709210096789 "2 months ago"
       = JsDate.TimeClip (1709210096789 - g * JsDate.msPerDay).
Proof.
  exact (proj1 (calendar_units_day_bounds 0 1709210096789 "2 months ago" "2"
                  Utils.month ltac:(vm_compute; reflexivity)) eq_refl).
Defined.

(** X9: in a zone of fixed offset the normaliser never gives an instant
    after the clock reading: whatever the text, a valid result is at or
    before [now]. *)
Theorem published_date_not_in_future :
  forall (off T : Z) (text : string) (a : Z),
    Utils.relativeDate (fixedZone off) T text = Some a -> a <= T.
Proof.
  intros off T text a. unfold Utils.relativeDate.
  destruct (Utils.pluralMatch Utils.allUnits (Js.trim (Js.toLowerCase text)))
    as [[ds u] | ] eqn:Ep.
  - pose proof (pluralMatch_amount _ _ _ _ Ep) as Hn.
    destruct (subtractUnits_span off T _ u Hn) as (g & Hg & ->).
    intros H. apply TimeClip_Some in H. lia.
  - destruct (Utils.singleMatch Utils.allUnits (Js.trim (Js.toLowerCase text)))
      as [u | ].
    + rewrite subtractOne_is_one.
      destruct (subtractUnits_span off T 1 u ltac:(lia)) as (g & Hg & ->).
      intros H. apply TimeClip_Some in H. lia.
    + intros [= <-]. lia.
Qed.

Lemma published_date_not_in_future_witness :
  1709210096789 - 3 * 7 * 86400000 <= 1709210096789.
Proof.
  exact (published_date_not_in_future 3600000 1709210096789 "Edited 3 weeks ago"
           (1709210096789 - 3 * 7 * 86400000) ltac:(vm_compute; reflexivity)).
Defined.

(* ===================================================================== *)
(** * Further invariants of the collection *)
(* ===================================================================== *)

Section Digits.
Import Js.

Lemma span_fst_every (p : ascii -> bool) (s : string) :
  every p (fst (span p s)) = true.
Proof.
  destruct (span p s) as [a b] eqn:E.
  apply span_spec in E as (_ & Ha & _). exact Ha.
Qed.

Lemma matchDigits_digits (s ds : string) :
  matchDigits s = Some ds -> every isDigit ds = true.
Proof.
  revert ds. induction s as [| c r IH]; intros ds; [discriminate | ].
  change (matchDigits (String c r))
    with (if isDigit c then Some (fst (span isDigit (String c r)))
          else matchDigits r).
  destruct (isDigit c); [ | apply IH].
  intros [= <-]. exact (span_fst_every isDigit (String c r)).
Qed.

Lemma matchDigits_amount (s : string) :
  0 <= match matchDigits s with
       | Some m1 => parseInt m1
       | None => 0
       end.
Proof.
  destruct (matchDigits s) as [ds | ] eqn:E; [ | lia].
  apply parseDigits_nonneg; [lia | ]. exact (matchDigits_digits _ _ E).
Qed.

Lemma nonEmpty_filled (s : string) : nonEmpty s <> Some "".
Proof. destruct s; cbn; congruence. Qed.
End Digits.

Lemma Main_reviewCountMatch_digits (s ds : string) :
  Main.reviewCountMatch s = Some ds -> Js.every Js.isDigit ds = true.
Proof.
  assert (Hat : forall t, Main.reviewCountAt t = Some ds -> Js.every Js.isDigit ds = true).
  { intros t. unfold Main.reviewCountAt.
    destruct (Js.span Js.isDigit t) as [a b] eqn:E.
    apply span_spec in E as (_ & Ha & _).
    destruct a as [| c a]; [discriminate | ].
    destruct (Js.spaces1 b) as [r2 | ]; [ | discriminate].
    destruct (Js.stripPrefix _ _); [ | discriminate].
    intros [= <-]. exact Ha. }
  induction s as [| c r IH]; cbn [Main.reviewCountMatch].
  - destruct (Main.reviewCountAt "") eqn:E; [ | discriminate].
    intros [= ->]. exact (Hat _ E).
  - destruct (Main.reviewCountAt (String c r)) eqn:E; [ | exact IH].
    intros [= ->]. exact (Hat _ E).
Qed.

Lemma Legacy_reviewCountMatch_digits (s ds : string) :
  Legacy.reviewCountMatch s = Some ds -> Js.every Js.isDigit ds = true.
Proof.
  assert (Hat : forall t, Legacy.reviewCountAt t = Some ds -> Js.every Js.isDigit ds = true).
  { intros t. unfold Legacy.reviewCountAt.
    destruct (Js.span Js.isDigit t) as [a b] eqn:E.
    apply span_spec in E as (_ & Ha & _).
    destruct a as [| c a]; [discriminate | ].
    destruct (Js.spaces1 b) as [r2 | ]; [ | discriminate].
    destruct (Js.stripPrefix _ _); [ | discriminate].
    intros [= <-]. exact Ha. }
  induction s as [| c r IH]; cbn [Legacy.reviewCountMatch].
  - destruct (Legacy.reviewCountAt "") eqn:E; [ | discriminate].
    intros [= ->]. exact (Hat _ E).
  - destruct (Legacy.reviewCountAt (String c r)) eqn:E; [ | exact IH].
    intros [= ->]. exact (Hat _ E).
Qed.

Lemma Main_reviewerInfo_count (els : list string) (count : option Z) (guide : bool) :
  (forall n, count = Some n -> 0 <= n) ->
  forall n, fst (Main.reviewerInfo els count guide) = Some n -> 0 <= n.
Proof.
  revert count guide. induction els as [| el rest IH]; intros count guide Hc; cbn.
  - exact Hc.
  - apply IH. destruct (Main.reviewCountMatch (Js.trim el)) as [ds | ] eqn:E; [ | exact Hc].
    intros n [= <-]. apply parseDigits_nonneg; [lia | ].
    exact (Main_reviewCountMatch_digits _ _ E).
Qed.

Lemma Legacy_reviewerInfo_count (els : list string) (count : option Z) (guide : bool) :
  (forall n, count = Some n -> 0 <= n) ->
  forall n, fst (Legacy.reviewerInfo els count guide) = Some n -> 0 <= n.
Proof.
  revert count guide. induction els as [| el rest IH]; intros count guide Hc; cbn.
  - exact Hc.
  - apply IH. destruct (Legacy.reviewCountMatch (Js.trim el)) as [ds | ] eqn:E; [ | exact Hc].
    intros n [= <-]. apply parseDigits_nonneg; [lia | ].
    exact (Legacy_reviewCountMatch_digits _ _ E).
Qed.

Lemma Main_longestSpan_filled (spans : list string) (text : option string) (maxLen : Z) :
  text <> Some "" -> Main.longestSpan spans text maxLen <> Some "".
Proof.
  revert text maxLen. induction spans as [| s rest IH]; intros text maxLen Ht; cbn.
  - exact Ht.
  - destruct (Z.gtb_spec (Js.length (Js.trim s)) 30) as [H30 | H30];
      rewrite ?andb_false_r, ?andb_true_r.
    + destruct (_ >? _); apply IH; [ | exact Ht].
      intros [= E]. rewrite E in H30. change (Js.length "") with 0 in H30. lia.
    + apply IH, Ht.
Qed.

Lemma Main_resolveName_length (card : Main.Card) :
  0 < Js.length (Main.resolveName card) < 80.
Proof.
  assert (Hanon : 0 < Js.length "Anonymous" < 80) by (vm_compute; split; reflexivity).
  assert (Hel : 0 < Js.length (Main.nameFromElement card) < 80).
  { unfold Main.nameFromElement.
    destruct (Js.orElse _ _) as [content | ]; [ | exact Hanon].
    destruct (Z.gtb_spec (Js.length (Js.trim content)) 0);
      destruct (Z.ltb_spec (Js.length (Js.trim content)) 80); cbn [andb];
      try exact Hanon. lia. }
  unfold Main.resolveName.
  destruct (String.eqb _ _); [ | exact Hel].
  destruct (Main.firstLink card) as [content | ]; [ | exact Hel].
  destruct (Z.gtb_spec (Js.length (Js.trim content)) 1);
    destruct (Z.ltb_spec (Js.length (Js.trim content)) 60); cbn [andb];
    try exact Hel. lia.
Qed.

Lemma Legacy_resolveName_length (card : Legacy.Card) :
  0 < Js.length (Legacy.resolveName card) < 80.
Proof.
  assert (Hanon : 0 < Js.length "Anonymous" < 80) by (vm_compute; split; reflexivity).
  unfold Legacy.resolveName.
  destruct (Js.orElse _ _) as [content | ]; [ | exact Hanon].
  destruct (Z.gtb_spec (Js.length (Js.trim content)) 0);
    destruct (Z.ltb_spec (Js.length (Js.trim content)) 80); cbn [andb];
    try exact Hanon. lia.
Qed.

Lemma Main_resolveId_filled (idx : nat) (now : Z) (card : Main.Card) :
  Main.resolveId idx now card <> "".
Proof.
  unfold Main.resolveId.
  destruct (Main.dataReviewId card) as [[| c r] | ];
    rewrite ?append_cons; discriminate.
Qed.

Lemma Main_extractCard_wellFormed (idx : nat) (now : Z) (card : Main.Card) (r : Raw.t) :
  Main.extractCard idx now card = Some r -> wellFormedRaw r.
Proof.
  unfold Main.extractCard.
  destruct (Main.reviewerInfo (Main.spans card) None false) as [n g] eqn:Ei.
  destruct (_ && _); [ | discriminate].
  intros [= <-]. unfold wellFormedRaw.
  cbn [Raw.reviewId Raw.name Raw.text Raw.responseFromOwnerText
       Raw.responseFromOwnerDate Raw.likesCount Raw.reviewerNumberOfReviews
       Raw.reviewDetailedRating].
  split; [apply Main_resolveId_filled | ].
  split; [apply Main_resolveName_length | ].
  split.
  { unfold Main.resolveText.
    destruct (Js.orElse _ _) as [content | ].
    - destruct (Js.nonEmpty (Js.trim content)) as [t | ] eqn:E.
      + rewrite <- E. apply nonEmpty_filled.
      + apply Main_longestSpan_filled. discriminate.
    - apply Main_longestSpan_filled. discriminate. }
  split.
  { unfold Main.resolveResponseText.
    destruct (Main.responseContainer card) as [rc | ]; [ | discriminate].
    destruct (Main.respText rc); [apply nonEmpty_filled | discriminate]. }
  split.
  { unfold Main.resolveResponseDate.
    destruct (Main.responseContainer card) as [rc | ]; [ | discriminate].
    destruct (Main.respDate rc); [apply nonEmpty_filled | discriminate]. }
  split.
  { unfold Main.resolveLikes.
    destruct (Main.likesSpan card); [apply matchDigits_amount | lia]. }
  split; [ | discriminate].
  intros k Hk.
  apply (Main_reviewerInfo_count (Main.spans card) None false); [discriminate | ].
  rewrite Ei. exact Hk.
Qed.

Lemma Legacy_extractCard_wellFormed (card : Legacy.Card) (r : Raw.t) :
  Legacy.extractCard card = Some r -> wellFormedRaw r.
Proof.
  unfold Legacy.extractCard.
  destruct (Legacy.dataReviewId card) as [| c rid] eqn:Eid; [discriminate | ].
  destruct (Legacy.reviewerInfo (Legacy.reviewerInfoEls card) None false)
    as [n g] eqn:Ei.
  destruct (_ && _); [ | discriminate].
  intros [= <-]. unfold wellFormedRaw.
  cbn [Raw.reviewId Raw.name Raw.text Raw.responseFromOwnerText
       Raw.responseFromOwnerDate Raw.likesCount Raw.reviewerNumberOfReviews
       Raw.reviewDetailedRating].
  split; [discriminate | ].
  split; [apply Legacy_resolveName_length | ].
  split.
  { unfold Legacy.resolveText.
    destruct (Js.orElse _ _); [apply nonEmpty_filled | discriminate]. }
  split.
  { unfold Legacy.resolveResponseText.
    destruct (Legacy.responseContainer card) as [rc | ]; [ | discriminate].
    destruct (Legacy.respText rc); [apply nonEmpty_filled | discriminate]. }
  split.
  { unfold Legacy.resolveResponseDate.
    destruct (Legacy.responseContainer card) as [rc | ]; [ | discriminate].
    destruct (Legacy.respDate rc); [apply nonEmpty_filled | discriminate]. }
  split.
  { unfold Legacy.resolveLikes.
    destruct (Legacy.likesSpan card); [apply matchDigits_amount | lia]. }
  split.
  { intros k Hk.
    apply (Legacy_reviewerInfo_count (Legacy.reviewerInfoEls card) None false);
      [discriminate | ].
    rewrite Ei. exact Hk. }
  unfold Legacy.resolveDetailedRating.
  destruct (Legacy.ratingRows card); [discriminate | ].
  case_bool_decide as Hm; [discriminate | ].
  intros [= E]. exact (Hm E).
Qed.

Lemma Main_extractFrom_wellFormed (env : Env) (cards : list Main.Card) (idx : nat) :
  Forall wellFormedRaw (Main.extractFrom env idx cards).
Proof.
  revert idx. induction cards as [| card rest IH]; intros idx; cbn.
  - apply Forall_nil_2.
  - destruct (Main.extractCard idx (dateNow env idx) card) as [r | ] eqn:E; [ | apply IH].
    apply Forall_cons. split; [ | apply IH].
    exact (Main_extractCard_wellFormed _ _ _ _ E).
Qed.

Lemma Legacy_extractAll_wellFormed (cards : list Legacy.Card) :
  Forall wellFormedRaw (Legacy.extractAll cards).
Proof.
  unfold Legacy.extractAll. induction cards as [| card rest IH]; cbn.
  - apply Forall_nil_2.
  - destruct (Legacy.extractCard card) as [r | ] eqn:E; cbn; [ | exact IH].
    apply Forall_cons. split; [ | exact IH].
    exact (Legacy_extractCard_wellFormed _ _ E).
Qed.

Section AccumulatorInvariant.
Import Accumulator.
Variable env : Env.
Variable maxItems : Z.
Variable detailed : Raw.t -> option (gmap string Z).
Variable P : GoogleReview -> Prop.
Variable Q : Raw.t -> Prop.
Hypothesis normalize_P :
  forall r p, Q r -> P (normalize detailed (Raw.reviewId r) r p).

(** A property that the normalised form of every record of the page has
    is kept by the collection. *)
Lemma accumulateFrom_Forall (pageReviews : list Raw.t) (i : nat) (st : Session) :
  Forall Q pageReviews ->
  Forall P (collectedReviews st) ->
  Forall P (collectedReviews (fst (accumulateFrom env maxItems detailed i pageReviews st))).
Proof.
  revert i st. induction pageReviews as [| rev rest IH]; intros i st HQ HP; cbn.
  - exact HP.
  - apply Forall_cons in HQ as [Hrev Hrest].
    destruct (offer env maxItems detailed i rev st) as [ | | st1 | st1] eqn:E; cbn.
    + exact HP.
    + apply IH; assumption.
    + apply IH; [exact Hrest | ].
      apply offer_Accepted in E as (_ & _ & p & ->). cbn.
      apply Forall_app. split; [exact HP | ].
      apply Forall_cons. split; [apply normalize_P, Hrev | apply Forall_nil_2].
    + apply offer_Failed in E as ->. exact HP.
Qed.
End AccumulatorInvariant.

Lemma normalize_wellFormed (detailed : Raw.t -> option (gmap string Z))
    (r : Raw.t) (p : string) :
  detailed r <> Some ∅ ->
  wellFormedRaw r ->
  wellFormed (Accumulator.normalize detailed (Raw.reviewId r) r p).
Proof.
  intros Hd (Hid & Hname & Ht & Hrt & Hrd & Hl & Hn & _).
  unfold wellFormed, Accumulator.normalize.
  cbn [reviewId name text responseFromOwnerText responseFromOwnerDate likesCount
       reviewerNumberOfReviews reviewDetailedRating].
  split; [exact Hid | ].
  split.
  { destruct (Raw.name r) as [| c n]; [ | exact Hname].
    vm_compute. split; reflexivity. }
  split; [destruct (Raw.text r) as [[| c t] | ]; congruence | ].
  split; [destruct (Raw.responseFromOwnerText r) as [[| c t] | ]; congruence | ].
  split; [destruct (Raw.responseFromOwnerDate r) as [[| c t] | ]; congruence | ].
  split; [exact Hl | ].
  split; [exact Hn | exact Hd].
Qed.

Lemma Main_requestHandler_wellFormed env maxItems doc st :
  Forall wellFormed (collectedReviews st) ->
  Forall wellFormed (collectedReviews (fst (Main.requestHandler env maxItems doc st))).
Proof.
  intros H. unfold Main.requestHandler.
  destruct (_ >=? _); [exact H | ].
  apply (accumulateFrom_Forall env maxItems (fun _ => None) wellFormed wellFormedRaw).
  - intros r p Hr. apply normalize_wellFormed; [discriminate | exact Hr].
  - apply Main_extractFrom_wellFormed.
  - exact H.
Qed.

Lemma Legacy_requestHandler_wellFormed env maxItems doc st :
  Forall wellFormed (collectedReviews st) ->
  Forall wellFormed (collectedReviews (fst (Legacy.requestHandler env maxItems doc st))).
Proof.
  intros H. unfold Legacy.requestHandler.
  destruct (_ >=? _); [exact H | ].
  destruct (negb _); [exact H | ].
  apply (accumulateFrom_Forall env maxItems Raw.reviewDetailedRating
           wellFormed wellFormedRaw).
  - intros r p Hr. apply normalize_wellFormed; [ | exact Hr].
    destruct Hr as (_ & _ & _ & _ & _ & _ & _ & Hd). exact Hd.
  - apply Legacy_extractAll_wellFormed.
  - exact H.
Qed.

(** X10: every session keeps the collected reviews well formed: each has
    a non-empty identity and a name of 1 to 79 characters, its optional
    texts (review text, owner response and its date) are absent rather
    than empty, its counts of likes and of the reviewer's reviews are not
    negative, and its detailed ratings are absent rather than empty. *)
Theorem collected_reviews_well_formed :
  forall (maxItems : Z) (st : Session),
    Forall wellFormed (collectedReviews st) ->
    (forall runs, Forall wellFormed (collectedReviews (Main.session maxItems runs st)))
    /\ (forall runs, Forall wellFormed (collectedReviews (Legacy.session maxItems runs st))).
Proof.
  intros maxItems st H. split; intros runs.
  - revert st H. induction runs as [| [env doc] rest IH]; intros st H; cbn.
    + exact H.
    + apply IH, Main_requestHandler_wellFormed, H.
  - revert st H. induction runs as [| [env doc] rest IH]; intros st H; cbn.
    + exact H.
    + apply IH, Legacy_requestHandler_wellFormed, H.
Qed.

Lemma collected_reviews_well_formed_witness :
  Forall wellFormed
    (collectedReviews (Main.session 5 [(sampleEnv, threeCards)] emptySession)).
Proof.
  apply (collected_reviews_well_formed 5 emptySession).
  apply Forall_nil_2.
Defined.

Section Exhaustion.
Import Accumulator.
Variable maxItems : Z.
Variable detailed : Raw.t -> option (gmap string Z).

(** After a pass that ends normally nothing is left for the page. *)
Lemma accumulateFrom_exhausts (env : Env) (pageReviews : list Raw.t) (i : nat)
    (st st1 : Session) :
  accumulateFrom env maxItems detailed i pageReviews st = (st1, Normal) ->
  exhausted maxItems pageReviews st1.
Proof.
  revert i st. induction pageReviews as [| rev rest IH]; intros i st; cbn.
  - intros _. right. intros r Hr. apply elem_of_nil in Hr. contradiction.
  - destruct (offer env maxItems detailed i rev st) as [ | | st' | st'] eqn:E.
    + intros [= <-]. left. unfold offer in E.
      destruct (Z.geb_spec (Z.of_nat (length (collectedReviews st))) maxItems);
        [lia | ].
      case_bool_decide; [discriminate | ].
      destruct (Utils.parseRelativeDate _ _ _); discriminate.
    + intros H.
      pose proof (accumulateFrom_grows env maxItems detailed rest (S i) st) as [_ Hs].
      rewrite H in Hs. cbn [fst] in Hs.
      destruct (IH _ _ H) as [Hfull | Hseen]; [left; exact Hfull | right].
      intros r Hr. apply elem_of_cons in Hr as [-> | Hr]; [ | apply Hseen, Hr].
      apply Hs. unfold offer in E.
      destruct (Z.geb_spec (Z.of_nat (length (collectedReviews st))) maxItems);
        [discriminate | ].
      case_bool_decide as Hin; [exact Hin | ].
      destruct (Utils.parseRelativeDate _ _ _); discriminate.
    + intros H.
      pose proof (accumulateFrom_grows env maxItems detailed rest (S i) st') as [_ Hs].
      rewrite H in Hs. cbn [fst] in Hs.
      destruct (IH _ _ H) as [Hfull | Hseen]; [left; exact Hfull | right].
      intros r Hr. apply elem_of_cons in Hr as [-> | Hr]; [ | apply Hseen, Hr].
      apply Hs. apply offer_Accepted in E as (_ & _ & p & ->). cbn [seenIds].
      apply elem_of_union_l, elem_of_singleton. reflexivity.
    + discriminate.
Qed.

(** A pass over a page for which nothing is left changes nothing. *)
Lemma accumulateFrom_exhausted (env : Env) (pageReviews : list Raw.t) (i : nat)
    (st : Session) :
  exhausted maxItems pageReviews st ->
  accumulateFrom env maxItems detailed i pageReviews st = (st, Normal).
Proof.
  revert i. induction pageReviews as [| rev rest IH]; intros i Hex; cbn.
  - reflexivity.
  - unfold offer.
    destruct (Z.geb_spec (Z.of_nat (length (collectedReviews st))) maxItems)
      as [Hfull | Hroom]; [reflexivity | ].
    destruct Hex as [Hfull | Hseen]; [lia | ].
    rewrite bool_decide_true by (apply Hseen, elem_of_cons; left; reflexivity).
    apply IH. right. intros r Hr. apply Hseen, elem_of_cons. right. exact Hr.
Qed.

Lemma exhausted_ids (page page' : list Raw.t) (st : Session) :
  (forall r', r' ∈ page' -> Raw.reviewId r' ∈ (Raw.reviewId <$> page)) ->
  exhausted maxItems page st -> exhausted maxItems page' st.
Proof.
  intros Hsub [Hfull | Hseen]; [left; exact Hfull | right].
  intros r' Hr'. apply Hsub in Hr'.
  apply list_elem_of_fmap in Hr' as (r & -> & Hr). apply Hseen, Hr.
Qed.
End Exhaustion.

(** X11: processing a page again adds nothing.  When the accumulation
    loop has gone through a page without the range error, a later pass
    (of any attempt, with any clock) over a page whose identities all occur
    in the first leaves the collection and the seen set as they are; so a
    handler run that ended normally, repeated on the same page, changes
    nothing. *)
Theorem rerun_adds_nothing :
  (forall env env' maxItems detailed page page' st st1,
      Accumulator.accumulate env maxItems detailed page st = (st1, Normal) ->
      (forall r', r' ∈ page' -> Raw.reviewId r' ∈ (Raw.reviewId <$> page)) ->
      Accumulator.accumulate env' maxItems detailed page' st1 = (st1, Normal))
  /\ (forall env env' maxItems doc st st1,
         Legacy.requestHandler env maxItems doc st = (st1, Normal) ->
         Legacy.requestHandler env' maxItems doc st1 = (st1, Normal))
  /\ (forall env maxItems doc st st1,
         Main.requestHandler env maxItems doc st = (st1, Normal) ->
         Main.requestHandler env maxItems doc st1 = (st1, Normal)).
Proof.
  split; [ | split].
  - intros env env' maxItems detailed page page' st st1 H Hsub.
    apply accumulateFrom_exhausted.
    apply (exhausted_ids maxItems page page' st1 Hsub).
    exact (accumulateFrom_exhausts _ _ _ _ _ _ _ H).
  - intros env env' maxItems doc st st1. unfold Legacy.requestHandler.
    destruct (Z.geb_spec (Z.of_nat (length (collectedReviews st))) maxItems)
      as [Hfull | Hroom].
    + intros [= <-].
      destruct (Z.geb_spec (Z.of_nat (length (collectedReviews st))) maxItems);
        [reflexivity | lia].
    + destruct (negb (Legacy.panelFound doc)).
      * intros [= <-]. destruct (_ >=? _); reflexivity.
      * intros H. destruct (_ >=? _); [reflexivity | ].
        apply accumulateFrom_exhausted.
        exact (accumulateFrom_exhausts _ _ _ _ _ _ _ H).
  - intros env maxItems doc st st1. unfold Main.requestHandler.
    destruct (Z.geb_spec (Z.of_nat (length (collectedReviews st))) maxItems)
      as [Hfull | Hroom].
    + intros [= <-].
      destruct (Z.geb_spec (Z.of_nat (length (collectedReviews st))) maxItems);
        [reflexivity | lia].
    + intros H. destruct (_ >=? _); [reflexivity | ].
      apply accumulateFrom_exhausted.
      exact (accumulateFrom_exhausts _ _ _ _ _ _ _ H).
Qed.

Lemma rerun_adds_nothing_witness :
  Main.requestHandler sampleEnv 5 threeCards
    (fst (Main.requestHandler sampleEnv 5 threeCards emptySession))
  = (fst (Main.requestHandler sampleEnv 5 threeCards emptySession), Normal).
Proof.
  apply (proj2 (proj2 rerun_adds_nothing) sampleEnv 5 threeCards emptySession).
  vm_compute. reflexivity.
Defined.

Section Margins.
Import Js Utils.

Lemma lowerChar_idem (c : ascii) : lowerChar (lowerChar c) = lowerChar c.
Proof. destruct c as [[] [] [] [] [] [] [] []]; reflexivity. Qed.

Lemma toLowerCase_idem (s : string) : toLowerCase (toLowerCase s) = toLowerCase s.
Proof.
  induction s as [| c s IH]; simpl; [reflexivity | ].
  rewrite lowerChar_idem, IH. reflexivity.
Qed.

Lemma trimStart_spaces (p : string) : every isSpace p = true -> trimStart p = "".
Proof.
  induction p as [| c p IH]; simpl; [reflexivity | ].
  intros H. apply andb_prop in H as [-> Hp]. exact (IH Hp).
Qed.

Lemma trimStart_margin (p x : string) :
  every isSpace p = true -> trimStart (p +:+ x) = trimStart x.
Proof.
  induction p as [| c p IH]; [reflexivity | ].
  rewrite append_cons. simpl. intros H. apply andb_prop in H as [-> Hp].
  exact (IH Hp).
Qed.

Lemma trimEnd_margin (x q : string) :
  every isSpace q = true -> trimEnd (x +:+ q) = trimEnd x.
Proof.
  intros Hq. unfold trimEnd.
  rewrite rev_append, trimStart_margin by (rewrite every_rev; exact Hq).
  reflexivity.
Qed.

(** White space around a text does not change what is left of it. *)
Lemma trim_margin (p x q : string) :
  every isSpace p = true -> every isSpace q = true ->
  trim (p +:+ x +:+ q) = trim x.
Proof.
  intros Hp Hq. unfold trim. rewrite trimStart_margin by exact Hp.
  destruct (every isSpace x) eqn:Ex.
  - rewrite !trimStart_spaces; [reflexivity | exact Ex | ].
    rewrite every_append, Ex, Hq. reflexivity.
  - rewrite trimStart_ink by exact Ex. apply trimEnd_margin, Hq.
Qed.

Lemma toLowerCase_spaces (p : string) : every isSpace p = true -> toLowerCase p = p.
Proof. apply toLowerCase_every, lowerChar_space. Qed.
End Margins.

Section RangeError.
Import Js Utils JsDate.
Variable off : Z.

Lemma subtractUnits_valid (T n : Z) (u : Unit) :
  0 <= T <= maxTime -> 0 <= n <= 273000 ->
  subtractUnits (fixedZone off) T u n <> None.
Proof.
  intros HT Hn.
  destruct (subtractUnits_span off T n u ltac:(lia)) as (g & Hg & ->).
  rewrite TimeClip_in_range; [discriminate | ].
  unfold maxTime, msPerDay in *. lia.
Qed.
End RangeError.

(** X12: the range error needs an enormous amount.  In a zone of fixed
    offset and with the clock between the epoch and the end of the range
    of Date, [parseRelativeDate] throws only on a text in which the first
    expression finds an amount above 273000; the article form and the
    unparseable texts never throw.  So a handler run is only ended by the
    error when such a text is on the page. *)
Theorem range_error_needs_huge_amount :
  (forall (off T : Z) (text : string),
      0 <= T <= JsDate.maxTime ->
      Utils.parseRelativeDate (fixedZone off) T text = None ->
      exists ds u,
        Utils.pluralMatch Utils.allUnits (Js.trim (Js.toLowerCase text)) = Some (ds, u)
        /\ 273000 < Js.parseInt ds)
  /\ (forall (off : Z) (env : Env) maxItems detailed page st st',
         tza env = fixedZone off ->
         (forall i, 0 <= newDate env i <= JsDate.maxTime) ->
         Accumulator.accumulate env maxItems detailed page st = (st', Thrown) ->
         exists r ds u,
           r ∈ page
           /\ Utils.pluralMatch Utils.allUnits
                (Js.trim (Js.toLowerCase (Raw.dateText r))) = Some (ds, u)
           /\ 273000 < Js.parseInt ds).
Proof.
  assert (Hone : forall (off T : Z) (text : string),
             0 <= T <= JsDate.maxTime ->
             Utils.parseRelativeDate (fixedZone off) T text = None ->
             exists ds u,
               Utils.pluralMatch Utils.allUnits (Js.trim (Js.toLowerCase text))
               = Some (ds, u)
               /\ 273000 < Js.parseInt ds).
  { intros off T text HT. unfold Utils.parseRelativeDate, Utils.relativeDate.
    destruct (Utils.pluralMatch Utils.allUnits (Js.trim (Js.toLowerCase text)))
      as [[ds u] | ] eqn:Ep.
    - pose proof (pluralMatch_amount _ _ _ _ Ep) as Hn.
      destruct (Z.le_gt_cases (Js.parseInt ds) 273000) as [Hle | Hgt].
      + pose proof (subtractUnits_valid off T (Js.parseInt ds) u HT ltac:(lia)) as Hv.
        destruct (Utils.subtractUnits _ _ _ _); [discriminate | contradiction].
      + intros _. exists ds, u. split; [reflexivity | lia].
    - destruct (Utils.singleMatch Utils.allUnits (Js.trim (Js.toLowerCase text)))
        as [u | ]; [ | discriminate].
      rewrite subtractOne_is_one.
      pose proof (subtractUnits_valid off T 1 u HT ltac:(lia)) as Hv.
      destruct (Utils.subtractUnits _ _ _ _); [discriminate | contradiction]. }
  split; [exact Hone | ].
  intros off env maxItems detailed page st st' Hz Hclock.
  unfold Accumulator.accumulate. generalize 0%nat as i.
  revert st. induction page as [| rev rest IH]; intros st i; cbn.
  - discriminate.
  - destruct (Accumulator.offer env maxItems detailed i rev st)
      as [ | | st1 | st1] eqn:E.
    + discriminate.
    + intros H. destruct (IH _ _ H) as (r & ds & u & Hr & Hm).
      exists r, ds, u. split; [apply elem_of_cons; right; exact Hr | exact Hm].
    + intros H. destruct (IH _ _ H) as (r & ds & u & Hr & Hm).
      exists r, ds, u. split; [apply elem_of_cons; right; exact Hr | exact Hm].
    + intros _. unfold Accumulator.offer in E.
      destruct (_ >=? _); [discriminate | ].
      case_bool_decide; [discriminate | ].
      destruct (Utils.parseRelativeDate (tza env) (newDate env i) (Raw.dateText rev))
        eqn:Ed; [discriminate | ].
      rewrite Hz in Ed.
      destruct (Hone off _ _ (Hclock i) Ed) as (ds & u & Hm).
      exists rev, ds, u. split; [apply elem_of_cons; left; reflexivity | exact Hm].
Qed.

Lemma range_error_needs_huge_amount_witness :
  exists ds u,
    Utils.pluralMatch Utils.allUnits (Js.trim (Js.toLowerCase "999999 years ago"))
    = Some (ds, u)
    /\ 273000 < Js.parseInt ds.
Proof.
  apply (proj1 range_error_needs_huge_amount 0 1709210096789 "999999 years ago").
  - vm_compute. split; discriminate.
  - vm_compute. reflexivity.
Defined.

(** X13: the normaliser ignores letter case and surrounding white space:
    two texts with the same lower-case form, one of them wrapped in white
    space, get the same date (or both the range error). *)
Theorem normaliser_ignores_case_and_margins :
  forall (tza : JsDate.TimeZone) (T : Z) (text text' pre post : string),
    Js.toLowerCase text' = Js.toLowerCase text ->
    Js.every Js.isSpace pre = true ->
    Js.every Js.isSpace post = true ->
    Utils.parseRelativeDate tza T (pre +:+ text' +:+ post)
    = Utils.parseRelativeDate tza T text
    /\ Utils.parseRelativeDate tza T (Js.toLowerCase text)
       = Utils.parseRelativeDate tza T text.
Proof.
  intros tza T text text' pre post Hcase Hpre Hpost.
  unfold Utils.parseRelativeDate, Utils.relativeDate.
  rewrite !toLowerCase_append, Hcase, toLowerCase_idem.
  rewrite (toLowerCase_spaces pre Hpre), (toLowerCase_spaces post Hpost).
  rewrite (trim_margin pre _ post Hpre Hpost).
  split; reflexivity.
Qed.

Lemma normaliser_ignores_case_and_margins_witness :
  Utils.parseRelativeDate JsDate.utcZone 1709210096789 "  3 WEEKS AGO "
  = Utils.parseRelativeDate JsDate.utcZone 1709210096789 "3 Weeks Ago".
Proof.
  apply (proj1 (normaliser_ignores_case_and_margins JsDate.utcZone 1709210096789
                  "3 Weeks Ago" "3 WEEKS AGO" "  " " "
                  ltac:(vm_compute; reflexivity)
                  ltac:(vm_compute; reflexivity)
                  ltac:(vm_compute; reflexivity))).
Defined.

(* ===================================================================== *)
(** * Further properties of the field extractors *)
(* ===================================================================== *)

Section TextFallback.
Import Js.

(** The loop from a text [t0] already held: it keeps [t0] when no later
    span is longer, and otherwise ends on the first of the longest. *)
Lemma longestSpan_held (spans : list string) (t0 : string) :
  30 < length t0 ->
  (Main.longestSpan spans (Some t0) (length t0) = Some t0
   /\ forall x, x ∈ spans -> length (trim x) <= length t0)
  \/ exists pre s post,
      spans = pre ++ s :: post
      /\ Main.longestSpan spans (Some t0) (length t0) = Some (trim s)
      /\ length t0 < length (trim s)
      /\ (forall x, x ∈ pre -> length (trim x) < length (trim s))
      /\ (forall x, x ∈ post -> length (trim x) <= length (trim s)).
Proof.
  revert t0. induction spans as [| s rest IH]; intros t0 H0; cbn [Main.longestSpan].
  - left. split; [reflexivity | ]. intros x Hx. apply elem_of_nil in Hx. contradiction.
  - destruct (Z.gtb_spec (length (trim s)) (length t0)) as [Hgt | Hle].
    + destruct (Z.gtb_spec (length (trim s)) 30) as [_ | Hn]; [ | lia].
      cbn [andb]. right.
      destruct (IH (trim s) ltac:(lia)) as [[Hr Hall] | (pre & s' & post & -> & Hr & Hlt & Hpre & Hpost)].
      * exists [], s, rest. repeat split; try assumption.
        intros x Hx. apply elem_of_nil in Hx. contradiction.
      * exists (s :: pre), s', post. repeat split; try assumption; try lia.
        intros x Hx. apply elem_of_cons in Hx as [-> | Hx]; [lia | apply Hpre, Hx].
    + cbn [andb].
      destruct (IH t0 H0) as [[Hr Hall] | (pre & s' & post & -> & Hr & Hlt & Hpre & Hpost)].
      * left. split; [exact Hr | ].
        intros x Hx. apply elem_of_cons in Hx as [-> | Hx]; [lia | apply Hall, Hx].
      * right. exists (s :: pre), s', post. repeat split; try assumption.
        intros x Hx. apply elem_of_cons in Hx as [-> | Hx]; [lia | apply Hpre, Hx].
Qed.

Lemma longestSpan_first_longest (spans : list string) :
  (Main.longestSpan spans None 0 = None
   /\ forall x, x ∈ spans -> length (trim x) <= 30)
  \/ exists pre s post,
      spans = pre ++ s :: post
      /\ Main.longestSpan spans None 0 = Some (trim s)
      /\ 30 < length (trim s)
      /\ (forall x, x ∈ pre -> length (trim x) < length (trim s))
      /\ (forall x, x ∈ post -> length (trim x) <= length (trim s)).
Proof.
  induction spans as [| s rest IH]; cbn [Main.longestSpan].
  - left. split; [reflexivity | ]. intros x Hx. apply elem_of_nil in Hx. contradiction.
  - destruct (Z.gtb_spec (length (trim s)) 30) as [Hgt | Hle].
    + destruct (Z.gtb_spec (length (trim s)) 0) as [_ | Hn]; [ | lia].
      cbn [andb]. right.
      destruct (longestSpan_held rest (trim s) Hgt)
        as [[Hr Hall] | (pre & s' & post & -> & Hr & Hlt & Hpre & Hpost)].
      * exists [], s, rest. repeat split; try assumption.
        intros x Hx. apply elem_of_nil in Hx. contradiction.
      * exists (s :: pre), s', post. repeat split; try assumption; try lia.
        intros x Hx. apply elem_of_cons in Hx as [-> | Hx]; [lia | apply Hpre, Hx].
    + rewrite andb_false_r.
      destruct IH as [[Hr Hall] | (pre & s' & post & -> & Hr & Hlt & Hpre & Hpost)].
      * left. split; [exact Hr | ].
        intros x Hx. apply elem_of_cons in Hx as [-> | Hx]; [lia | apply Hall, Hx].
      * right. exists (s :: pre), s', post. repeat split; try assumption.
        intros x Hx. apply elem_of_cons in Hx as [-> | Hx]; [lia | apply Hpre, Hx].
Qed.
End TextFallback.

(** X14: the text fallback of main.ts.  When the dedicated text element
    is missing or blank, the review text is the trimmed text of the first
    of the longest spans of the card, provided it has more than 30
    characters: every span before it is strictly shorter and none is
    longer; with no span above 30 characters the text is absent. *)
Theorem text_fallback_first_longest :
  forall (card : Main.Card),
    (forall content,
        Js.orElse (Main.textSpan card) (Main.myEnedSpan card) = Some content ->
        Js.trim content = "") ->
    (Main.resolveText card = None
     /\ forall x, x ∈ Main.spans card -> Js.length (Js.trim x) <= 30)
    \/ exists pre s post,
        Main.spans card = pre ++ s :: post
        /\ Main.resolveText card = Some (Js.trim s)
        /\ 30 < Js.length (Js.trim s)
        /\ (forall x, x ∈ pre -> Js.length (Js.trim x) < Js.length (Js.trim s))
        /\ (forall x, x ∈ post -> Js.length (Js.trim x) <= Js.length (Js.trim s)).
Proof.
  intros card Hblank.
  assert (Hres : Main.resolveText card = Main.longestSpan (Main.spans card) None 0).
  { unfold Main.resolveText.
    destruct (Js.orElse _ _) as [content | ]; [ | reflexivity].
    rewrite (Hblank content eq_refl). reflexivity. }
  rewrite Hres. apply longestSpan_first_longest.
Qed.

Lemma text_fallback_first_longest_witness :
  (Main.resolveText paellaCard = None
   /\ forall x, x ∈ Main.spans paellaCard -> Js.length (Js.trim x) <= 30)
  \/ exists pre s post,
      Main.spans paellaCard = pre ++ s :: post
      /\ Main.resolveText paellaCard = Some (Js.trim s)
      /\ 30 < Js.length (Js.trim s)
      /\ (forall x, x ∈ pre -> Js.length (Js.trim x) < Js.length (Js.trim s))
      /\ (forall x, x ∈ post -> Js.length (Js.trim x) <= Js.length (Js.trim s)).
Proof.
  apply (text_fallback_first_longest paellaCard).
  intros content H. vm_compute in H. discriminate H.
Defined.

Section ReviewerInfo.


End ReviewerInfo.



Section CalendarSteps.
Import Js Utils JsDate.

Lemma monthOfYearDay_within (leap m dt : Z) :
  (leap = 0 \/ leap = 1) -> 0 <= m <= 11 -> 1 <= dt <= 28 ->
  monthOfYearDay leap (monthStart leap m + dt - 1) = m.
Proof.
  intros Hl Hm Hdt.
  assert (Hc : m = 0 \/ m = 1 \/ m = 2 \/ m = 3 \/ m = 4 \/ m = 5 \/ m = 6
               \/ m = 7 \/ m = 8 \/ m = 9 \/ m = 10 \/ m = 11) by lia.
  unfold monthOfYearDay.
  destruct Hl as [-> | ->];
    repeat (destruct Hc as [Hc | Hc];
            [subst m; cbn [monthStart];
             repeat match goal with
               | |- context [ ?a <? ?b ] => destruct (Z.ltb_spec a b); try lia
               end | ]);
    subst m; cbn [monthStart];
    repeat match goal with
      | |- context [ ?a <? ?b ] => destruct (Z.ltb_spec a b); try lia
      end.
Qed.

(** [MakeDay year month dt] with a day of the month that every month has
    is the day with these calendar fields, the month carried into the
    year. *)
Lemma MakeDay_inverse (year month dt tw : Z) :
  1 <= dt <= 28 -> 0 <= tw < msPerDay ->
  YearFromTime (MakeDate (MakeDay year month dt) tw) = year + month / 12
  /\ MonthFromTime (MakeDate (MakeDay year month dt) tw) = month mod 12
  /\ DateFromTime (MakeDate (MakeDay year month dt) tw) = dt
  /\ TimeWithinDay (MakeDate (MakeDay year month dt) tw) = tw.
Proof.
  intros Hdt Htw.
  set (t := MakeDate (MakeDay year month dt) tw).
  assert (Hday : Day t = MakeDay year month dt).
  { unfold t, MakeDate, Day, msPerDay in *. Z.div_mod_to_equations. lia. }
  assert (Htime : TimeWithinDay t = tw).
  { unfold t, MakeDate, TimeWithinDay, msPerDay in *. Z.div_mod_to_equations. lia. }
  pose proof (Z.mod_pos_bound month 12 ltac:(lia)) as Hmn.
  set (ym := year + month / 12) in *.
  set (leap := if isLeapYear ym then 1 else 0).
  assert (Hl : leap = 0 \/ leap = 1) by (unfold leap; destruct (isLeapYear ym); auto).
  assert (Hstart : 0 <= monthStart leap (month mod 12) <= 334 + leap).
  { assert (Hc : month mod 12 = 0 \/ month mod 12 = 1 \/ month mod 12 = 2
                 \/ month mod 12 = 3 \/ month mod 12 = 4 \/ month mod 12 = 5
                 \/ month mod 12 = 6 \/ month mod 12 = 7 \/ month mod 12 = 8
                 \/ month mod 12 = 9 \/ month mod 12 = 10 \/ month mod 12 = 11) by lia.
    repeat (destruct Hc as [Hc | Hc]; [rewrite Hc; cbn [monthStart]; lia | ]).
    rewrite Hc; cbn [monthStart]; lia. }
  assert (Hd : Day t = DayFromYear ym + monthStart leap (month mod 12) + dt - 1).
  { rewrite Hday. unfold MakeDay. fold ym. fold leap. lia. }
  assert (Hy : YearFromTime t = ym).
  { unfold YearFromTime. apply YearFromDay_unique.
    rewrite DayFromYear_succ, DaysInYear_leap. fold leap. lia. }
  assert (Hleap : InLeapYear t = leap).
  { unfold InLeapYear. rewrite Hy. reflexivity. }
  assert (Hwithin : DayWithinYear t = monthStart leap (month mod 12) + dt - 1).
  { unfold DayWithinYear. rewrite Hy. lia. }
  assert (Hm : MonthFromTime t = month mod 12).
  { unfold MonthFromTime. rewrite Hleap, Hwithin.
    apply monthOfYearDay_within; [exact Hl | lia | exact Hdt]. }
  split; [exact Hy | ]. split; [exact Hm | ]. split; [ | exact Htime].
  unfold DateFromTime. rewrite Hm, Hleap, Hwithin. lia.
Qed.

Lemma TimeWithinDay_range (t : Z) : 0 <= TimeWithinDay t < msPerDay.
Proof. unfold TimeWithinDay, msPerDay. apply Z.mod_pos_bound. lia. Qed.

Lemma LocalTime_UTC_fixed (off x : Z) :
  LocalTime (fixedZone off) (UTC (fixedZone off) x) = x.
Proof. unfold LocalTime, UTC, fixedZone. lia. Qed.
(** [setMonth] from a day of the month that every month has *)
Lemma setMonth_fields (off T m a : Z) :
  getDate (fixedZone off) T <= 28 ->
  setMonth (fixedZone off) T m = Some a ->
  getDate (fixedZone off) a = getDate (fixedZone off) T
  /\ getMonth (fixedZone off) a = m mod 12
  /\ getFullYear (fixedZone off) a = getFullYear (fixedZone off) T + m / 12
  /\ TimeWithinDay (LocalTime (fixedZone off) a)
     = TimeWithinDay (LocalTime (fixedZone off) T).
Proof.
  unfold getDate, getMonth, getFullYear, setMonth.
  set (t := LocalTime (fixedZone off) T).
  intros Hdate Ha.
  pose proof (DateFromTime_range t) as Hd.
  pose proof (TimeWithinDay_range t) as Htw.
  apply TimeClip_Some in Ha. rewrite Ha, LocalTime_UTC_fixed.
  destruct (MakeDay_inverse (YearFromTime t) m (DateFromTime t) (TimeWithinDay t)
              ltac:(lia) Htw) as (Hy & Hmo & Hdt & Ht).
  rewrite Hy, Hmo, Hdt, Ht. repeat split; reflexivity.
Qed.

(** [setFullYear] from a day of the month that every month has *)
Lemma setFullYear_fields (off T y a : Z) :
  getDate (fixedZone off) T <= 28 ->
  setFullYear (fixedZone off) T y = Some a ->
  getDate (fixedZone off) a = getDate (fixedZone off) T
  /\ getMonth (fixedZone off) a = getMonth (fixedZone off) T
  /\ getFullYear (fixedZone off) a = y
  /\ TimeWithinDay (LocalTime (fixedZone off) a)
     = TimeWithinDay (LocalTime (fixedZone off) T).
Proof.
  unfold getDate, getMonth, getFullYear, setFullYear.
  set (t := LocalTime (fixedZone off) T).
  intros Hdate Ha.
  pose proof (DateFromTime_range t) as Hd.
  pose proof (TimeWithinDay_range t) as Htw.
  pose proof (MonthFromTime_range t) as Hmr.
  apply TimeClip_Some in Ha. rewrite Ha, LocalTime_UTC_fixed.
  destruct (MakeDay_inverse y (MonthFromTime t) (DateFromTime t) (TimeWithinDay t)
              ltac:(lia) Htw) as (Hy & Hmo & Hdt & Ht).
  rewrite Hy, Hmo, Hdt, Ht.
  rewrite Z.div_small, Z.mod_small by lia.
  repeat split; try reflexivity. lia.
Qed.
Lemma subtractUnits_month (tza : TimeZone) (T n : Z) :
  subtractUnits tza T month n = setMonth tza T (getMonth tza T - n).
Proof. reflexivity. Qed.

Lemma subtractUnits_year (tza : TimeZone) (T n : Z) :
  subtractUnits tza T year n = setFullYear tza T (getFullYear tza T - n).
Proof. reflexivity. Qed.
End CalendarSteps.

(** X16: months and years keep the day of the month.  In a zone of fixed
    offset, when the local day of the month of the clock reading is at
    most 28, the date [n] months before it has the same day of the month
    and the same time of day, in the month [n] places earlier (the year
    carried); the date [n] years before it has the same month, day and
    time of day in the year [n] earlier. *)
Theorem calendar_step_keeps_day_of_month :
  forall (off T : Z) (text ds : string) (u : Utils.Unit) (a : Z),
    Utils.pluralMatch Utils.allUnits (Js.trim (Js.toLowerCase text)) = Some (ds, u) ->
    JsDate.getDate (fixedZone off) T <= 28 ->
    Utils.relativeDate (fixedZone off) T text = Some a ->
    (u = Utils.month ->
     JsDate.getDate (fixedZone off) a = JsDate.getDate (fixedZone off) T
     /\ JsDate.getMonth (fixedZone off) a
        = (JsDate.getMonth (fixedZone off) T - Js.parseInt ds) mod 12
     /\ JsDate.getFullYear (fixedZone off) a
        = JsDate.getFullYear (fixedZone off) T
          + (JsDate.getMonth (fixedZone off) T - Js.parseInt ds) / 12
     /\ JsDate.TimeWithinDay (JsDate.LocalTime (fixedZone off) a)
        = JsDate.TimeWithinDay (JsDate.LocalTime (fixedZone off) T))
    /\ (u = Utils.year ->
        JsDate.getDate (fixedZone off) a = JsDate.getDate (fixedZone off) T
        /\ JsDate.getMonth (fixedZone off) a = JsDate.getMonth (fixedZone off) T
        /\ JsDate.getFullYear (fixedZone off) a
           = JsDate.getFullYear (fixedZone off) T - Js.parseInt ds
        /\ JsDate.TimeWithinDay (JsDate.LocalTime (fixedZone off) a)
           = JsDate.TimeWithinDay (JsDate.LocalTime (fixedZone off) T)).
Proof.
  intros off T text ds u a Hm Hdate.
  rewrite (relativeDate_plural _ _ _ _ _ Hm).
  intros Ha. split; intros Hu; rewrite Hu in Ha.
  - rewrite subtractUnits_month in Ha.
    exact (setMonth_fields off T _ a Hdate Ha).
  - rewrite subtractUnits_year in Ha.
    exact (setFullYear_fields off T _ a Hdate Ha).
Qed.

Lemma calendar_step_keeps_day_of_month_witness :
  JsDate.getDate JsDate.utcZone 1701174896789 = 28
  /\ JsDate.getMonth JsDate.utcZone 1701174896789 = (1 - 3) mod 12
  /\ JsDate.getFullYear JsDate.utcZone 1701174896789 = 2024 + (1 - 3) / 12.
Proof.
  destruct (proj1 (calendar_step_keeps_day_of_month 0 1709123696789
                     "3 months ago" "3" Utils.month 1701174896789
                     ltac:(vm_compute; reflexivity)
                     ltac:(vm_compute; discriminate)
                     ltac:(vm_compute; reflexivity)) eq_refl)
    as (Hd & Hmo & Hy & _).
  split; [exact Hd | ]. split; [exact Hmo | exact Hy].
Defined.

Section DetailedRatings.

End DetailedRatings.




Section Provenance.
Import Accumulator.
Variable env : Env.
Variable maxItems : Z.
Variable detailed : Raw.t -> option (gmap string Z).

End Provenance.



